(** * The hexadecimal serial protocol of cpp-libs-mm-arduino

    A shallow embedding of [include/HexProtocol.h] together with its two
    transports, [include/Arduino/StreamHexProtocol.h] (the slave, an
    Arduino [Stream]) and [common/DeviceHexProtocol.h] (the host, a
    Micro-Manager serial port).

    Bytes and all C integers are values of [Z]; every conversion the
    source makes between C integer types is written out as a
    wrap-around ([static_cast]), and a parameter of a C integer type is
    a [Z] that the caller keeps in the range of that type ([in_range]).
    Signed 32-bit negation wraps around, as it does on the AVR and on
    the host.  A protocol object is a [session]; member functions are
    state transformers in the monad [M]. *)

From Stdlib Require Import String Ascii ZArith List Bool Lia.
Import ListNotations.
Local Open Scope Z_scope.

(** ** Characters and C strings *)

Definition char_of (a : ascii) : Z := Z.of_N (N_of_ascii a).
Arguments char_of a%_char.

Fixpoint bytes_of_string (s : string) : list Z :=
  match s with
  | EmptyString => []
  | String a s' => char_of a :: bytes_of_string s'
  end.

(** The part of a [char] buffer that C sees as a string: everything
    before the first NUL. *)
Fixpoint cstr (buf : list Z) : list Z :=
  match buf with
  | [] => []
  | c :: buf' => if c =? 0 then [] else c :: cstr buf'
  end.

Definition strlen (buf : list Z) : Z := Z.of_nat (List.length (cstr buf)).

(** [strchr s c]: [None] for a null result, otherwise the string that
    starts one character after the first occurrence ([p + 1]). *)
Fixpoint strchr_next (s : list Z) (c : Z) : option (list Z) :=
  match s with
  | [] => None
  | x :: s' => if x =? c then Some s' else strchr_next s' c
  end.

(** ** AsciiCodes.h and the constants of HexProtocol.h *)

Definition ASCII_EOT : Z := 0x04.
Definition ASCII_NAK : Z := 0x15.

Definition PROT_ERROR : Z := ASCII_NAK.
Definition PROT_TERM_CHAR : Z := ASCII_EOT.
Definition PROT_RADIX : Z := 16.

(** sizeof(prot_ulong_t) = 4 *)
Definition PROT_HEX_BUFF_SIZE : Z := 2 * 4 + 2.

Definition SUBCMD_ARRAY_SIZE : Z := 0x01.
Definition SUBCMD_ARRAY_STARTING : Z := 0x02.
Definition SUBCMD_ARRAY_ELEMENT : Z := 0x03.
Definition SUBCMD_ARRAY_FINISHED : Z := 0x04.

(** ** Integer types of the protocol *)

Inductive ctype : Type := U8 | I8 | U16 | I16 | U32 | I32.

Definition prot_byte_t := U8.
Definition prot_cmd_t := U8.
Definition prot_chan_t := I8.
Definition prot_long_t := I32.
Definition prot_ulong_t := U32.
Definition prot_size_t := U16.

Definition bits (T : ctype) : Z :=
  match T with
  | U8 | I8 => 8
  | U16 | I16 => 16
  | U32 | I32 => 32
  end.

(** [#define IS_SIGNED(TYPE) ((TYPE)(-1)<(TYPE)(0))] *)
Definition IS_SIGNED (T : ctype) : bool :=
  match T with
  | I8 | I16 | I32 => true
  | U8 | U16 | U32 => false
  end.

(** Conversion to an integer type: reduction modulo [2^bits], read as
    two's complement for the signed types. *)
Definition static_cast (T : ctype) (v : Z) : Z :=
  let m := 2 ^ bits T in
  let u := v mod m in
  if IS_SIGNED T then (if u <? m / 2 then u else u - m) else u.

Definition in_range (T : ctype) (v : Z) : Prop :=
  if IS_SIGNED T then - 2 ^ (bits T - 1) <= v < 2 ^ (bits T - 1)
  else 0 <= v < 2 ^ bits T.

Definition ULONG_MAX : Z := 2 ^ 32 - 1.

(** ** The C library: [ultoa] and [strtoul]

    These are not part of the repository; they are modelled after the C
    library the code links against, for a 32-bit [unsigned long]
    (the header asserts [sizeof(prot_ulong_t) == sizeof(long)]). *)

Definition digit_char (d : Z) : Z :=
  if d <? 10 then char_of "0" + d else char_of "a" + (d - 10).

(** [do { *p++ = digit(v % radix); v /= radix; } while (v);] followed by
    the reversal of the buffer.  A 32-bit value has at most 32 digits. *)
Fixpoint ultoa_loop (n : nat) (v radix : Z) (acc : list Z) : list Z :=
  match n with
  | O => acc
  | S n' =>
      let acc' := digit_char (v mod radix) :: acc in
      if v / radix =? 0 then acc' else ultoa_loop n' (v / radix) radix acc'
  end.

Definition ultoa (v radix : Z) : list Z :=
  ultoa_loop 32 (v mod 2 ^ 32) radix [].

Definition isspace (c : Z) : bool :=
  (c =? 32) || ((9 <=? c) && (c <=? 13)).

Definition digit_value (c : Z) : option Z :=
  if (48 <=? c) && (c <=? 57) then Some (c - 48)
  else if (97 <=? c) && (c <=? 122) then Some (c - 97 + 10)
  else if (65 <=? c) && (c <=? 90) then Some (c - 65 + 10)
  else None.

Fixpoint skip_space (s : list Z) : list Z :=
  match s with
  | c :: s' => if isspace c then skip_space s' else s
  | [] => []
  end.

(** The digit loop of [strtoul]: the accumulator and the overflow flag. *)
Fixpoint strtoul_loop (base : Z) (s : list Z) (acc : Z) (ovf : bool) : Z * bool :=
  match s with
  | [] => (acc, ovf)
  | c :: s' =>
      match digit_value c with
      | Some d =>
          if d <? base then
            let acc' := acc * base + d in
            if ULONG_MAX <? acc' then strtoul_loop base s' ULONG_MAX true
            else strtoul_loop base s' acc' ovf
          else (acc, ovf)
      | None => (acc, ovf)
      end
  end.

(** [strtoul(s, nullptr, base)]: white space, an optional sign, for base
    16 an optional [0x], then digits; [ULONG_MAX] on overflow, the
    negation modulo [2^32] after a minus sign. *)
Definition strtoul (s : list Z) (base : Z) : Z :=
  let s1 := skip_space s in
  let '(neg, s2) :=
    match s1 with
    | c :: t => if c =? char_of "-" then (true, t)
                else if c =? char_of "+" then (false, t) else (false, s1)
    | [] => (false, s1)
    end in
  let s3 :=
    if base =? 16 then
      match s2 with
      | z :: x :: t =>
          if (z =? char_of "0") && ((x =? char_of "x") || (x =? char_of "X"))
          then t else s2
      | _ => s2
      end
    else s2 in
  let '(acc, ovf) := strtoul_loop base s3 0 false in
  if ovf then ULONG_MAX else if neg then (- acc) mod 2 ^ 32 else acc.

(** ** Sessions and the transport *)

(** The two classes derived from [HexProtocolBase]. *)
Inductive role : Type :=
| Slave   (* StreamHexProtocol, on the Arduino *)
| Host.   (* DeviceHexProtocol, in the device adapter *)

(** The trace of a session: one entry per call that reaches the serial
    device, in the order of the calls.  The host keeps such a record in
    [protoLogStream_] and clears it in [lockStream]; here both classes
    keep it, so that the order of requests and answers can be stated.
    A read is recorded with the bytes it stored in the buffer. *)
Inductive io_event : Type :=
| EvWriteByte (b : Z)
| EvWriteBuffer (buf : list Z)
| EvRead (answer : list Z).

Record session : Type := mkSession {
  started_ : bool;
  target_ : bool;        (* target_ != nullptr *)
  rx : list Z;           (* bytes the serial device has for us *)
  tx : list Z;           (* bytes handed to the serial device *)
  log : list io_event
}.

Definition M (A : Type) : Type := session -> A * session.

Definition ret {A} (a : A) : M A := fun s => (a, s).

Definition bind {A B} (m : M A) (k : A -> M B) : M B :=
  fun s => let (a, s') := m s in k a s'.

Notation "x <- m ;; k" := (bind m (fun x => k))
  (at level 61, m at next level, right associativity).

(** C++ [a && b] on two calls: [b] runs only when [a] returned true. *)
Definition and_then (a b : M bool) : M bool :=
  x <- a ;; if x then b else ret false.

Infix "&&>" := and_then (at level 41, right associativity).

(** [test(chain)] returns its argument. *)
Definition test (chain : M bool) : M bool := chain.

Definition put_tx (bs : list Z) (e : io_event) : M unit :=
  fun s => (tt, mkSession (started_ s) (target_ s) (rx s) (tx s ++ bs) (log s ++ [e])).

Definition set_rx (d : list Z) (e : io_event) : M unit :=
  fun s => (tt, mkSession (started_ s) (target_ s) d (tx s) (log s ++ [e])).

Definition hasStarted : M bool := fun s => (started_ s, s).

Definition startProtocol (target : bool) : M unit :=
  fun s => (tt, mkSession true target (rx s) (tx s) (log s)).

Definition endProtocol (r : role) : M unit :=
  fun s =>
    match r with
    | Slave => (tt, mkSession false (target_ s) (rx s) (tx s) (log s))
    | Host => (tt, mkSession false false (rx s) (tx s) (log s))
    end.

(** *** The serial devices

    The Arduino [Stream] and the serial port of the device adapter are
    not part of the repository.  They are modelled as queues of bytes:
    [rx] is what will arrive, a timeout is the end of [rx], and every
    write is accepted ([Stream::write] returns the number of bytes,
    [WriteToComPort] returns DEVICE_OK).

    [Stream::readBytesUntil] of the Arduino core: a negative
    [timedRead()] is the timeout. *)
Fixpoint readBytesUntil (terminator : Z) (length : nat) (d : list Z)
  : list Z * list Z :=
  match length with
  | O => ([], d)
  | S n =>
      match d with
      | [] => ([], [])
      | c :: d' =>
          if c =? terminator then ([], d')
          else let (buf, d'') := readBytesUntil terminator n d' in (c :: buf, d'')
      end
  end.

(** [Stream::readStringUntil]: no bound on the length. *)
Fixpoint readStringUntil (terminator : Z) (d : list Z) : list Z * list Z :=
  match d with
  | [] => ([], [])
  | c :: d' =>
      if c =? terminator then ([], d')
      else let (buf, d'') := readStringUntil terminator d' in (c :: buf, d'')
  end.

(** [CDeviceBase::GetSerialAnswer]: the answer without its terminator,
    or an error ([None]) when no terminator arrives in time. *)
Fixpoint GetSerialAnswer (term : Z) (d : list Z) : option (list Z * list Z) :=
  match d with
  | [] => None
  | c :: d' =>
      if c =? term then Some ([], d')
      else match GetSerialAnswer term d' with
           | Some (a, rest) => Some (c :: a, rest)
           | None => None
           end
  end.

(** *** The virtual methods, by class *)

Definition writeByte (r : role) (b : Z) : M bool :=
  st <- hasStarted ;;
  if negb st then ret false
  else _ <- put_tx [b] (EvWriteByte b) ;; ret true.

(** Returns the number of bytes written. *)
Definition writeBuffer (r : role) (buffer : list Z) : M Z :=
  st <- hasStarted ;;
  if negb st then ret 0
  else _ <- put_tx buffer (EvWriteBuffer buffer) ;; ret (Z.of_nat (List.length buffer)).

(** [buffer[i] = c]; nothing is stored outside the buffer. *)
Fixpoint store_nat (i : nat) (c : Z) (buffer : list Z) : list Z :=
  match buffer, i with
  | [], _ => []
  | _ :: b, O => c :: b
  | x :: b, S i' => x :: store_nat i' c b
  end.

Definition store (i c : Z) (buffer : list Z) : list Z :=
  if i <? 0 then buffer else store_nat (Z.to_nat i) c buffer.

(** Bytes copied to the front of a buffer. *)
Definition copy_in (bytes buffer : list Z) : list Z :=
  bytes ++ skipn (List.length bytes) buffer.

(** Returns the number of bytes read and the buffer.  The host copies at
    most [size] bytes of the answer and, when there is room, stores a NUL
    after them. *)
Definition readBufferUntilTerminator (r : role) (buffer : list Z)
    (size terminator : Z) : M (Z * list Z) :=
  st <- hasStarted ;;
  if negb st then ret (0, buffer)
  else fun s =>
    match r with
    | Slave =>
        let (buf, d) := readBytesUntil terminator (Z.to_nat size) (rx s) in
        (_ <- set_rx d (EvRead buf) ;;
         ret (Z.of_nat (List.length buf), copy_in buf buffer)) s
    | Host =>
        match GetSerialAnswer terminator (rx s) with
        | None => (_ <- set_rx [] (EvRead []) ;; ret (0, buffer)) s
        | Some (answer, d) =>
            let bytes := firstn (Z.to_nat size) answer in
            let bytesRead := Z.of_nat (List.length bytes) in
            let buffer1 := copy_in bytes buffer in
            (_ <- set_rx d (EvRead bytes) ;;
             ret (bytesRead,
                  if bytesRead <? size then store bytesRead 0 buffer1
                  else buffer1)) s
        end
    end.

(** Returns the length of the string and the string [str]: what was
    read, or the string of the caller where the code returns before it
    assigns one (the protocol has not started; on the host, no answer
    arrived in time). *)
Definition readStringUntilTerminator (r : role) (str : list Z) (terminator : Z)
  : M (Z * list Z) :=
  st <- hasStarted ;;
  if negb st then ret (0, str)
  else fun s =>
    match r with
    | Slave =>
        let (buf, d) := readStringUntil terminator (rx s) in
        (_ <- set_rx d (EvRead buf) ;; ret (Z.of_nat (List.length buf), buf)) s
    | Host =>
        match GetSerialAnswer terminator (rx s) with
        | None => (_ <- set_rx [] (EvRead []) ;; ret (0, str)) s
        | Some (answer, d) =>
            (_ <- set_rx d (EvRead answer) ;;
             ret (Z.of_nat (List.length answer), answer)) s
        end
    end.

(** The host keeps the defaults of [HexProtocolBase], which return false. *)
Definition hasByte (r : role) : M bool :=
  match r with
  | Host => ret false
  | Slave =>
      st <- hasStarted ;;
      if negb st then ret false
      else fun s => (0 <? Z.of_nat (List.length (rx s)), s)
  end.

(** [None] for a false return, otherwise the byte stored in [b]. *)
Definition readByte (r : role) : M (option Z) :=
  match r with
  | Host => ret None
  | Slave =>
      st <- hasStarted ;;
      if negb st then ret None
      else fun s =>
        match rx s with
        | [] => (None, s)                       (* stream_->read() == -1 *)
        | i :: d => (Some (static_cast prot_byte_t i),
                     mkSession (started_ s) (target_ s) d (tx s) (log s))
        end
  end.

(** ** Receiving values, low level *)

(** The conversion at the end of [getValueDelegate::call], on the
    NUL-terminated text of [readBuf]. *)
Definition scan_value (T : ctype) (text : list Z) : Z :=
  if IS_SIGNED T then
    match strchr_next text (char_of "-") with
    | Some after_sign =>
        let temp := static_cast prot_long_t (strtoul after_sign PROT_RADIX) in
        static_cast T (static_cast prot_long_t (- temp))
    | None =>
        let temp := static_cast prot_ulong_t (strtoul text PROT_RADIX) in
        static_cast T temp
    end
  else
    let temp := static_cast prot_ulong_t (strtoul text PROT_RADIX) in
    static_cast T temp.

(** [getValueDelegate<DD,SS,T>::call] on a stack buffer with the given
    initial contents; [None] is a false return. *)
Definition getValueDelegate_on (readBuf0 : list Z) (r : role) (T : ctype)
  : M (option Z) :=
  res <- readBufferUntilTerminator r readBuf0 (PROT_HEX_BUFF_SIZE - 1) PROT_TERM_CHAR ;;
  let '(bytesRead, readBuf) := res in
  if bytesRead =? 0 then ret None
  else
    let readBuf := store bytesRead 0 readBuf in
    ret (Some (scan_value T (cstr readBuf))).

(** [char readBuf[PROT_HEX_BUFF_SIZE]] is not initialised; the result
    does not depend on what it holds ([getValue_stack_independent]). *)
Definition getValue (r : role) (T : ctype) : M (option Z) :=
  getValueDelegate_on (repeat 0 (Z.to_nat PROT_HEX_BUFF_SIZE)) r T.

(** [getValueDelegate<DD,SS,prot_string_t>::call]: the return value and
    the string [__str]. *)
Definition getValue_string (r : role) (str : list Z) : M (bool * list Z) :=
  res <- readStringUntilTerminator r str PROT_TERM_CHAR ;;
  let '(bytesRead, str) := res in
  ret (negb (bytesRead =? 0), str).

(** A [prot_float_t] is its 32 raw bits; [reinterpret_cast] between
    [prot_float_t*] and [prot_ulong_t*] leaves them as they are. *)
Record prot_float_t : Type := float_of_bits { float_bits : Z }.

Definition float_isnan (f : prot_float_t) : bool :=
  (Z.land (Z.shiftr (float_bits f) 23) 0xff =? 0xff)
  && negb (Z.land (float_bits f) 0x7fffff =? 0).

(** [getValueDelegate<DD,SS,prot_float_t>::call] with PROT_FLOAT_IEEE754 *)
Definition getValue_float (r : role) : M (option prot_float_t) :=
  t <- getValue r prot_ulong_t ;;
  match t with
  | None => ret None
  | Some temp => ret (Some (float_of_bits temp))
  end.

(** [size_t] has 16 bits on the AVR and 64 on a 64-bit host. *)
Definition size_t_bits (r : role) : Z :=
  match r with Slave => 16 | Host => 64 end.

Definition size_t_wrap (r : role) (v : Z) : Z := v mod 2 ^ size_t_bits r.

(** [getString]: the return value and the buffer. *)
Definition getString (r : role) (strbuf : list Z) (size : Z)
  : M (bool * list Z) :=
  res <- readBufferUntilTerminator r strbuf size PROT_TERM_CHAR ;;
  let '(bytesRead, strbuf) := res in
  let strbuf :=
    if bytesRead <? size_t_wrap r (size - 1) then store bytesRead 0 strbuf
    else strbuf in
  ret (negb (bytesRead =? 0), strbuf).

(** ** Sending values, low level *)

(** [prot_ultohexstr]: on the AVR the third parameter is the size of the
    buffer, on the host it is the base; every caller passes PROT_RADIX. *)
Definition prot_ultohexstr (r : role) (val third : Z) : list Z :=
  match r with
  | Slave => if third <? PROT_HEX_BUFF_SIZE then [] else ultoa val PROT_RADIX
  | Host => ultoa val third
  end.

(** The text that [putValueDelegate::call] leaves in [writeBuf]. *)
Definition print_value (r : role) (T : ctype) (val : Z) : list Z :=
  if IS_SIGNED T then
    let temp := static_cast prot_long_t val in
    if temp <? 0 then
      char_of "-"
      :: prot_ultohexstr r (static_cast prot_ulong_t (static_cast prot_long_t (- temp))) PROT_RADIX
    else prot_ultohexstr r (static_cast prot_ulong_t temp) PROT_RADIX
  else
    let temp := static_cast prot_ulong_t val in
    prot_ultohexstr r temp PROT_RADIX.

(** [putValueDelegate<DD,SS,T>::call] *)
Definition putValue (r : role) (T : ctype) (val : Z) : M bool :=
  let writeBuf := print_value r T val in
  let len := strlen writeBuf in
  let writeBuf := cstr writeBuf ++ [PROT_TERM_CHAR] in
  let len := len + 1 in
  bytesWritten <- writeBuffer r writeBuf ;;
  ret (bytesWritten =? len).

(** [putValueDelegate<DD,SS,prot_float_t>::call] with PROT_FLOAT_IEEE754 *)
Definition putValue_float (r : role) (val : prot_float_t) : M bool :=
  let temp := float_bits val in
  putValue r prot_ulong_t temp.

(** [putString] *)
Definition putString (r : role) (str : list Z) : M bool :=
  let len := strlen str in
  bytesWritten <- (if 0 <? len then writeBuffer r (cstr str) else ret 0) ;;
  let term := PROT_TERM_CHAR in
  n <- writeBuffer r [term] ;;
  let bytesWritten := bytesWritten + n in
  ret (bytesWritten =? len + 1).

(** ** Sending and receiving commands, mid level *)

Definition putCommand (r : role) (cmd : Z) : M bool :=
  writeByte r (static_cast prot_byte_t cmd).

Definition putChannelCommand (r : role) (cmd c : Z) : M bool :=
  test (putCommand r cmd &&> putValue r prot_chan_t c).

Definition reply (r : role) (cmd : Z) : M bool :=
  putValue r prot_cmd_t cmd.

Definition replyError (r : role) : M bool :=
  _ <- putValue r prot_cmd_t PROT_ERROR ;;
  ret false.

Definition checkReply (r : role) (cmd : Z) : M bool :=
  test (v <- getValue r prot_cmd_t ;;
        match v with
        | Some answer => ret (answer =? cmd)
        | None => ret false
        end).

Definition hasCommand (r : role) : M bool := hasByte r.

Definition getCommand (r : role) : M Z :=
  b <- readByte r ;;
  match b with
  | Some b => ret (static_cast prot_cmd_t b)
  | None => ret PROT_ERROR
  end.

(** ** Command dispatching (sending), high level *)

Definition dispatchTask (r : role) (cmdTask : Z) : M bool :=
  test (putCommand r cmdTask &&> checkReply r cmdTask).

(** [None] for a false return, otherwise the value stored in [__t]. *)
Definition dispatchGet (r : role) (T : ctype) (cmdGet : Z) : M (option Z) :=
  ok <- test (putCommand r cmdGet &&> checkReply r cmdGet) ;;
  if ok then getValue r T else ret None.

Definition dispatchSet (r : role) (T : ctype) (cmdSet t : Z) : M bool :=
  test (putCommand r cmdSet &&> putValue r T t &&> checkReply r cmdSet).

Definition dispatchSetString (r : role) (cmdSet : Z) (str : list Z) : M bool :=
  test (putCommand r cmdSet &&> putString r str &&> checkReply r cmdSet).

(** *** Arrays *)

(** [dispatchGetArrayMaxSize]; the first chain of [dispatchSetArray]
    is the same exchange followed by [__size <= maxSize]. *)
Definition dispatchGetArrayMaxSize (r : role) (cmdSet : Z) : M (option Z) :=
  ok <- test (putCommand r cmdSet &&> putValue r prot_cmd_t SUBCMD_ARRAY_SIZE
              &&> checkReply r cmdSet) ;;
  if ok then getValue r prot_size_t else ret None.

(** One round of [for (prot_size_t i = 0; i < __size; i++)] in
    [dispatchSetArray]; [n] rounds remain. *)
Fixpoint dispatchSetArray_elements (r : role) (T : ctype) (cmdSet : Z)
    (pt : list Z) (n : nat) (i : Z) : M bool :=
  match n with
  | O => ret true
  | S n' =>
      ok <- test (putCommand r cmdSet &&> putValue r prot_cmd_t SUBCMD_ARRAY_ELEMENT
                  &&> putValue r prot_size_t i
                  &&> putValue r T (nth (Z.to_nat i) pt 0)
                  &&> checkReply r cmdSet) ;;
      if negb ok then ret false
      else dispatchSetArray_elements r T cmdSet pt n' (static_cast prot_size_t (i + 1))
  end.

Definition dispatchSetArray (r : role) (T : ctype) (cmdSet : Z)
    (pt : list Z) (size : Z) : M bool :=
  (* get the maximum size of the remote array *)
  ok <- test (putCommand r cmdSet &&> putValue r prot_cmd_t SUBCMD_ARRAY_SIZE
              &&> checkReply r cmdSet
              &&> (maxSize <- getValue r prot_size_t ;;
                   match maxSize with
                   | Some maxSize => ret (size <=? maxSize)
                   | None => ret false
                   end)) ;;
  if negb ok then ret false
  else
    (* set the elements *)
    ok <- dispatchSetArray_elements r T cmdSet pt (Z.to_nat size) 0 ;;
    if negb ok then ret false
    else
      (* finalize by setting the length *)
      ok <- test (putCommand r cmdSet &&> putValue r prot_cmd_t SUBCMD_ARRAY_FINISHED
                  &&> putValue r prot_size_t size &&> checkReply r cmdSet) ;;
      if negb ok then ret false else ret true.

(** The element loop of [dispatchGetArray]; the result carries the
    array [__pt]. *)
Fixpoint dispatchGetArray_elements (r : role) (T : ctype) (cmdGet : Z)
    (pt : list Z) (n : nat) (i : Z) : M (bool * list Z) :=
  match n with
  | O => ret (true, pt)
  | S n' =>
      ok <- test (putCommand r cmdGet &&> putValue r prot_cmd_t SUBCMD_ARRAY_ELEMENT
                  &&> putValue r prot_size_t i &&> checkReply r cmdGet) ;;
      if negb ok then ret (false, pt)
      else
        el <- getValue r T ;;
        match el with
        | None => ret (false, pt)
        | Some x =>
            dispatchGetArray_elements r T cmdGet (store i x pt) n'
              (static_cast prot_size_t (i + 1))
        end
  end.

(** The result: the return value, the array and [__size]. *)
Definition dispatchGetArray (r : role) (T : ctype) (cmdGet : Z)
    (pt : list Z) (maxSize size0 : Z) : M (bool * list Z * Z) :=
  (* tell the array that we are about to get it *)
  ok <- test (putCommand r cmdGet &&> putValue r prot_cmd_t SUBCMD_ARRAY_STARTING
              &&> checkReply r cmdGet) ;;
  if negb ok then ret (false, pt, size0)
  else
    (* get the current size of the array *)
    ok <- test (putCommand r cmdGet &&> putValue r prot_cmd_t SUBCMD_ARRAY_SIZE
                &&> checkReply r cmdGet) ;;
    if negb ok then ret (false, pt, size0)
    else
      sz <- getValue r prot_size_t ;;
      match sz with
      | None => ret (false, pt, size0)
      | Some size =>
          if negb (size <=? maxSize) then ret (false, pt, size)
          else
            (* get the elements *)
            res <- dispatchGetArray_elements r T cmdGet pt (Z.to_nat size) 0 ;;
            let '(ok, pt) := res in
            ret (ok, pt, size)
      end.

(** ** Command handling (receiving), high level *)

(** A member function of the device, called through [target_]:
    [test(target_ && (target_->*fn)())]. *)
Definition call_target {A} (fn : M (option A)) : M (option A) :=
  fun s => if target_ s then fn s else (None, s).

Definition call_task (fn : M bool) : M bool :=
  fun s => if target_ s then fn s else (false, s).

Definition processTask (r : role) (cmdTask : Z) (taskFn : M bool) : M bool :=
  ok <- test (call_task taskFn) ;;
  if ok then reply r cmdTask else replyError r.

(** The simple [processSet]; [afterSet] is [None] for a null pointer.
    The result carries the value stored in [__val]. *)
Definition processSet (r : role) (T : ctype) (cmdSet : Z)
    (afterSet : option (M bool)) : M (bool * option Z) :=
  v <- getValue r T ;;
  match v with
  | Some val =>
      match afterSet with
      | Some fn =>
          ok <- test (call_task fn) ;;
          if negb ok then (b <- replyError r ;; ret (b, v))
          else (b <- reply r cmdSet ;; ret (b, v))
      | None => b <- reply r cmdSet ;; ret (b, v)
      end
  | None => b <- replyError r ;; ret (b, v)
  end.

(** [processSet] with a [SetValueFn]. *)
Definition processSet_fn (r : role) (T : ctype) (cmdSet : Z)
    (setFn : Z -> M bool) : M bool :=
  v <- getValue r T ;;
  ok <- match v with
        | Some t_val => call_task (setFn t_val)
        | None => ret false
        end ;;
  if ok then reply r cmdSet else replyError r.

(** The simple [processGet]; [beforeGet] is [None] for a null pointer. *)
Definition processGet (r : role) (T : ctype) (cmdGet val : Z)
    (beforeGet : option (M bool)) : M bool :=
  _ <- match beforeGet with
       | Some fn =>
           ok <- test (call_task fn) ;;
           if negb ok then (_ <- replyError r ;; ret tt) else ret tt
       | None => ret tt
       end ;;
  test (reply r cmdGet &&> putValue r T val).

(** [processGet] with a [GetValueFn], which stores the value in [t_val]. *)
Definition processGet_fn (r : role) (T : ctype) (cmdGet : Z)
    (getFn : M (option Z)) : M bool :=
  v <- call_target getFn ;;
  match v with
  | Some t_val => test (reply r cmdGet &&> putValue r T t_val)
  | None => replyError r
  end.

(** The simple [processGetString]. *)
Definition processGetString (r : role) (cmdGet : Z) (str : list Z)
    (beforeGet : option (M bool)) : M bool :=
  _ <- match beforeGet with
       | Some fn =>
           ok <- test (call_task fn) ;;
           if negb ok then (_ <- replyError r ;; ret tt) else ret tt
       | None => ret tt
       end ;;
  test (reply r cmdGet &&> putString r str).

(** [processGetString] with a [GetStringFn]. *)
Definition processGetString_fn (r : role) (cmdGet : Z)
    (strbufFn : M (option (list Z))) : M bool :=
  v <- call_target strbufFn ;;
  match v with
  | Some strbuf => test (reply r cmdGet &&> putString r strbuf)
  | None => replyError r
  end.

(** ** More of the initiator *)

(** [dispatchGetString]: the return value and the buffer. *)
Definition dispatchGetString (r : role) (cmdSet : Z) (strbuf : list Z) (size : Z)
  : M (bool * list Z) :=
  ok <- putCommand r cmdSet ;;
  if negb ok then ret (false, strbuf)
  else
    res <- getString r strbuf size ;;
    let '(ok, strbuf) := res in
    if negb ok then ret (false, strbuf)
    else ok <- checkReply r cmdSet ;; ret (ok, strbuf).

(** [dispatchGet<prot_string_t>]: the return value and the string [__t]. *)
Definition dispatchGet_string (r : role) (cmdGet : Z) (t : list Z)
  : M (bool * list Z) :=
  ok <- test (putCommand r cmdGet &&> checkReply r cmdGet) ;;
  if negb ok then ret (false, t) else getValue_string r t.

Definition dispatchChannelTask (r : role) (cmdTask chan : Z) : M bool :=
  test (putChannelCommand r cmdTask chan &&> checkReply r cmdTask).

Definition dispatchChannelGet (r : role) (T : ctype) (cmdGet chan : Z)
  : M (option Z) :=
  ok <- test (putChannelCommand r cmdGet chan &&> checkReply r cmdGet) ;;
  if ok then getValue r T else ret None.

Definition dispatchChannelSet (r : role) (T : ctype) (cmdSet chan t : Z) : M bool :=
  test (putChannelCommand r cmdSet chan &&> putValue r T t &&> checkReply r cmdSet).

Definition dispatchGetArraySize (r : role) (cmdGet : Z) : M (option Z) :=
  ok <- test (putCommand r cmdGet &&> putValue r prot_cmd_t SUBCMD_ARRAY_SIZE
              &&> checkReply r cmdGet) ;;
  if ok then getValue r prot_size_t else ret None.

(** ** More of the responder *)

(** [processCommand]: the device's dispatcher is called through
    [target_]. *)
Definition processCommand (cmd : Z) (processFn : Z -> M unit) : M unit :=
  fun s => if target_ s then processFn cmd s else (tt, s).

Definition processChannelTask (r : role) (cmdTask : Z) (taskFn : Z -> M bool)
  : M bool :=
  c <- getValue r prot_chan_t ;;
  ok <- match c with
        | Some chan => call_task (taskFn chan)
        | None => ret false
        end ;;
  if ok then reply r cmdTask else replyError r.

Definition processChannelSet (r : role) (T : ctype) (cmdSet : Z)
    (setFn : Z -> Z -> M bool) : M bool :=
  c <- getValue r prot_chan_t ;;
  ok <- match c with
        | Some chan =>
            v <- getValue r T ;;
            match v with
            | Some t_val => call_task (setFn chan t_val)
            | None => ret false
            end
        | None => ret false
        end ;;
  if ok then reply r cmdSet else replyError r.

Definition processChannelGet (r : role) (T : ctype) (cmdGet : Z)
    (getFn : Z -> M (option Z)) : M bool :=
  c <- getValue r prot_chan_t ;;
  v <- match c with
       | Some chan => call_target (getFn chan)
       | None => ret None
       end ;;
  match v with
  | Some t_val => test (reply r cmdGet &&> putValue r T t_val)
  | None => replyError r
  end.

(** The simple [processSetString]: the return value and the buffer. *)
Definition processSetString (r : role) (cmdSet : Z) (strbuf : list Z) (size : Z)
    (afterSet : option (M bool)) : M (bool * list Z) :=
  res <- getString r strbuf size ;;
  let '(ok, strbuf) := res in
  if ok then
    match afterSet with
    | Some fn =>
        ok <- test (call_task fn) ;;
        if negb ok then (b <- replyError r ;; ret (b, strbuf))
        else (b <- reply r cmdSet ;; ret (b, strbuf))
    | None => b <- reply r cmdSet ;; ret (b, strbuf)
    end
  else b <- replyError r ;; ret (b, strbuf).

(** *** Array handlers

    The responder is the Arduino: [int] is a signed and [size_t] an
    unsigned 16-bit integer there. *)
Definition avr_int : ctype := I16.
Definition avr_size_t : ctype := U16.

(** The simple [processSetArray]: the return value, the array [__pArr]
    and [__finalSize]. *)
Definition processSetArray (T : ctype) (cmdSet : Z) (pArr : list Z)
    (maxSize finalSize : Z) (afterSet : option (M bool))
  : M (bool * list Z * Z) :=
  sub <- getValue Slave avr_int ;;
  match sub with
  | None => b <- replyError Slave ;; ret (b, pArr, finalSize)
  | Some subCmd =>
      if subCmd =? SUBCMD_ARRAY_SIZE then
        b <- test (reply Slave cmdSet &&> putValue Slave avr_size_t maxSize) ;;
        ret (b, pArr, finalSize)
      else if subCmd =? SUBCMD_ARRAY_ELEMENT then
        i <- getValue Slave prot_size_t ;;
        match i with
        | None => b <- replyError Slave ;; ret (b, pArr, finalSize)
        | Some index =>
            e <- getValue Slave T ;;
            match e with
            | None => b <- replyError Slave ;; ret (b, pArr, finalSize)
            | Some el =>
                if index <? maxSize then
                  b <- reply Slave cmdSet ;; ret (b, store index el pArr, finalSize)
                else b <- replyError Slave ;; ret (b, pArr, finalSize)
            end
        end
      else if subCmd =? SUBCMD_ARRAY_FINISHED then
        f <- getValue Slave avr_size_t ;;
        match f with
        | Some finalSize' =>
            match afterSet with
            | Some fn =>
                ok <- test (call_task fn) ;;
                if negb ok then (b <- replyError Slave ;; ret (b, pArr, finalSize'))
                else (b <- reply Slave cmdSet ;; ret (b, pArr, finalSize'))
            | None => b <- reply Slave cmdSet ;; ret (b, pArr, finalSize')
            end
        | None => b <- replyError Slave ;; ret (b, pArr, finalSize)
        end
      else b <- replyError Slave ;; ret (b, pArr, finalSize)
  end.

(** The simple [processGetArray]. *)
Definition processGetArray (T : ctype) (cmdGet : Z) (pArr : list Z) (size : Z)
    (beforeGet : option (M bool)) : M bool :=
  sub <- getValue Slave prot_cmd_t ;;
  match sub with
  | None => replyError Slave
  | Some subCmd =>
      if subCmd =? SUBCMD_ARRAY_STARTING then
        match beforeGet with
        | Some fn =>
            ok <- test (call_task fn) ;;
            if negb ok then replyError Slave else reply Slave cmdGet
        | None => reply Slave cmdGet
        end
      else if subCmd =? SUBCMD_ARRAY_SIZE then
        test (reply Slave cmdGet &&> putValue Slave avr_size_t size)
      else if subCmd =? SUBCMD_ARRAY_ELEMENT then
        i <- getValue Slave prot_size_t ;;
        match i with
        | Some index =>
            if index <? size then
              let el := nth (Z.to_nat index) pArr 0 in
              test (reply Slave cmdGet &&> putValue Slave T el)
            else replyError Slave
        | None => replyError Slave
        end
      else replyError Slave
  end.

(** *** Strings in program memory (StreamHexProtocol.h) *)

(** The loop of [putString_P]: the number of bytes written so far. *)
Fixpoint putString_P_loop (str_P : list Z) (bytesWritten : Z) : M Z :=
  match str_P with
  | [] => ret bytesWritten
  | ch :: str_P' =>
      if ch =? 0 then ret bytesWritten
      else
        ok <- writeByte Slave ch ;;
        if negb ok then ret bytesWritten
        else putString_P_loop str_P' (bytesWritten + 1)
  end.

Definition putString_P (str_P : list Z) : M bool :=
  let len := strlen str_P in
  bytesWritten <- putString_P_loop str_P 0 ;;
  ok <- writeByte Slave PROT_TERM_CHAR ;;
  let bytesWritten := if ok then bytesWritten + 1 else bytesWritten in
  ret (bytesWritten =? len + 1).

Definition processGetString_P (cmdGet : Z) (str_P : list Z) : M bool :=
  test (reply Slave cmdGet &&> putString_P str_P).

(** * Vocabulary of the statements *)

Definition is_lower_hex (c : Z) : bool :=
  ((48 <=? c) && (c <=? 57)) || ((97 <=? c) && (c <=? 102)).

(** The number a digit string denotes, continuing from [a]. *)
Fixpoint digits_value (ds : list Z) (a : Z) : Z :=
  match ds with
  | [] => a
  | c :: ds' =>
      digits_value ds' (a * 16 + match digit_value c with Some d => d | None => 0 end)
  end.

(** The bytes [putValue] hands to [writeBuffer]. *)
Definition payload (r : role) (T : ctype) (val : Z) : list Z :=
  cstr (print_value r T val) ++ [PROT_TERM_CHAR].

(** The effect of a write on a started session. *)
Definition sent (bs : list Z) (e : io_event) (s : session) : session :=
  mkSession (started_ s) (target_ s) (rx s) (tx s ++ bs) (log s ++ [e]).

(** The bytes a read-until-terminator call delivers, and the serial data
    it leaves behind. *)
Definition delivered (r : role) (size terminator : Z) (d : list Z)
  : list Z * list Z :=
  match r with
  | Slave => readBytesUntil terminator (Z.to_nat size) d
  | Host =>
      match GetSerialAnswer terminator d with
      | None => ([], [])
      | Some (answer, d') => (firstn (Z.to_nat size) answer, d')
      end
  end.

Definition received (r : role) (size terminator : Z) (s : session) : session :=
  let (bytes, d) := delivered r size terminator (rx s) in
  mkSession (started_ s) (target_ s) d (tx s) (log s ++ [EvRead bytes]).

(** What [getValue] makes of the bytes delivered to it. *)
Definition decode (T : ctype) (bytes : list Z) : option Z :=
  match bytes with
  | [] => None
  | _ => Some (scan_value T (cstr bytes))
  end.

(** A character that may occur in the text of a value. *)
Definition text_char (c : Z) : Prop := c <> 0 /\ c <> PROT_TERM_CHAR.

(** Whether the bytes of an answer pass [checkReply(cmd)]. *)
Definition reply_okb (cmd : Z) (answer : list Z) : bool :=
  match decode prot_cmd_t answer with
  | Some x => x =? cmd
  | None => false
  end.

(** A session after some more traffic: [tx] and [log] only grow. *)
Definition grows (s s' : session) : Prop :=
  (exists t, tx s' = tx s ++ t) /\ (exists l, log s' = log s ++ l).

Definition monotone {A} (m : M A) : Prop := forall s, grows s (snd (m s)).

(** The messages of an array-set, as bytes. *)
Definition size_query (r : role) (cmd : Z) : list Z :=
  [cmd] ++ payload r prot_cmd_t SUBCMD_ARRAY_SIZE.

Definition element_msg (r : role) (T : ctype) (cmd : Z) (pt : list Z) (k : nat)
  : list Z :=
  [cmd] ++ payload r prot_cmd_t SUBCMD_ARRAY_ELEMENT
        ++ payload r prot_size_t (Z.of_nat k)
        ++ payload r T (nth k pt 0).

Definition finished_msg (r : role) (cmd len : Z) : list Z :=
  [cmd] ++ payload r prot_cmd_t SUBCMD_ARRAY_FINISHED ++ payload r prot_size_t len.

(** The same exchanges as events, with the answers that were read. *)
Definition size_exchange (r : role) (cmd : Z) (a m : list Z) : list io_event :=
  [EvWriteByte cmd; EvWriteBuffer (payload r prot_cmd_t SUBCMD_ARRAY_SIZE);
   EvRead a; EvRead m].

Definition element_exchange (r : role) (T : ctype) (cmd : Z) (pt : list Z)
    (k : nat) (a : list Z) : list io_event :=
  [EvWriteByte cmd; EvWriteBuffer (payload r prot_cmd_t SUBCMD_ARRAY_ELEMENT);
   EvWriteBuffer (payload r prot_size_t (Z.of_nat k));
   EvWriteBuffer (payload r T (nth k pt 0));
   EvRead a].

Fixpoint element_exchanges (r : role) (T : ctype) (cmd : Z) (pt : list Z)
    (k : nat) (answers : list (list Z)) : list io_event :=
  match answers with
  | [] => []
  | a :: answers' =>
      element_exchange r T cmd pt k a ++ element_exchanges r T cmd pt (S k) answers'
  end.

Definition finished_exchange (r : role) (cmd len : Z) (a : list Z)
  : list io_event :=
  [EvWriteByte cmd; EvWriteBuffer (payload r prot_cmd_t SUBCMD_ARRAY_FINISHED);
   EvWriteBuffer (payload r prot_size_t len);
   EvRead a].

(** The sub-commands of a trace: each payload written right after a
    command byte. *)
Fixpoint subcommands (l : list io_event) : list (list Z) :=
  match l with
  | [] => []
  | EvWriteByte _ :: l' =>
      match l' with
      | EvWriteBuffer p :: _ => p :: subcommands l'
      | _ => subcommands l'
      end
  | _ :: l' => subcommands l'
  end.

(** The answers of the slave in the set of a four-element sequence under
    command [0x4d] with a remote maximum of 256, and in the get of a
    one-element array under command [0x47]. *)
Definition set_answers : list Z :=
  bytes_of_string "4d" ++ [PROT_TERM_CHAR] ++ bytes_of_string "100" ++ [PROT_TERM_CHAR]
  ++ bytes_of_string "4d" ++ [PROT_TERM_CHAR] ++ bytes_of_string "4d" ++ [PROT_TERM_CHAR]
  ++ bytes_of_string "4d" ++ [PROT_TERM_CHAR] ++ bytes_of_string "4d" ++ [PROT_TERM_CHAR]
  ++ bytes_of_string "4d" ++ [PROT_TERM_CHAR].

Definition get_answers : list Z :=
  bytes_of_string "47" ++ [PROT_TERM_CHAR]
  ++ bytes_of_string "47" ++ [PROT_TERM_CHAR] ++ bytes_of_string "1" ++ [PROT_TERM_CHAR]
  ++ bytes_of_string "47" ++ [PROT_TERM_CHAR] ++ bytes_of_string "2a" ++ [PROT_TERM_CHAR].

(** The answers of a slave whose array holds at most two elements. *)
Definition small_answers : list Z :=
  bytes_of_string "4d" ++ [PROT_TERM_CHAR] ++ bytes_of_string "2" ++ [PROT_TERM_CHAR].

(** A callback of the device that does not touch the session. *)
Definition quiet {A} (fn : M A) : Prop := forall s, snd (fn s) = s.

(** The text of a value on the wire: an optional minus sign and digits. *)
Definition sign_text (v : Z) : list Z := if v <? 0 then [char_of "-"] else [].

(** What [getValue] leaves in the stream after a payload [p] that is
    followed by its terminator and [rest]. *)
Definition left_over (r : role) (p rest : list Z) : list Z :=
  match r with
  | Host => rest
  | Slave =>
      if Z.of_nat (List.length p) <? PROT_HEX_BUFF_SIZE - 1 then rest
      else skipn (Z.to_nat (PROT_HEX_BUFF_SIZE - 1)) p ++ PROT_TERM_CHAR :: rest
  end.

(** The session after [getValue] has taken a payload and its
    terminator from the stream. *)
Definition taken (bytes rest : list Z) (s : session) : session :=
  mkSession (started_ s) (target_ s) rest (tx s) (log s ++ [EvRead bytes]).

(** The answer to a request is one payload: the command when the call
    returned true, the error code when it returned false. *)
Definition answered (r : role) (cmd : Z) (s : session) (ok : bool) (s' : session)
  : Prop :=
  tx s' = tx s ++ payload r prot_cmd_t (if ok then cmd else PROT_ERROR).

(** The sketch of the documentation (StreamHexProtocol.h): [loop()] of
    the Arduino calls [processCommand] on [getCommand()] when
    [hasCommand()], and [doProcessCommand] is a switch that handles
    the command [cmd] and answers every other one with
    [replyError()]. *)
Definition loop (doProcessCommand : Z -> M unit) : M unit :=
  has <- hasCommand Slave ;;
  if has then cmd <- getCommand Slave ;; processCommand cmd doProcessCommand
  else ret tt.

Definition doProcessCommand (cmd : Z) (process : M unit) : Z -> M unit :=
  fun c => if c =? cmd then process else _ <- replyError Slave ;; ret tt.

(** One turn of that [loop()], with what the handler returned and left
    in the variables of the device as its result; [idle] when no
    handler ran ([serve_is_loop]). *)
Definition serve {A} (cmd : Z) (process : M A) (idle : A) : M A :=
  has <- hasCommand Slave ;;
  if has then
    c <- getCommand Slave ;;
    fun s =>
      if target_ s then
        (if c =? cmd then process else _ <- replyError Slave ;; ret idle) s
      else (idle, s)
  else ret idle.

(** A handler answers once: what it writes is the one payload that
    agrees with the value [ok] of its result. *)
Definition answers_once {A} (r : role) (cmd : Z) (ok : A -> bool) (m : M A)
    (s : session) : Prop :=
  answered r cmd s (ok (fst (m s))) (snd (m s)).

(** The answer to a get request: the reply and the value, or the error
    code alone. *)
Definition get_answer (r : role) (T : ctype) (cmd : Z) (value : option Z)
  : list Z :=
  match value with
  | Some v => payload r prot_cmd_t cmd ++ payload r T v
  | None => payload r prot_cmd_t PROT_ERROR
  end.

(** *** Arrays, end to end *)

(** [n] turns of [loop()] on a device whose handler of [cmd] is the
    simple [processSetArray] on the array [pArr] and the variable
    [finalSize]; the result is what the turns leave in them. *)
Fixpoint serve_set_array (T : ctype) (cmd maxSize : Z) (afterSet : option (M bool))
    (n : nat) (pArr : list Z) (finalSize : Z) : M (list Z * Z) :=
  match n with
  | O => ret (pArr, finalSize)
  | S n' =>
      res <- serve cmd (processSetArray T cmd pArr maxSize finalSize afterSet)
               (false, pArr, finalSize) ;;
      let '(_, pArr', finalSize') := res in
      serve_set_array T cmd maxSize afterSet n' pArr' finalSize'
  end.

(** The same for the simple [processGetArray]. *)
Fixpoint serve_get_array (T : ctype) (cmd : Z) (pArr : list Z) (size : Z)
    (beforeGet : option (M bool)) (n : nat) : M unit :=
  match n with
  | O => ret tt
  | S n' =>
      _ <- serve cmd (processGetArray T cmd pArr size beforeGet) false ;;
      serve_get_array T cmd pArr size beforeGet n'
  end.

(** The requests of the host for the array [pt], and the replies of a
    device that accepts them. *)
Definition set_requests (T : ctype) (cmd : Z) (pt : list Z) : list Z :=
  size_query Host cmd
  ++ concat (map (element_msg Host T cmd pt) (seq 0 (List.length pt)))
  ++ finished_msg Host cmd (Z.of_nat (List.length pt)).

Definition set_replies (cmd maxSize : Z) (n : nat) : list Z :=
  payload Slave prot_cmd_t cmd ++ payload Slave avr_size_t maxSize
  ++ concat (repeat (payload Slave prot_cmd_t cmd) n)
  ++ payload Slave prot_cmd_t cmd.

(** The requests of the host for an array of [n] elements, and the
    replies of a device that holds [pArr]. *)
Definition get_element_request (cmd : Z) (k : nat) : list Z :=
  [cmd] ++ payload Host prot_cmd_t SUBCMD_ARRAY_ELEMENT
        ++ payload Host prot_size_t (Z.of_nat k).

Definition get_requests (cmd : Z) (n : nat) : list Z :=
  ([cmd] ++ payload Host prot_cmd_t SUBCMD_ARRAY_STARTING)
  ++ size_query Host cmd
  ++ concat (map (get_element_request cmd) (seq 0 n)).

Definition get_element_reply (T : ctype) (cmd : Z) (pArr : list Z) (k : nat)
  : list Z :=
  payload Slave prot_cmd_t cmd ++ payload Slave T (nth k pArr 0).

Definition get_replies (T : ctype) (cmd : Z) (pArr : list Z) : list Z :=
  payload Slave prot_cmd_t cmd
  ++ (payload Slave prot_cmd_t cmd
      ++ payload Slave avr_size_t (Z.of_nat (List.length pArr)))
  ++ concat (map (get_element_reply T cmd pArr) (seq 0 (List.length pArr))).

(** A run that leaves the session started, has written [out] and has
    [rest] still to read. *)
Definition moved (s s' : session) (out rest : list Z) : Prop :=
  started_ s' = true /\ target_ s' = target_ s
  /\ tx s' = tx s ++ out /\ rx s' = rest.

(** [dispatchSetArray] after its first chain: the loop over the
    elements and the finishing message. *)
Definition dispatchSetArray_rest (r : role) (T : ctype) (cmdSet : Z)
    (pt : list Z) (size : Z) : M bool :=
  ok <- dispatchSetArray_elements r T cmdSet pt (Z.to_nat size) 0 ;;
  if negb ok then ret false
  else
    ok <- test (putCommand r cmdSet &&> putValue r prot_cmd_t SUBCMD_ARRAY_FINISHED
                &&> putValue r prot_size_t size &&> checkReply r cmdSet) ;;
    if negb ok then ret false else ret true.

(** * Properties of the C library model *)

Module Hex.

Ltac bools :=
  repeat match goal with
  | H : _ && _ = true |- _ => apply andb_true_iff in H; destruct H
  | H : _ || _ = true |- _ => apply orb_true_iff in H; destruct H
  | H : (_ <=? _) = true |- _ => apply Z.leb_le in H
  | H : (_ <? _) = true |- _ => apply Z.ltb_lt in H
  | H : (_ =? _) = true |- _ => apply Z.eqb_eq in H
  | H : (_ <=? _) = false |- _ => apply Z.leb_gt in H
  | H : (_ <? _) = false |- _ => apply Z.ltb_ge in H
  | H : (_ =? _) = false |- _ => apply Z.eqb_neq in H
  end.

Lemma is_lower_hex_range c :
  is_lower_hex c = true <-> (48 <= c <= 57 \/ 97 <= c <= 102).
Proof.
  unfold is_lower_hex.
  rewrite orb_true_iff, !andb_true_iff, !Z.leb_le. tauto.
Qed.

Lemma digit_char_spec d :
  0 <= d < 16 ->
  is_lower_hex (digit_char d) = true /\ digit_value (digit_char d) = Some d.
Proof.
  intros Hd. unfold digit_char.
  change (char_of "0") with 48. change (char_of "a") with 97.
  destruct (d <? 10) eqn:E; bools.
  - split.
    + apply is_lower_hex_range. lia.
    + unfold digit_value.
      replace ((48 <=? 48 + d) && (48 + d <=? 57)) with true
        by (symmetry; apply andb_true_iff; split; apply Z.leb_le; lia).
      f_equal. lia.
  - split.
    + apply is_lower_hex_range. lia.
    + unfold digit_value.
      replace ((48 <=? 97 + (d - 10)) && (97 + (d - 10) <=? 57)) with false
        by (symmetry; apply andb_false_iff; right; apply Z.leb_gt; lia).
      replace ((97 <=? 97 + (d - 10)) && (97 + (d - 10) <=? 122)) with true
        by (symmetry; apply andb_true_iff; split; apply Z.leb_le; lia).
      f_equal. lia.
Qed.

Lemma lower_hex_digit_value c :
  is_lower_hex c = true -> exists d, digit_value c = Some d /\ 0 <= d < 16.
Proof.
  intros H. apply is_lower_hex_range in H. unfold digit_value.
  destruct H as [H | H].
  - replace ((48 <=? c) && (c <=? 57)) with true
      by (symmetry; apply andb_true_iff; split; apply Z.leb_le; lia).
    exists (c - 48). split; [reflexivity | lia].
  - replace ((48 <=? c) && (c <=? 57)) with false
      by (symmetry; apply andb_false_iff; right; apply Z.leb_gt; lia).
    replace ((97 <=? c) && (c <=? 122)) with true
      by (symmetry; apply andb_true_iff; split; apply Z.leb_le; lia).
    exists (c - 97 + 10). split; [reflexivity | lia].
Qed.

Lemma digits_value_app ds1 ds2 a :
  digits_value (ds1 ++ ds2) a = digits_value ds2 (digits_value ds1 a).
Proof.
  revert a. induction ds1 as [| c ds1 IH]; intros a; simpl; auto.
Qed.

Lemma digits_value_ge ds a :
  Forall (fun c => is_lower_hex c = true) ds -> 0 <= a -> a <= digits_value ds a.
Proof.
  intros H. revert a. induction H as [| c ds Hc _ IH]; intros a Ha; simpl.
  - lia.
  - destruct (lower_hex_digit_value c Hc) as [d [-> Hd]].
    specialize (IH (a * 16 + d)). lia.
Qed.

(** What [ultoa_loop] puts in front of the accumulator. *)
Lemma ultoa_loop_spec (k : nat) :
  forall (n : nat) (v : Z) (acc : list Z),
    (0 < k <= n)%nat -> 0 <= v < 16 ^ Z.of_nat k ->
    exists ds,
      ultoa_loop n v 16 acc = ds ++ acc
      /\ ds <> []
      /\ (List.length ds <= k)%nat
      /\ Forall (fun c => is_lower_hex c = true) ds
      /\ forall a, digits_value ds a = a * 16 ^ Z.of_nat (List.length ds) + v.
Proof.
  induction k as [| k IH]; intros n v acc Hk Hv; [lia |].
  destruct n as [| n]; [lia |]. simpl ultoa_loop.
  assert (Hm : 0 <= v mod 16 < 16) by (apply Z.mod_pos_bound; lia).
  destruct (digit_char_spec _ Hm) as [Hlow Hval].
  destruct (v / 16 =? 0) eqn:E; bools.
  - exists [digit_char (v mod 16)]. simpl.
    repeat split; try lia; try discriminate.
    + constructor; auto.
    + intros a. rewrite Hval.
      assert (v = v mod 16) by (rewrite (Z.div_mod v 16) at 1; lia). lia.
  - assert (Hk' : (0 < k)%nat).
    { destruct k; [| lia]. simpl in Hv.
      exfalso. apply E. apply Z.div_small. lia. }
    assert (Hv' : 0 <= v / 16 < 16 ^ Z.of_nat k).
    { split; [apply Z.div_pos; lia |].
      apply Z.div_lt_upper_bound; [lia |].
      replace (16 * 16 ^ Z.of_nat k) with (16 ^ Z.of_nat (S k)); [lia |].
      rewrite Nat2Z.inj_succ, Z.pow_succ_r; lia. }
    destruct (IH n (v / 16) (digit_char (v mod 16) :: acc)) as
      [ds [Heq [Hne [Hlen [Hall Hdv]]]]]; [lia | exact Hv' |].
    exists (ds ++ [digit_char (v mod 16)]).
    rewrite Heq, <- app_assoc. simpl.
    repeat split.
    + destruct ds; discriminate.
    + rewrite length_app. simpl. lia.
    + apply Forall_app. split; auto.
    + intros a. rewrite digits_value_app, Hdv. simpl. rewrite Hval.
      rewrite length_app. simpl.
      replace (Z.of_nat (List.length ds + 1)) with (Z.succ (Z.of_nat (List.length ds))) by lia.
      rewrite Z.pow_succ_r by lia.
      rewrite (Z.div_mod v 16) at 3 by lia. ring.
Qed.

Lemma strtoul_loop_digits ds :
  forall rest a ovf,
    Forall (fun c => is_lower_hex c = true) ds ->
    0 <= a -> digits_value ds a <= ULONG_MAX ->
    strtoul_loop 16 (ds ++ rest) a ovf = strtoul_loop 16 rest (digits_value ds a) ovf.
Proof.
  induction ds as [| c ds IH]; intros rest a ovf Hall Ha Hmax; simpl; auto.
  inversion Hall as [| ? ? Hc Hds]; subst.
  destruct (lower_hex_digit_value c Hc) as [d [Hd Hr]].
  simpl in Hmax. rewrite Hd in *.
  replace (d <? 16) with true by (symmetry; apply Z.ltb_lt; lia).
  assert (a * 16 + d <= digits_value ds (a * 16 + d))
    by (apply digits_value_ge; auto; lia).
  replace (ULONG_MAX <? a * 16 + d) with false
    by (symmetry; apply Z.ltb_ge; lia).
  apply IH; auto; lia.
Qed.

Lemma strtoul_digits ds :
  Forall (fun c => is_lower_hex c = true) ds -> ds <> [] ->
  digits_value ds 0 <= ULONG_MAX ->
  strtoul ds 16 = digits_value ds 0.
Proof.
  intros Hall Hne Hmax.
  destruct ds as [| c ds]; [congruence |]. clear Hne.
  inversion Hall as [| ? ? Hc Hds]; subst.
  pose proof Hc as Hc'. apply is_lower_hex_range in Hc'.
  unfold strtoul. simpl skip_space.
  change (char_of "-") with 45. change (char_of "+") with 43.
  change (char_of "0") with 48.
  change (char_of "x") with 120. change (char_of "X") with 88.
  replace (isspace c) with false.
  2:{ symmetry. unfold isspace. apply orb_false_iff. split.
      - apply Z.eqb_neq. lia.
      - apply andb_false_iff.
        destruct (9 <=? c) eqn:E; [right; apply Z.leb_gt; lia | left; reflexivity]. }
  replace (c =? 45) with false by (symmetry; apply Z.eqb_neq; lia).
  replace (c =? 43) with false by (symmetry; apply Z.eqb_neq; lia).
  simpl (16 =? 16).
  assert (Hs3 : match c :: ds with
                | z :: x :: t =>
                    if (z =? 48) && ((x =? 120) || (x =? 88))
                    then t else c :: ds
                | _ => c :: ds
                end = c :: ds).
  { destruct ds as [| x t]; [reflexivity |].
    inversion Hds as [| ? ? Hx _]; subst. apply is_lower_hex_range in Hx.
    replace ((x =? 120) || (x =? 88)) with false.
    - rewrite andb_false_r. reflexivity.
    - symmetry. apply orb_false_iff.
      split; apply Z.eqb_neq; lia. }
  cbv zeta. rewrite Hs3.
  rewrite <- (app_nil_r (c :: ds)) at 1.
  rewrite strtoul_loop_digits by (auto; lia).
  reflexivity.
Qed.

(** [ultoa] prints between one and eight lower-case digits, and
    [strtoul] reads them back. *)
Lemma ultoa_spec v :
  0 <= v < 2 ^ 32 ->
  let ds := ultoa v 16 in
  Forall (fun c => is_lower_hex c = true) ds
  /\ (1 <= List.length ds <= 8)%nat
  /\ strtoul ds 16 = v.
Proof.
  intros Hv ds. subst ds. unfold ultoa.
  rewrite Z.mod_small by exact Hv.
  destruct (ultoa_loop_spec 8 32 v []) as [ds [Heq [Hne [Hlen [Hall Hdv]]]]];
    [lia | simpl; lia |].
  rewrite app_nil_r in Heq. rewrite Heq.
  split; [exact Hall |]. split.
  - destruct ds; [congruence | simpl; simpl in Hlen; lia].
  - assert (Hz : digits_value ds 0 = v) by (rewrite Hdv; ring).
    rewrite strtoul_digits; auto.
    rewrite Hz. unfold ULONG_MAX. lia.
Qed.

End Hex.

(** * The transport and the codec, step by step *)

Module Wire.
Import Hex.

(** Unfolding of the monad: one step of sequencing. *)
Ltac mstep := cbv beta iota delta [bind ret test and_then negb].

Lemma cstr_app_nul l rest : cstr (l ++ 0 :: rest) = cstr l.
Proof.
  induction l as [| c l IH]; simpl; [reflexivity |].
  destruct (c =? 0); [reflexivity | now rewrite IH].
Qed.

Lemma cstr_nonzero l : Forall (fun c => c <> 0) l -> cstr l = l.
Proof.
  induction 1 as [| c l Hc _ IH]; simpl; [reflexivity |].
  destruct (c =? 0) eqn:E; bools; [contradiction | now rewrite IH].
Qed.

Lemma store_nat_app bytes c x buf :
  store_nat (List.length bytes) c (bytes ++ x :: buf) = bytes ++ c :: buf.
Proof.
  induction bytes as [| b bytes IH]; simpl; [reflexivity | now rewrite IH].
Qed.

(** Storing a NUL after bytes copied to the front of a larger buffer. *)
Lemma store_copy_in bytes buf :
  (List.length bytes < List.length buf)%nat ->
  exists rest,
    store (Z.of_nat (List.length bytes)) 0 (copy_in bytes buf) = bytes ++ 0 :: rest.
Proof.
  intros Hlen. unfold store, copy_in.
  replace (Z.of_nat (List.length bytes) <? 0) with false
    by (symmetry; apply Z.ltb_ge; lia).
  rewrite Nat2Z.id.
  destruct (skipn (List.length bytes) buf) as [| x rest] eqn:E.
  - apply (f_equal (@List.length Z)) in E. rewrite length_skipn in E.
    simpl in E. lia.
  - exists rest. apply store_nat_app.
Qed.

Lemma store_twice bytes rest :
  store (Z.of_nat (List.length bytes)) 0 (bytes ++ 0 :: rest) = bytes ++ 0 :: rest.
Proof.
  unfold store.
  replace (Z.of_nat (List.length bytes) <? 0) with false
    by (symmetry; apply Z.ltb_ge; lia).
  rewrite Nat2Z.id. apply store_nat_app.
Qed.

Lemma readBytesUntil_length term n d :
  (List.length (fst (readBytesUntil term n d)) <= n)%nat.
Proof.
  revert d. induction n as [| n IH]; intros d; simpl; [lia |].
  destruct d as [| c d]; simpl; [lia |].
  destruct (c =? term); simpl; [lia |].
  specialize (IH d). destruct (readBytesUntil term n d). simpl in *. lia.
Qed.

Lemma delivered_length r size term d :
  0 <= size -> Z.of_nat (List.length (fst (delivered r size term d))) <= size.
Proof.
  intros Hs. destruct r; simpl.
  - pose proof (readBytesUntil_length term (Z.to_nat size) d). lia.
  - destruct (GetSerialAnswer term d) as [[answer d'] |]; simpl; [| lia].
    rewrite length_firstn. lia.
Qed.

(** *** The session after a read *)

Lemma received_started r size term s :
  started_ (received r size term s) = started_ s.
Proof. unfold received. now destruct (delivered r size term (rx s)). Qed.

Lemma received_tx r size term s : tx (received r size term s) = tx s.
Proof. unfold received. now destruct (delivered r size term (rx s)). Qed.

Lemma received_log r size term s :
  log (received r size term s)
  = log s ++ [EvRead (fst (delivered r size term (rx s)))].
Proof. unfold received. now destruct (delivered r size term (rx s)). Qed.

(** *** Writes *)

Lemma writeByte_started r b s :
  started_ s = true -> writeByte r b s = (true, sent [b] (EvWriteByte b) s).
Proof.
  intros H. unfold writeByte, bind, hasStarted. rewrite H. reflexivity.
Qed.

Lemma writeByte_stopped r b s :
  started_ s = false -> writeByte r b s = (false, s).
Proof.
  intros H. unfold writeByte, bind, hasStarted. rewrite H. reflexivity.
Qed.

Lemma writeBuffer_started r buf s :
  started_ s = true ->
  writeBuffer r buf s = (Z.of_nat (List.length buf), sent buf (EvWriteBuffer buf) s).
Proof.
  intros H. unfold writeBuffer, bind, hasStarted. rewrite H. reflexivity.
Qed.

Lemma writeBuffer_stopped r buf s :
  started_ s = false -> writeBuffer r buf s = (0, s).
Proof.
  intros H. unfold writeBuffer, bind, hasStarted. rewrite H. reflexivity.
Qed.

Lemma putValue_started r T v s :
  started_ s = true ->
  putValue r T v s = (true, sent (payload r T v) (EvWriteBuffer (payload r T v)) s).
Proof.
  intros H. unfold putValue, bind. fold (payload r T v).
  rewrite writeBuffer_started by exact H.
  unfold ret, payload, strlen. f_equal.
  apply Z.eqb_eq. rewrite length_app. simpl. lia.
Qed.

Lemma putValue_stopped r T v s :
  started_ s = false -> putValue r T v s = (false, s).
Proof.
  intros H. unfold putValue, bind.
  rewrite writeBuffer_stopped by exact H.
  unfold ret, strlen. f_equal. apply Z.eqb_neq. lia.
Qed.

Lemma putCommand_started r cmd s :
  started_ s = true ->
  putCommand r cmd s =
  (true, sent [static_cast prot_byte_t cmd] (EvWriteByte (static_cast prot_byte_t cmd)) s).
Proof. intros H. unfold putCommand. now apply writeByte_started. Qed.

Lemma putCommand_stopped r cmd s :
  started_ s = false -> putCommand r cmd s = (false, s).
Proof. intros H. unfold putCommand. now apply writeByte_stopped. Qed.

(** *** Reads *)

Lemma getValue_on_started readBuf0 r T s :
  started_ s = true ->
  List.length readBuf0 = Z.to_nat PROT_HEX_BUFF_SIZE ->
  getValueDelegate_on readBuf0 r T s =
  (decode T (fst (delivered r (PROT_HEX_BUFF_SIZE - 1) PROT_TERM_CHAR (rx s))),
   received r (PROT_HEX_BUFF_SIZE - 1) PROT_TERM_CHAR s).
Proof.
  intros Hst Hlen.
  pose proof (delivered_length r (PROT_HEX_BUFF_SIZE - 1) PROT_TERM_CHAR (rx s)) as Hd.
  unfold getValueDelegate_on, readBufferUntilTerminator, bind, hasStarted.
  rewrite Hst. cbv beta iota delta [negb].
  unfold received, delivered in *.
  change (Z.to_nat PROT_HEX_BUFF_SIZE) with 10%nat in Hlen.
  change (PROT_HEX_BUFF_SIZE - 1) with 9 in *.
  specialize (Hd ltac:(lia)).
  set (n := Z.to_nat 9) in *. clearbody n.
  destruct r.
  - destruct (readBytesUntil PROT_TERM_CHAR n (rx s)) as [buf d] eqn:E.
    cbn [fst] in Hd. unfold set_rx, ret. cbn [fst snd].
    destruct buf as [| b buf]; [reflexivity |].
    replace (Z.of_nat (List.length (b :: buf)) =? 0) with false
      by (symmetry; apply Z.eqb_neq; cbn [List.length]; lia).
    destruct (store_copy_in (b :: buf) readBuf0) as [rest Hrest];
      [cbn [List.length] in *; lia |].
    rewrite Hrest, cstr_app_nul. reflexivity.
  - destruct (GetSerialAnswer PROT_TERM_CHAR (rx s)) as [[answer d] |] eqn:E;
      [| reflexivity].
    cbn [fst] in Hd. unfold set_rx, ret. cbn [fst snd].
    destruct (firstn n answer) as [| b buf] eqn:Ef; [reflexivity |].
    replace (Z.of_nat (List.length (b :: buf)) =? 0) with false
      by (symmetry; apply Z.eqb_neq; cbn [List.length]; lia).
    destruct (store_copy_in (b :: buf) readBuf0) as [rest Hrest];
      [cbn [List.length] in *; lia |].
    destruct (Z.of_nat (List.length (b :: buf)) <? 9).
    + rewrite Hrest, store_twice, cstr_app_nul. reflexivity.
    + rewrite Hrest, cstr_app_nul. reflexivity.
Qed.

Lemma getValue_on_stopped readBuf0 r T s :
  started_ s = false -> getValueDelegate_on readBuf0 r T s = (None, s).
Proof.
  intros H. unfold getValueDelegate_on, readBufferUntilTerminator, bind, hasStarted.
  rewrite H. reflexivity.
Qed.

(** The uninitialised stack buffer of [getValueDelegate::call] has no
    influence on the result. *)
Lemma getValue_stack_independent readBuf0 r T s :
  List.length readBuf0 = Z.to_nat PROT_HEX_BUFF_SIZE ->
  getValueDelegate_on readBuf0 r T s = getValue r T s.
Proof.
  intros Hlen. unfold getValue.
  destruct (started_ s) eqn:Hst.
  - rewrite !getValue_on_started; auto.
  - rewrite !getValue_on_stopped; auto.
Qed.

Lemma getValue_started r T s :
  started_ s = true ->
  getValue r T s =
  (decode T (fst (delivered r (PROT_HEX_BUFF_SIZE - 1) PROT_TERM_CHAR (rx s))),
   received r (PROT_HEX_BUFF_SIZE - 1) PROT_TERM_CHAR s).
Proof. intros H. unfold getValue. now apply getValue_on_started. Qed.

Lemma getValue_stopped r T s :
  started_ s = false -> getValue r T s = (None, s).
Proof. intros H. unfold getValue. now apply getValue_on_stopped. Qed.

End Wire.

(** * The value codec *)

Module Codec.
Import Hex Wire.

Lemma lower_hex_text_char c : is_lower_hex c = true -> text_char c.
Proof.
  intros H. apply is_lower_hex_range in H.
  unfold text_char, PROT_TERM_CHAR, ASCII_EOT. lia.
Qed.

Lemma readBytesUntil_text term p :
  forall n rest,
    Forall (fun c => c <> term) p -> (List.length p <= n)%nat ->
    fst (readBytesUntil term n (p ++ term :: rest)) = p.
Proof.
  induction p as [| c p IH]; intros n rest Hp Hn.
  - destruct n; simpl; [reflexivity |]. now rewrite Z.eqb_refl.
  - destruct n as [| n]; [simpl in Hn; lia |].
    inversion Hp as [| ? ? Hc Hp']; subst. simpl.
    replace (c =? term) with false by (symmetry; now apply Z.eqb_neq).
    specialize (IH n rest Hp' ltac:(simpl in Hn; lia)).
    destruct (readBytesUntil term n (p ++ term :: rest)). simpl in *. now subst.
Qed.

Lemma GetSerialAnswer_text term p rest :
  Forall (fun c => c <> term) p ->
  GetSerialAnswer term (p ++ term :: rest) = Some (p, rest).
Proof.
  induction 1 as [| c p Hc _ IH]; simpl.
  - now rewrite Z.eqb_refl.
  - replace (c =? term) with false by (symmetry; now apply Z.eqb_neq).
    now rewrite IH.
Qed.

(** A terminated text of at most [size] bytes is delivered as it is. *)
Lemma delivered_text r size term p rest :
  Forall (fun c => c <> term) p -> Z.of_nat (List.length p) <= size ->
  fst (delivered r size term (p ++ term :: rest)) = p.
Proof.
  intros Hp Hn. destruct r; simpl.
  - apply readBytesUntil_text; [exact Hp | lia].
  - rewrite GetSerialAnswer_text by exact Hp. simpl.
    apply firstn_all2. lia.
Qed.

(** *** Conversions *)

Ltac casts :=
  unfold static_cast, in_range, prot_long_t, prot_ulong_t in *;
  cbn [bits IS_SIGNED] in *;
  change (2 ^ 32) with 4294967296 in *;
  change (2 ^ 16) with 65536 in *;
  change (2 ^ 8) with 256 in *;
  change (2 ^ (32 - 1)) with 2147483648 in *;
  change (2 ^ (16 - 1)) with 32768 in *;
  change (2 ^ (8 - 1)) with 128 in *;
  change (4294967296 / 2) with 2147483648 in *;
  change (65536 / 2) with 32768 in *;
  change (256 / 2) with 128 in *.

Lemma static_cast_in_range T v : in_range T v -> static_cast T v = v.
Proof.
  intros H. destruct T; casts;
    try (rewrite Z.mod_small by lia; reflexivity);
    destruct (v mod _ <? _) eqn:E; bools;
    Z.div_mod_to_equations; lia.
Qed.

Lemma in_range_long T v :
  in_range T v ->
  if IS_SIGNED T then in_range prot_long_t v else in_range prot_ulong_t v.
Proof. intros H. destruct T; casts; lia. Qed.

(** The magnitude that is printed after the sign, and what the reader
    makes of it. *)
Lemma magnitude_cast v :
  - 2147483648 <= v < 0 ->
  static_cast prot_ulong_t (static_cast prot_long_t (- v)) = - v.
Proof.
  intros H. casts.
  destruct ((- v) mod 4294967296 <? 2147483648) eqn:E; bools;
    Z.div_mod_to_equations; lia.
Qed.

Lemma negate_cast v :
  - 2147483648 <= v < 0 ->
  static_cast prot_long_t (- static_cast prot_long_t (- v)) = v.
Proof.
  intros H. casts.
  destruct ((- v) mod 4294967296 <? 2147483648) eqn:E; bools.
  - destruct ((- ((- v) mod 4294967296)) mod 4294967296 <? 2147483648) eqn:E2; bools;
      Z.div_mod_to_equations; lia.
  - destruct ((- ((- v) mod 4294967296 - 4294967296)) mod 4294967296 <? 2147483648) eqn:E2;
      bools; Z.div_mod_to_equations; lia.
Qed.

Lemma prot_ultohexstr_radix r v :
  prot_ultohexstr r v PROT_RADIX = ultoa v 16.
Proof. destruct r; reflexivity. Qed.

Lemma strchr_next_absent s c :
  Forall (fun x => x <> c) s -> strchr_next s c = None.
Proof.
  induction 1 as [| x s Hx _ IH]; simpl; [reflexivity |].
  replace (x =? c) with false by (symmetry; now apply Z.eqb_neq). exact IH.
Qed.

Lemma lower_hex_cstr ds :
  Forall (fun c => is_lower_hex c = true) ds -> cstr ds = ds.
Proof.
  intros H. apply cstr_nonzero.
  eapply Forall_impl; [| exact H]. intros c Hc.
  now destruct (lower_hex_text_char c Hc).
Qed.

(** The text of a non-negative value: its digits. *)
Lemma print_value_digits r T v :
  in_range T v -> 0 <= v ->
  print_value r T v = ultoa v 16.
Proof.
  intros Hr Hv. pose proof (in_range_long T v Hr) as Hl.
  unfold print_value. rewrite !prot_ultohexstr_radix.
  destruct (IS_SIGNED T).
  - rewrite (static_cast_in_range prot_long_t v) by exact Hl.
    replace (v <? 0) with false by (symmetry; apply Z.ltb_ge; lia).
    rewrite static_cast_in_range; [reflexivity |]. casts. lia.
  - rewrite static_cast_in_range; [reflexivity | exact Hl].
Qed.

(** The text of a negative value: a minus sign and the digits of its
    magnitude. *)
Lemma print_value_negative r T v :
  in_range T v -> v < 0 ->
  IS_SIGNED T = true /\ print_value r T v = char_of "-" :: ultoa (- v) 16.
Proof.
  intros Hr Hv. pose proof (in_range_long T v Hr) as Hl.
  unfold print_value. rewrite !prot_ultohexstr_radix.
  destruct (IS_SIGNED T) eqn:Hs.
  - split; [reflexivity |].
    rewrite (static_cast_in_range prot_long_t v) by exact Hl.
    replace (v <? 0) with true by (symmetry; apply Z.ltb_lt; lia).
    rewrite magnitude_cast; [reflexivity |]. casts. lia.
  - exfalso. destruct T; try discriminate; casts; lia.
Qed.

(** Reading back the text that was printed. *)
Lemma scan_print r T v :
  in_range T v -> scan_value T (cstr (print_value r T v)) = v.
Proof.
  intros Hr. pose proof (in_range_long T v Hr) as Hl.
  destruct (Z.lt_ge_cases v 0) as [Hneg | Hpos].
  - destruct (print_value_negative r T v Hr Hneg) as [Hs ->].
    rewrite Hs in Hl.
    assert (Hm : 0 <= - v < 2 ^ 32) by (casts; lia).
    destruct (ultoa_spec (- v) Hm) as [Hall [Hlen Hval]].
    change (char_of "-") with 45.
    simpl cstr. rewrite lower_hex_cstr by exact Hall.
    unfold scan_value. rewrite Hs.
    change (char_of "-") with 45. simpl strchr_next.
    unfold PROT_RADIX. rewrite Hval.
    rewrite negate_cast by (casts; lia).
    now apply static_cast_in_range.
  - rewrite print_value_digits by assumption.
    assert (Hm : 0 <= v < 2 ^ 32) by (destruct T; casts; lia).
    destruct (ultoa_spec v Hm) as [Hall [Hlen Hval]].
    rewrite lower_hex_cstr by exact Hall.
    unfold scan_value, PROT_RADIX.
    assert (Hno : strchr_next (ultoa v 16) (char_of "-") = None).
    { apply strchr_next_absent. eapply Forall_impl; [| exact Hall].
      intros c Hc. apply is_lower_hex_range in Hc.
      change (char_of "-") with 45. lia. }
    rewrite Hno, Hval.
    rewrite (static_cast_in_range prot_ulong_t) by (casts; lia).
    rewrite static_cast_in_range by exact Hr.
    now destruct (IS_SIGNED T).
Qed.

(** The text of a value in range: one to nine characters, none of them
    NUL or the terminator. *)
Lemma print_value_text r T v :
  in_range T v ->
  Forall text_char (print_value r T v)
  /\ (1 <= List.length (print_value r T v) <= 9)%nat.
Proof.
  intros Hr. pose proof (in_range_long T v Hr) as Hl.
  destruct (Z.lt_ge_cases v 0) as [Hneg | Hpos].
  - destruct (print_value_negative r T v Hr Hneg) as [Hs ->].
    rewrite Hs in Hl.
    assert (Hm : 0 <= - v < 2 ^ 32) by (casts; lia).
    destruct (ultoa_spec (- v) Hm) as [Hall [Hlen Hval]].
    split.
    + constructor.
      * change (char_of "-") with 45.
        unfold text_char, PROT_TERM_CHAR, ASCII_EOT. lia.
      * eapply Forall_impl; [| exact Hall]. apply lower_hex_text_char.
    + simpl. lia.
  - rewrite print_value_digits by assumption.
    assert (Hm : 0 <= v < 2 ^ 32) by (destruct T; casts; lia).
    destruct (ultoa_spec v Hm) as [Hall [Hlen Hval]].
    split.
    + eapply Forall_impl; [| exact Hall]. apply lower_hex_text_char.
    + lia.
Qed.

Lemma text_cstr text : Forall text_char text -> cstr text = text.
Proof.
  intros H. apply cstr_nonzero.
  eapply Forall_impl; [| exact H]. now intros c [Hc _].
Qed.

(** decode after encode, on the bytes *)
Lemma decode_payload r r' T v rest :
  in_range T v ->
  decode T (fst (delivered r' (PROT_HEX_BUFF_SIZE - 1) PROT_TERM_CHAR
                   (payload r T v ++ rest))) = Some v.
Proof.
  intros Hr.
  destruct (print_value_text r T v Hr) as [Htext Hlen].
  unfold payload. rewrite text_cstr by exact Htext.
  rewrite <- app_assoc. simpl app.
  rewrite delivered_text.
  - unfold decode. destruct (print_value r T v) eqn:E; [simpl in Hlen; lia |].
    rewrite <- E. f_equal. now apply scan_print.
  - eapply Forall_impl; [| exact Htext]. now intros c [_ Hc].
  - change (PROT_HEX_BUFF_SIZE - 1) with 9. lia.
Qed.

Lemma getValue_payload r r' T v rest s :
  started_ s = true -> in_range T v ->
  rx s = payload r T v ++ rest ->
  fst (getValue r' T s) = Some v.
Proof.
  intros Hst Hr Hrx. rewrite getValue_started by exact Hst.
  rewrite Hrx. simpl fst. now apply decode_payload.
Qed.

End Codec.

(** * The exchanges of the header's examples, byte for byte *)

Module Scenarios.

(** Setting the 16-bit value 31 under command [0x4d]. *)
Example set_value_31 :
  dispatchSet Host U16 0x4d 31
    (mkSession true true (bytes_of_string "4d" ++ [PROT_TERM_CHAR]) [] [])
  = (true,
     mkSession true true []
       ([0x4d] ++ bytes_of_string "1f" ++ [PROT_TERM_CHAR])
       [EvWriteByte 0x4d;
        EvWriteBuffer (bytes_of_string "1f" ++ [PROT_TERM_CHAR]);
        EvRead (bytes_of_string "4d")]).
Proof. vm_compute. reflexivity. Qed.

(** Getting it back under command [0x4f]: the slave answers with the
    echo and the value, and the host reads 31. *)
Example get_value_31 :
  tx (snd (processGet_fn Slave U16 0x4f (ret (Some 31))
             (mkSession true true [] [] [])))
  = bytes_of_string "4f" ++ [PROT_TERM_CHAR] ++ bytes_of_string "1f" ++ [PROT_TERM_CHAR]
  /\ fst (dispatchGet Host U16 0x4f
            (mkSession true true
               (bytes_of_string "4f" ++ [PROT_TERM_CHAR]
                ++ bytes_of_string "1f" ++ [PROT_TERM_CHAR]) [] []))
     = Some 31.
Proof. split; vm_compute; reflexivity. Qed.

(** The float 1.0, bits [0x3f800000]. *)
Example put_float_one :
  tx (snd (putValue_float Host (float_of_bits 0x3f800000)
             (mkSession true true [] [] [])))
  = bytes_of_string "3f800000" ++ [PROT_TERM_CHAR].
Proof. vm_compute. reflexivity. Qed.

(** A text of nine characters reaches the limit of the slave's
    [readBytesUntil] before its terminator is seen: the value is read,
    the terminator stays in the stream. *)
Remark nine_characters_leave_terminator :
  getValue Slave prot_long_t
    (mkSession true true (bytes_of_string "-80000000" ++ [PROT_TERM_CHAR]) [] [])
  = (Some (- 0x80000000),
     mkSession true true [PROT_TERM_CHAR] []
       [EvRead (bytes_of_string "-80000000")]).
Proof. vm_compute. reflexivity. Qed.

End Scenarios.

(** * The value codec on the wire *)

Module CodecClaims.
Import Hex Wire Codec.

(** C4: for every 32-bit unsigned [u], [putValue] writes a payload made
    of lower-case hexadecimal digits only (at least one, and so no
    leading minus sign) followed by the terminator, and [getValue] into
    the same type reads [u] back from it. *)
Theorem unsigned_codec_roundtrip :
  forall (r r' : role) (u : Z) (s s' : session) (rest : list Z),
    0 <= u < 2 ^ 32 ->
    started_ s = true -> started_ s' = true ->
    exists digits,
      fst (putValue r prot_ulong_t u s) = true
      /\ tx (snd (putValue r prot_ulong_t u s)) = tx s ++ digits ++ [PROT_TERM_CHAR]
      /\ digits <> []
      /\ Forall (fun c => is_lower_hex c = true) digits
      /\ ~ In (char_of "-") digits
      /\ (rx s' = digits ++ [PROT_TERM_CHAR] ++ rest ->
          fst (getValue r' prot_ulong_t s') = Some u).
Proof.
  intros r r' u s s' rest Hu Hs Hs'.
  assert (Hr : in_range prot_ulong_t u) by exact Hu.
  destruct (ultoa_spec u Hu) as [Hall [Hlen _]].
  exists (ultoa u 16).
  rewrite putValue_started by exact Hs.
  assert (Hp : payload r prot_ulong_t u = ultoa u 16 ++ [PROT_TERM_CHAR]).
  { unfold payload. rewrite print_value_digits by (auto; lia).
    now rewrite lower_hex_cstr. }
  rewrite Hp. simpl fst. simpl snd. unfold sent. simpl tx.
  repeat split.
  - destruct (ultoa u 16); [simpl in Hlen; lia | discriminate].
  - exact Hall.
  - intros Hin. rewrite Forall_forall in Hall. apply Hall in Hin.
    discriminate Hin.
  - intros Hrx. apply (getValue_payload r r' prot_ulong_t u rest); auto.
    rewrite Hp, <- app_assoc. exact Hrx.
Qed.

Lemma unsigned_codec_roundtrip_witness :
  exists digits,
    fst (putValue Host prot_ulong_t 0xffffffff (mkSession true true [] [] [])) = true
    /\ tx (snd (putValue Host prot_ulong_t 0xffffffff (mkSession true true [] [] [])))
       = [] ++ digits ++ [PROT_TERM_CHAR]
    /\ digits <> []
    /\ Forall (fun c => is_lower_hex c = true) digits
    /\ ~ In (char_of "-") digits
    /\ (bytes_of_string "ffffffff" ++ [PROT_TERM_CHAR]
        = digits ++ [PROT_TERM_CHAR] ++ [] ->
        fst (getValue Slave prot_ulong_t
               (mkSession true true (bytes_of_string "ffffffff" ++ [PROT_TERM_CHAR]) [] []))
        = Some 0xffffffff).
Proof.
  apply (unsigned_codec_roundtrip Host Slave 0xffffffff
           (mkSession true true [] [] [])
           (mkSession true true (bytes_of_string "ffffffff" ++ [PROT_TERM_CHAR]) [] [])
           []).
  - lia.
  - reflexivity.
  - reflexivity.
Defined.

(** C1: for every 32-bit signed [i], [putValue] followed by [getValue]
    into the same type yields [i]; the payload of the minimum,
    [-0x80000000], is [-80000000] followed by the terminator.  The
    negation of the minimum wraps around, as it does on the two
    targets. *)
Theorem signed_codec_roundtrip :
  forall (r r' : role) (i : Z) (s s' : session) (rest : list Z),
    - 2 ^ 31 <= i < 2 ^ 31 ->
    started_ s = true -> started_ s' = true ->
    fst (putValue r prot_long_t i s) = true
    /\ tx (snd (putValue r prot_long_t i s)) = tx s ++ payload r prot_long_t i
    /\ (rx s' = payload r prot_long_t i ++ rest ->
        fst (getValue r' prot_long_t s') = Some i)
    /\ payload r prot_long_t (- 0x80000000)
       = bytes_of_string "-80000000" ++ [PROT_TERM_CHAR].
Proof.
  intros r r' i s s' rest Hi Hs Hs'.
  rewrite putValue_started by exact Hs. simpl fst. simpl snd.
  repeat split.
  - intros Hrx. apply (getValue_payload r r' prot_long_t i rest); auto.
  - destruct r; vm_compute; reflexivity.
Qed.

Lemma signed_codec_roundtrip_witness :
  fst (putValue Host prot_long_t (- 0x80000000) (mkSession true true [] [] [])) = true
  /\ tx (snd (putValue Host prot_long_t (- 0x80000000) (mkSession true true [] [] [])))
     = [] ++ payload Host prot_long_t (- 0x80000000)
  /\ (payload Host prot_long_t (- 0x80000000) ++ []
      = payload Host prot_long_t (- 0x80000000) ++ [] ->
      fst (getValue Slave prot_long_t
             (mkSession true true (payload Host prot_long_t (- 0x80000000) ++ []) [] []))
      = Some (- 0x80000000))
  /\ payload Host prot_long_t (- 0x80000000)
     = bytes_of_string "-80000000" ++ [PROT_TERM_CHAR].
Proof.
  apply (signed_codec_roundtrip Host Slave (- 0x80000000)
           (mkSession true true [] [] [])
           (mkSession true true (payload Host prot_long_t (- 0x80000000) ++ []) [] [])
           []).
  - lia.
  - reflexivity.
  - reflexivity.
Defined.

(** C2, as stated: the payload of [-1] is not [-ffffffff]. *)
Lemma minus_one_is_not_twos_complement :
  tx (snd (putValue Host prot_long_t (-1) (mkSession true true [] [] [])))
  <> bytes_of_string "-ffffffff" ++ [PROT_TERM_CHAR].
Proof. vm_compute. discriminate. Qed.

(** C2, amended: the signed codec prints the sign and the magnitude, so
    setting the 32-bit signed value [-1] under command [0x53] sends the
    command byte and the payload [-1] followed by the terminator, and a
    get handler answers with the echo [53] and the same payload [-1],
    each followed by the terminator. *)
Theorem minus_one_exchange :
  forall (r : role) (s : session),
    started_ s = true -> target_ s = true ->
    tx (snd (putValue r prot_long_t (-1) s))
      = tx s ++ bytes_of_string "-1" ++ [PROT_TERM_CHAR]
    /\ tx (snd (dispatchSet r prot_long_t 0x53 (-1) s))
      = tx s ++ [0x53] ++ bytes_of_string "-1" ++ [PROT_TERM_CHAR]
    /\ tx (snd (processGet_fn r prot_long_t 0x53 (ret (Some (-1))) s))
      = tx s ++ bytes_of_string "53" ++ [PROT_TERM_CHAR]
             ++ bytes_of_string "-1" ++ [PROT_TERM_CHAR].
Proof.
  intros r s Hs Ht.
  assert (Hp : payload r prot_long_t (-1) = bytes_of_string "-1" ++ [PROT_TERM_CHAR])
    by (destruct r; reflexivity).
  assert (Hc : payload r prot_cmd_t 0x53 = bytes_of_string "53" ++ [PROT_TERM_CHAR])
    by (destruct r; reflexivity).
  repeat split.
  - rewrite putValue_started by exact Hs. simpl. now rewrite Hp.
  - unfold dispatchSet, test, and_then, bind.
    rewrite putCommand_started by exact Hs.
    rewrite putValue_started by exact Hs.
    rewrite Hp.
    destruct (checkReply r 83 _) as [b s1] eqn:E.
    assert (Htx : tx s1 = tx s ++ [0x53] ++ bytes_of_string "-1" ++ [PROT_TERM_CHAR]).
    { unfold checkReply, test, bind in E.
      rewrite getValue_started in E by exact Hs.
      unfold received in E.
      destruct (delivered r _ _ _) as [bytes d].
      destruct (decode prot_cmd_t (fst (bytes, d))); inversion E; subst;
        simpl; rewrite <- app_assoc; reflexivity. }
    destruct b; exact Htx.
  - unfold processGet_fn, call_target, bind. rewrite Ht. unfold ret at 1.
    unfold test, and_then, bind, reply.
    rewrite putValue_started by exact Hs.
    rewrite putValue_started by exact Hs.
    rewrite Hp, Hc. simpl. rewrite <- app_assoc. reflexivity.
Qed.

Lemma minus_one_exchange_witness :
  tx (snd (putValue Host prot_long_t (-1) (mkSession true true [] [] [])))
    = [] ++ bytes_of_string "-1" ++ [PROT_TERM_CHAR]
  /\ tx (snd (dispatchSet Host prot_long_t 0x53 (-1) (mkSession true true [] [] [])))
    = [] ++ [0x53] ++ bytes_of_string "-1" ++ [PROT_TERM_CHAR]
  /\ tx (snd (processGet_fn Host prot_long_t 0x53 (ret (Some (-1)))
                (mkSession true true [] [] [])))
    = [] ++ bytes_of_string "53" ++ [PROT_TERM_CHAR]
         ++ bytes_of_string "-1" ++ [PROT_TERM_CHAR].
Proof.
  apply (minus_one_exchange Host (mkSession true true [] [] [])); reflexivity.
Defined.

(** C5: for every 32-bit float [f] that is not a NaN, sending its raw
    bits through the unsigned codec and reading them back yields a float
    with the same bits. *)
Theorem float_codec_roundtrip :
  forall (r r' : role) (f : prot_float_t) (s s' : session) (rest : list Z),
    0 <= float_bits f < 2 ^ 32 -> float_isnan f = false ->
    started_ s = true -> started_ s' = true ->
    fst (putValue_float r f s) = true
    /\ tx (snd (putValue_float r f s)) = tx s ++ payload r prot_ulong_t (float_bits f)
    /\ (rx s' = payload r prot_ulong_t (float_bits f) ++ rest ->
        fst (getValue_float r' s') = Some f).
Proof.
  intros r r' [b] s s' rest Hb _ Hs Hs'. simpl in *.
  unfold putValue_float. simpl float_bits.
  rewrite putValue_started by exact Hs. simpl fst. simpl snd.
  repeat split.
  intros Hrx. unfold getValue_float, bind.
  pose proof (getValue_payload r r' prot_ulong_t b rest s' Hs' Hb Hrx) as Hg.
  destruct (getValue r' prot_ulong_t s') as [v s1]. simpl in Hg. subst v.
  reflexivity.
Qed.

Lemma float_codec_roundtrip_witness :
  fst (putValue_float Host (float_of_bits 0x3f800000) (mkSession true true [] [] [])) = true
  /\ tx (snd (putValue_float Host (float_of_bits 0x3f800000) (mkSession true true [] [] [])))
     = [] ++ payload Host prot_ulong_t 0x3f800000
  /\ (payload Host prot_ulong_t 0x3f800000 ++ []
      = payload Host prot_ulong_t 0x3f800000 ++ [] ->
      fst (getValue_float Slave
             (mkSession true true (payload Host prot_ulong_t 0x3f800000 ++ []) [] []))
      = Some (float_of_bits 0x3f800000)).
Proof.
  apply (float_codec_roundtrip Host Slave (float_of_bits 0x3f800000)
           (mkSession true true [] [] [])
           (mkSession true true (payload Host prot_ulong_t 0x3f800000 ++ []) [] [])
           []).
  - simpl. lia.
  - reflexivity.
  - reflexivity.
  - reflexivity.
Defined.

End CodecClaims.

(** * Strings, replies and commands *)

Module FrameClaims.
Import Hex Wire Codec.

(** C8, as stated: [putString] of the empty string writes the single
    terminator, but [getString] on that byte returns false. *)
Lemma empty_string_read_fails :
  tx (snd (putString Host [] (mkSession true true [] [] []))) = [PROT_TERM_CHAR]
  /\ fst (fst (getString Slave (repeat 0x20 16) 16
                 (mkSession true true [PROT_TERM_CHAR] [] []))) = false
  /\ fst (fst (getValue_string Slave []
                 (mkSession true true [PROT_TERM_CHAR] [] []))) = false.
Proof. vm_compute. repeat split; reflexivity. Qed.

(** C8, amended: [putString] applied to the empty string emits exactly
    one byte, the terminator; [getString] and [getValue] for a string
    return false on that byte (a read of zero bytes counts as a
    failure), and [getString] leaves the empty string in a buffer of at
    least two bytes. *)
Theorem empty_string_exchange :
  forall (r r' : role) (s s' : session) (str prev strbuf rest : list Z) (size : Z),
    started_ s = true -> started_ s' = true ->
    strlen str = 0 ->
    rx s' = [PROT_TERM_CHAR] ++ rest ->
    2 <= size < 2 ^ 16 -> strbuf <> [] ->
    fst (putString r str s) = true
    /\ tx (snd (putString r str s)) = tx s ++ [PROT_TERM_CHAR]
    /\ fst (fst (getValue_string r' prev s')) = false
    /\ fst (fst (getString r' strbuf size s')) = false
    /\ cstr (snd (fst (getString r' strbuf size s'))) = [].
Proof.
  intros r r' s s' str prev strbuf rest size Hs Hs' Hlen Hrx Hsize Hbuf.
  split; [| split; [| split]].
  - unfold putString, bind. rewrite Hlen. change (0 <? 0) with false.
    cbv beta iota delta [ret]. rewrite writeBuffer_started by exact Hs.
    reflexivity.
  - unfold putString, bind. rewrite Hlen. change (0 <? 0) with false.
    cbv beta iota delta [ret]. rewrite writeBuffer_started by exact Hs.
    reflexivity.
  - unfold getValue_string, readStringUntilTerminator, bind, hasStarted.
    rewrite Hs'. cbv beta iota delta [negb]. rewrite Hrx. simpl app.
    destruct r'.
    + simpl readStringUntil. reflexivity.
    + simpl GetSerialAnswer. reflexivity.
  - destruct strbuf as [| x strbuf]; [congruence |].
    unfold getString, readBufferUntilTerminator, bind, hasStarted.
    rewrite Hs'. cbv beta iota delta [negb]. rewrite Hrx. simpl app.
    assert (Hw : forall q, (0 <? size_t_wrap q (size - 1)) = true).
    { intros q. apply Z.ltb_lt. unfold size_t_wrap.
      rewrite Z.mod_small; [lia |].
      destruct q; simpl size_t_bits;
        [change (2 ^ 16) with 65536 in * | change (2 ^ 64) with 18446744073709551616];
        change (2 ^ 16) with 65536 in *; lia. }
    destruct r'.
    + destruct (Z.to_nat size) as [| n] eqn:En; [lia |].
      simpl readBytesUntil.
      unfold set_rx, ret. cbn [fst snd List.length Z.of_nat].
      rewrite Hw. unfold copy_in. simpl skipn. simpl app.
      split; reflexivity.
    + simpl GetSerialAnswer. cbv beta iota.
      rewrite !firstn_nil.
      unfold set_rx, ret. cbn [fst snd List.length Z.of_nat].
      rewrite Hw.
      replace (0 <? size) with true by (symmetry; apply Z.ltb_lt; lia).
      unfold copy_in. simpl skipn. simpl app.
      split; reflexivity.
Qed.

Lemma empty_string_exchange_witness :
  fst (putString Host [] (mkSession true true [] [] [])) = true
  /\ tx (snd (putString Host [] (mkSession true true [] [] []))) = [] ++ [PROT_TERM_CHAR]
  /\ fst (fst (getValue_string Slave (bytes_of_string "old")
                 (mkSession true true [PROT_TERM_CHAR] [] []))) = false
  /\ fst (fst (getString Slave (repeat 0x20 16) 16
                 (mkSession true true [PROT_TERM_CHAR] [] []))) = false
  /\ cstr (snd (fst (getString Slave (repeat 0x20 16) 16
                       (mkSession true true [PROT_TERM_CHAR] [] [])))) = [].
Proof.
  apply (empty_string_exchange Host Slave
           (mkSession true true [] [] [])
           (mkSession true true [PROT_TERM_CHAR] [] [])
           [] (bytes_of_string "old") (repeat 0x20 16) [] 16).
  - reflexivity.
  - reflexivity.
  - reflexivity.
  - reflexivity.
  - lia.
  - discriminate.
Defined.

(** C9, as stated: on a session that has not been started [replyError]
    writes nothing. *)
Lemma replyError_before_start :
  tx (snd (replyError Slave (mkSession false true [] [] []))) = []
  /\ tx (snd (replyError Slave (mkSession false true [] [] [])))
     <> bytes_of_string "15" ++ [PROT_TERM_CHAR].
Proof. vm_compute. split; [reflexivity | discriminate]. Qed.

(** C9, amended: [replyError] always returns false; on a started session
    it makes exactly one write, the error sentinel [0x15] in the command
    codec, that is the text [15] followed by one terminator; on a
    session that has not been started it writes nothing. *)
Theorem replyError_spec :
  forall (r : role) (s : session),
    fst (replyError r s) = false
    /\ (started_ s = true ->
        tx (snd (replyError r s)) = tx s ++ bytes_of_string "15" ++ [PROT_TERM_CHAR]
        /\ log (snd (replyError r s))
           = log s ++ [EvWriteBuffer (bytes_of_string "15" ++ [PROT_TERM_CHAR])])
    /\ (started_ s = false -> snd (replyError r s) = s).
Proof.
  intros r s. unfold replyError, bind.
  assert (Hp : payload r prot_cmd_t PROT_ERROR = bytes_of_string "15" ++ [PROT_TERM_CHAR])
    by (destruct r; reflexivity).
  destruct (started_ s) eqn:Hs.
  - rewrite putValue_started by exact Hs. rewrite Hp.
    repeat split; intros; discriminate.
  - rewrite putValue_stopped by exact Hs.
    repeat split; intros; discriminate.
Qed.

Lemma replyError_spec_witness :
  fst (replyError Slave (mkSession true true [] [] [])) = false
  /\ tx (snd (replyError Slave (mkSession true true [] [] [])))
     = bytes_of_string "15" ++ [PROT_TERM_CHAR]
  /\ snd (replyError Host (mkSession false false [] [] [])) = mkSession false false [] [] [].
Proof.
  destruct (replyError_spec Slave (mkSession true true [] [] [])) as [H1 [H2 _]].
  destruct (replyError_spec Host (mkSession false false [] [] [])) as [_ [_ H3]].
  split; [exact H1 |]. split.
  - exact (proj1 (H2 eq_refl)).
  - exact (H3 eq_refl).
Defined.

(** C10: when [readByte] fails (the session is not started, or no byte
    is there) [getCommand] returns [PROT_ERROR = 0x15], and it returns
    the same [0x15] when the byte [0x15] itself arrives: the result does
    not tell a failed read from that command byte. *)
Theorem getCommand_error_is_ambiguous :
  forall (r : role) (s : session),
    PROT_ERROR = 0x15
    /\ (started_ s = false \/ rx s = [] -> fst (readByte r s) = None)
    /\ (fst (readByte r s) = None -> fst (getCommand r s) = 0x15)
    /\ (forall d, started_ s = true -> rx s = 0x15 :: d ->
        fst (readByte Slave s) = Some 0x15 /\ fst (getCommand Slave s) = 0x15).
Proof.
  intros r s. split; [reflexivity |]. split; [| split].
  - intros [H | H]; destruct r; unfold readByte, bind, hasStarted, ret;
      try reflexivity.
    + now rewrite H.
    + destruct (started_ s); simpl; [now rewrite H | reflexivity].
  - intros H. unfold getCommand, bind.
    destruct (readByte r s) as [[b |] s1]; simpl in H; [discriminate | reflexivity].
  - intros d Hs Hrx.
    unfold getCommand, readByte, bind, hasStarted. rewrite Hs. simpl. rewrite Hrx.
    split; reflexivity.
Qed.

Lemma getCommand_error_is_ambiguous_witness :
  fst (getCommand Slave (mkSession true true [] [] [])) = 0x15
  /\ fst (getCommand Slave (mkSession false true [0x41] [] [])) = 0x15
  /\ fst (getCommand Slave (mkSession true true [0x15] [] [])) = 0x15.
Proof.
  destruct (getCommand_error_is_ambiguous Slave (mkSession true true [] [] []))
    as [_ [Ha [Hb _]]].
  destruct (getCommand_error_is_ambiguous Slave (mkSession false true [0x41] [] []))
    as [_ [Hc [Hd _]]].
  destruct (getCommand_error_is_ambiguous Slave (mkSession true true [0x15] [] []))
    as [_ [_ [_ He]]].
  split; [| split].
  - apply Hb, Ha. right. reflexivity.
  - apply Hd, Hc. left. reflexivity.
  - exact (proj2 (He [] eq_refl eq_refl)).
Defined.

(** *** Handlers and their replies *)

Lemma call_task_false s : call_task (ret false) s = (false, s).
Proof. unfold call_task, ret. now destruct (target_ s). Qed.

(** A handler whose task fails answers with the error sentinel alone:
    the simple [processSet] returns right after [replyError]. *)
Lemma processSet_failed_afterSet r T cmd s :
  started_ s = true ->
  log (snd (processSet r T cmd (Some (ret false)) s))
  = log s
    ++ [EvRead (fst (delivered r (PROT_HEX_BUFF_SIZE - 1) PROT_TERM_CHAR (rx s)));
        EvWriteBuffer (payload r prot_cmd_t PROT_ERROR)].
Proof.
  intros Hs. unfold processSet. mstep.
  rewrite getValue_started by exact Hs. mstep.
  assert (Hs1 : started_ (received r (PROT_HEX_BUFF_SIZE - 1) PROT_TERM_CHAR s) = true)
    by now rewrite received_started.
  destruct (decode T _); mstep; try (rewrite call_task_false; mstep);
    unfold replyError; mstep; rewrite putValue_started by exact Hs1; mstep;
    unfold sent; cbn [log]; rewrite received_log, <- app_assoc; reflexivity.
Qed.

(** The simple [processGet] does not return after [replyError]: a
    failed [beforeGet] is followed by the error sentinel, the echo and
    the value. *)
Lemma processGet_failed_beforeGet r T cmd val s :
  started_ s = true ->
  processGet r T cmd val (Some (ret false)) s
  = (true,
     mkSession (started_ s) (target_ s) (rx s)
       (tx s ++ payload r prot_cmd_t PROT_ERROR ++ payload r prot_cmd_t cmd
             ++ payload r T val)
       (log s ++ [EvWriteBuffer (payload r prot_cmd_t PROT_ERROR);
                  EvWriteBuffer (payload r prot_cmd_t cmd);
                  EvWriteBuffer (payload r T val)])).
Proof.
  intros Hs. unfold processGet. mstep.
  rewrite call_task_false. mstep.
  unfold replyError. mstep. rewrite putValue_started by exact Hs. mstep.
  unfold reply. rewrite putValue_started by exact Hs. mstep.
  rewrite putValue_started by exact Hs.
  unfold sent. cbn [started_ target_ rx tx log]. rewrite <- !app_assoc. reflexivity.
Qed.

(** C3, at the failing input: the simple [processGet] for command
    [0x4f] and value 31 with a [beforeGet] task that fails writes the
    error sentinel and then the echo of the command, two replies for
    one command, and reports success; [processGetString] does the
    same. *)
Theorem processGet_replies_twice :
  processGet Slave U16 0x4f 31 (Some (ret false)) (mkSession true true [] [] [])
  = (true,
     mkSession true true []
       (bytes_of_string "15" ++ [PROT_TERM_CHAR]
        ++ bytes_of_string "4f" ++ [PROT_TERM_CHAR]
        ++ bytes_of_string "1f" ++ [PROT_TERM_CHAR])
       [EvWriteBuffer (bytes_of_string "15" ++ [PROT_TERM_CHAR]);
        EvWriteBuffer (bytes_of_string "4f" ++ [PROT_TERM_CHAR]);
        EvWriteBuffer (bytes_of_string "1f" ++ [PROT_TERM_CHAR])])
  /\ tx (snd (processGetString Slave 0x4f (bytes_of_string "ok") (Some (ret false))
                (mkSession true true [] [] [])))
     = bytes_of_string "15" ++ [PROT_TERM_CHAR]
       ++ bytes_of_string "4f" ++ [PROT_TERM_CHAR]
       ++ bytes_of_string "ok" ++ [PROT_TERM_CHAR].
Proof. split; vm_compute; reflexivity. Qed.

End FrameClaims.

(** * Array exchanges of the initiator *)

Module Arrays.
Import Hex Wire Codec.

(** *** Traffic only grows *)

Lemma grows_refl s : grows s s.
Proof. split; exists []; now rewrite app_nil_r. Qed.

Lemma grows_trans s1 s2 s3 : grows s1 s2 -> grows s2 s3 -> grows s1 s3.
Proof.
  intros [[t1 Ht1] [l1 Hl1]] [[t2 Ht2] [l2 Hl2]]. split.
  - exists (t1 ++ t2). now rewrite Ht2, Ht1, app_assoc.
  - exists (l1 ++ l2). now rewrite Hl2, Hl1, app_assoc.
Qed.

Lemma grows_sent bs e s : grows s (sent bs e s).
Proof. split; [exists bs | exists [e]]; reflexivity. Qed.

Lemma grows_received r size term s : grows s (received r size term s).
Proof.
  unfold received. destruct (delivered r size term (rx s)) as [bytes d].
  split; [exists []; simpl; now rewrite app_nil_r | exists [EvRead bytes]; reflexivity].
Qed.

Lemma monotone_ret {A} (a : A) : monotone (ret a).
Proof. intros s. apply grows_refl. Qed.

Lemma monotone_bind {A B} (m : M A) (k : A -> M B) :
  monotone m -> (forall a, monotone (k a)) -> monotone (bind m k).
Proof.
  intros Hm Hk s. unfold bind. specialize (Hm s).
  destruct (m s) as [a s1]. simpl in Hm.
  eapply grows_trans; [exact Hm | apply Hk].
Qed.

Lemma monotone_and_then (a b : M bool) :
  monotone a -> monotone b -> monotone (a &&> b).
Proof.
  intros Ha Hb. unfold and_then. apply monotone_bind; [exact Ha |].
  intros [|]; [exact Hb | apply monotone_ret].
Qed.

Lemma monotone_putCommand r cmd : monotone (putCommand r cmd).
Proof.
  intros s. destruct (started_ s) eqn:Hs.
  - rewrite putCommand_started by exact Hs. apply grows_sent.
  - rewrite putCommand_stopped by exact Hs. apply grows_refl.
Qed.

Lemma monotone_putValue r T v : monotone (putValue r T v).
Proof.
  intros s. destruct (started_ s) eqn:Hs.
  - rewrite putValue_started by exact Hs. apply grows_sent.
  - rewrite putValue_stopped by exact Hs. apply grows_refl.
Qed.

Lemma monotone_getValue r T : monotone (getValue r T).
Proof.
  intros s. destruct (started_ s) eqn:Hs.
  - rewrite getValue_started by exact Hs. apply grows_received.
  - rewrite getValue_stopped by exact Hs. apply grows_refl.
Qed.

Create HintDb traffic.

#[local] Hint Resolve monotone_ret monotone_putCommand monotone_putValue
  monotone_getValue : traffic.

(** Monotonicity by the structure of a computation; the calls themselves
    are looked up in the hint database. *)
Ltac mono :=
  repeat (intros;
    match goal with
    | |- monotone (bind _ _) => apply monotone_bind
    | |- monotone (and_then _ _) => apply monotone_and_then
    | |- monotone (test _) => unfold test
    | |- monotone (if ?b then _ else _) => destruct b
    | |- monotone (match ?x with _ => _ end) => destruct x
    | |- monotone ((fun _ => _) _) => cbv beta
    | |- monotone _ => solve [auto with traffic]
    end).

Lemma monotone_checkReply r cmd : monotone (checkReply r cmd).
Proof. unfold checkReply. mono. Qed.

#[local] Hint Resolve monotone_checkReply : traffic.

Lemma monotone_getArray_elements r T cmd n :
  forall pt i, monotone (dispatchGetArray_elements r T cmd pt n i).
Proof.
  induction n as [| n IH]; intros pt i; simpl; mono.
Qed.

#[local] Hint Resolve monotone_getArray_elements : traffic.

(** *** Sequencing and indices *)

Lemma bind_run {A B} (m : M A) (k : A -> M B) s a s1 :
  m s = (a, s1) -> bind m k s = k a s1.
Proof. intros H. unfold bind. now rewrite H. Qed.

Ltac started :=
  repeat first [rewrite received_started | progress (unfold sent; cbn [started_])];
  assumption.

Lemma next_index k :
  Z.of_nat k + 1 <= 65535 ->
  static_cast prot_size_t (Z.of_nat k + 1) = Z.of_nat (S k).
Proof.
  intros H. rewrite static_cast_in_range; [lia |].
  unfold prot_size_t. casts. lia.
Qed.

(** *** Sub-commands of a trace *)

Lemma subcommands_last L c p q a :
  exists l,
    subcommands (L ++ [EvWriteByte c; EvWriteBuffer p; EvWriteBuffer q; EvRead a])
    = l ++ [p].
Proof.
  induction L as [| e L [l IH]].
  - exists []. reflexivity.
  - rewrite <- app_comm_cons.
    remember (L ++ [EvWriteByte c; EvWriteBuffer p; EvWriteBuffer q; EvRead a]) as Y.
    destruct e as [b | p' | a'];
      try (exists l; cbn [subcommands]; exact IH).
    destruct Y as [| [b' | p' | a'] Y'];
      try (exists l; cbn [subcommands] in *; exact IH).
    exists (p' :: l). cbn [subcommands] in *. now rewrite IH.
Qed.

(** *** Exchanges under one command

    The class and the command byte are fixed for a whole exchange. *)

Section Exchange.

Variables (r : role) (cmd : Z).
Hypothesis Hc : in_range prot_cmd_t cmd.

Lemma checkReply_started s :
  started_ s = true ->
  checkReply r cmd s =
  (reply_okb cmd (fst (delivered r (PROT_HEX_BUFF_SIZE - 1) PROT_TERM_CHAR (rx s))),
   received r (PROT_HEX_BUFF_SIZE - 1) PROT_TERM_CHAR s).
Proof.
  intros Hs. unfold checkReply. mstep.
  rewrite getValue_started by exact Hs. unfold reply_okb.
  now destruct (decode prot_cmd_t _).
Qed.

(** The element loop of an array-set that ends well. *)
Lemma setArray_elements_true T pt :
  forall n k s s',
    started_ s = true -> Z.of_nat (k + n) <= 65535 ->
    dispatchSetArray_elements r T cmd pt n (Z.of_nat k) s = (true, s') ->
    started_ s' = true
    /\ tx s' = tx s ++ concat (map (element_msg r T cmd pt) (seq k n))
    /\ exists answers,
         List.length answers = n
         /\ Forall (fun a => reply_okb cmd a = true) answers
         /\ log s' = log s ++ element_exchanges r T cmd pt k answers.
Proof.
  induction n as [| n IH]; intros k s s' Hs Hk Hrun.
  - simpl in Hrun. injection Hrun as <-.
    split; [exact Hs |]. split; [simpl; now rewrite app_nil_r |].
    exists []. simpl. rewrite app_nil_r. auto.
  - cbn [dispatchSetArray_elements] in Hrun. revert Hrun.
    unfold putCommand. rewrite (static_cast_in_range prot_byte_t cmd Hc).
    mstep. rewrite writeByte_started by exact Hs. mstep.
    rewrite putValue_started by started. mstep.
    rewrite putValue_started by started. mstep.
    rewrite putValue_started by started. mstep.
    rewrite checkReply_started by started. mstep.
    rewrite Nat2Z.id.
    set (s4 := received r _ _ _).
    set (a := fst (delivered r _ _ _)).
    destruct (reply_okb cmd a) eqn:Hok; mstep; [| discriminate].
    rewrite next_index by lia. intros Hrun.
    assert (Hs4 : started_ s4 = true) by (subst s4; started).
    apply IH in Hrun; [| exact Hs4 | lia].
    destruct Hrun as [Hst [Htx [answers [Hlen [Hall Hlog]]]]].
    split; [exact Hst |]. split.
    + rewrite Htx. subst s4. rewrite received_tx. unfold sent. cbn [tx].
      cbn [seq map concat].
      change (element_msg r T cmd pt k)
        with ([cmd] ++ payload r prot_cmd_t SUBCMD_ARRAY_ELEMENT
                    ++ payload r prot_size_t (Z.of_nat k)
                    ++ payload r T (nth k pt 0)).
      rewrite <- !app_assoc. reflexivity.
    + exists (a :: answers). split; [simpl; now rewrite Hlen |].
      split; [now constructor |].
      rewrite Hlog. subst s4. rewrite received_log. unfold sent. cbn [log rx].
      cbn [element_exchanges]. unfold element_exchange.
      fold a. rewrite <- !app_assoc. reflexivity.
Qed.

Lemma putCommand_byte s :
  started_ s = true ->
  putCommand r cmd s = (true, sent [cmd] (EvWriteByte cmd) s).
Proof.
  intros Hs. rewrite putCommand_started by exact Hs.
  now rewrite (static_cast_in_range prot_byte_t cmd Hc).
Qed.

(** What the element loop of an array-set has sent when it stops:
    the messages of the first [j] indices, all of them when it ends
    well. *)
Lemma setArray_elements_sent T pt :
  forall n k s,
    started_ s = true -> Z.of_nat (k + n) <= 65535 ->
    exists j,
      (j <= n)%nat
      /\ started_ (snd (dispatchSetArray_elements r T cmd pt n (Z.of_nat k) s)) = true
      /\ tx (snd (dispatchSetArray_elements r T cmd pt n (Z.of_nat k) s))
         = tx s ++ concat (map (element_msg r T cmd pt) (seq k j))
      /\ (fst (dispatchSetArray_elements r T cmd pt n (Z.of_nat k) s) = true -> j = n).
Proof.
  induction n as [| n IH]; intros k s Hs Hk.
  - exists 0%nat. simpl. rewrite app_nil_r. auto.
  - cbn [dispatchSetArray_elements]. mstep.
    rewrite putCommand_byte by assumption. mstep.
    rewrite putValue_started by started. mstep.
    rewrite putValue_started by started. mstep.
    rewrite putValue_started by started. mstep.
    rewrite checkReply_started by started. mstep.
    rewrite Nat2Z.id.
    set (s4 := received r _ _ _).
    assert (Hs4 : started_ s4 = true) by (subst s4; started).
    assert (Ht4 : tx s4 = tx s ++ element_msg r T cmd pt k).
    { subst s4. rewrite received_tx. unfold sent, element_msg. cbn [tx].
      rewrite <- !app_assoc. reflexivity. }
    destruct (reply_okb cmd _); mstep.
    + rewrite next_index by lia.
      destruct (IH (S k) s4 Hs4 ltac:(lia)) as [j [Hj [Hst [Htx Hall]]]].
      exists (S j). split; [lia |]. split; [exact Hst |]. split.
      * rewrite Htx, Ht4. cbn [seq map concat]. now rewrite <- app_assoc.
      * intros H. now rewrite (Hall H).
    + exists 1%nat. split; [lia |]. cbn [fst snd]. split; [exact Hs4 |]. split.
      * rewrite Ht4. cbn [seq map concat]. now rewrite app_nil_r.
      * discriminate.
Qed.

(** Every array-set on a started session sends the size query, then
    element messages for an initial run of the indices, and the
    finishing message only after all of them. *)
Lemma setArray_sent T pt size s :
  started_ s = true -> in_range prot_size_t size ->
  exists j tail,
    (j <= Z.to_nat size)%nat
    /\ tx (snd (dispatchSetArray r T cmd pt size s))
       = tx s ++ size_query r cmd
              ++ concat (map (element_msg r T cmd pt) (seq 0 j)) ++ tail
    /\ (tail = [] \/ (j = Z.to_nat size /\ tail = finished_msg r cmd size)).
Proof.
  intros Hs Hsz. unfold dispatchSetArray. mstep.
  rewrite putCommand_byte by assumption. mstep.
  rewrite putValue_started by started. mstep.
  rewrite checkReply_started by started. mstep.
  set (s2 := sent _ _ (sent _ _ s)).
  set (s3 := received r _ _ s2).
  assert (Hs3 : started_ s3 = true) by (subst s3 s2; started).
  assert (Ht3 : tx s3 = tx s ++ size_query r cmd).
  { subst s3 s2. rewrite received_tx. unfold sent, size_query. cbn [tx].
    rewrite <- !app_assoc. reflexivity. }
  assert (Hnone : forall s', tx s' = tx s ++ size_query r cmd ->
            exists j tail,
              (j <= Z.to_nat size)%nat
              /\ tx s' = tx s ++ size_query r cmd
                       ++ concat (map (element_msg r T cmd pt) (seq 0 j)) ++ tail
              /\ (tail = [] \/ (j = Z.to_nat size /\ tail = finished_msg r cmd size))).
  { intros s' H. exists 0%nat, []. split; [lia |]. split; [| now left].
    simpl. now rewrite !app_nil_r. }
  destruct (reply_okb cmd _); mstep; [| now apply Hnone].
  rewrite getValue_started by exact Hs3. mstep.
  set (s4 := received r _ _ s3).
  assert (Hs4 : started_ s4 = true) by (subst s4; started).
  assert (Ht4 : tx s4 = tx s ++ size_query r cmd)
    by (subst s4; now rewrite received_tx).
  destruct (decode prot_size_t _) as [maxSize |]; mstep; [| now apply Hnone].
  destruct (size <=? maxSize); mstep; [| now apply Hnone].
  destruct (setArray_elements_sent T pt (Z.to_nat size) 0%nat s4 Hs4)
    as [j [Hj [Hst [Htx Hall]]]];
    [unfold prot_size_t in Hsz; casts; lia |].
  change (Z.of_nat 0) with 0 in *.
  destruct (dispatchSetArray_elements r T cmd pt (Z.to_nat size) 0 s4)
    as [ok s5]. cbn [fst snd] in *.
  destruct ok; mstep.
  - rewrite putCommand_byte by assumption. mstep.
    rewrite putValue_started by started. mstep.
    rewrite putValue_started by started. mstep.
    rewrite checkReply_started by started. mstep.
    exists j, (finished_msg r cmd size). split; [exact Hj |]. split.
    + destruct (reply_okb cmd _); mstep; cbn [snd];
        rewrite received_tx; unfold sent; cbn [tx];
        rewrite Htx, Ht4; unfold finished_msg;
        rewrite <- !app_assoc; reflexivity.
    + right. split; [now apply Hall | reflexivity].
  - exists j, []. split; [exact Hj |]. split; [| now left].
    cbn [snd]. rewrite Htx, Ht4, app_nil_r, <- app_assoc. reflexivity.
Qed.

(** The size exchange on its own. *)
Lemma getArrayMaxSize_started s :
  started_ s = true ->
  let s2 := sent (payload r prot_cmd_t SUBCMD_ARRAY_SIZE)
                 (EvWriteBuffer (payload r prot_cmd_t SUBCMD_ARRAY_SIZE))
                 (sent [cmd] (EvWriteByte cmd) s) in
  let s3 := received r (PROT_HEX_BUFF_SIZE - 1) PROT_TERM_CHAR s2 in
  dispatchGetArrayMaxSize r cmd s =
  if reply_okb cmd (fst (delivered r (PROT_HEX_BUFF_SIZE - 1) PROT_TERM_CHAR (rx s)))
  then (decode prot_size_t
          (fst (delivered r (PROT_HEX_BUFF_SIZE - 1) PROT_TERM_CHAR (rx s3))),
        received r (PROT_HEX_BUFF_SIZE - 1) PROT_TERM_CHAR s3)
  else (None, s3).
Proof.
  intros Hs s2 s3. unfold dispatchGetArrayMaxSize. mstep.
  rewrite putCommand_byte by assumption. mstep.
  rewrite putValue_started by started. mstep.
  rewrite checkReply_started by started. mstep.
  fold s2. fold s3. change (rx s2) with (rx s).
  destruct (reply_okb cmd _); mstep; [| reflexivity].
  rewrite getValue_started by (subst s3 s2; started). reflexivity.
Qed.

(** An array longer than the remote maximum: false, and nothing sent
    after the size exchange. *)
Lemma setArray_too_long T pt size s maxSize s1 :
  started_ s = true ->
  dispatchGetArrayMaxSize r cmd s = (Some maxSize, s1) -> maxSize < size ->
  dispatchSetArray r T cmd pt size s = (false, s1)
  /\ tx s1 = tx s ++ size_query r cmd.
Proof.
  intros Hs Hmax Hlt.
  rewrite getArrayMaxSize_started in Hmax by assumption. cbv zeta in Hmax.
  unfold dispatchSetArray. mstep.
  rewrite putCommand_byte by assumption. mstep.
  rewrite putValue_started by started. mstep.
  rewrite checkReply_started by started. mstep.
  match type of Hmax with (if ?c then _ else _) = _ => change c with
    (reply_okb cmd (fst (delivered r (PROT_HEX_BUFF_SIZE - 1) PROT_TERM_CHAR
       (rx (sent (payload r prot_cmd_t SUBCMD_ARRAY_SIZE)
                 (EvWriteBuffer (payload r prot_cmd_t SUBCMD_ARRAY_SIZE))
                 (sent [cmd] (EvWriteByte cmd) s)))))) in Hmax end.
  destruct (reply_okb cmd _); [| discriminate]. mstep.
  rewrite getValue_started by started.
  change (PROT_HEX_BUFF_SIZE - 1) with 9 in *.
  injection Hmax as Hdec Hs1. rewrite Hdec. mstep.
  replace (size <=? maxSize) with false by (symmetry; apply Z.leb_gt; lia).
  rewrite Hs1. split; [reflexivity |].
  rewrite <- Hs1, !received_tx. unfold sent, size_query. cbn [tx].
  rewrite <- !app_assoc. reflexivity.
Qed.

(** An array-set that returns true: the whole traffic. *)
Lemma setArray_true T pt size s s' :
  started_ s = true -> in_range prot_size_t size ->
  dispatchSetArray r T cmd pt size s = (true, s') ->
  tx s' = tx s ++ size_query r cmd
               ++ concat (map (element_msg r T cmd pt) (seq 0 (Z.to_nat size)))
               ++ finished_msg r cmd size
  /\ exists a0 m maxSize answers af,
       log s' = log s ++ size_exchange r cmd a0 m
                      ++ element_exchanges r T cmd pt 0 answers
                      ++ finished_exchange r cmd size af
       /\ reply_okb cmd a0 = true
       /\ decode prot_size_t m = Some maxSize /\ size <= maxSize
       /\ List.length answers = Z.to_nat size
       /\ Forall (fun a => reply_okb cmd a = true) answers
       /\ reply_okb cmd af = true.
Proof.
  intros Hs Hsz. unfold dispatchSetArray. mstep.
  rewrite putCommand_byte by assumption. mstep.
  rewrite putValue_started by started. mstep.
  rewrite checkReply_started by started. mstep.
  set (s2 := sent _ _ (sent _ _ s)).
  set (a0 := fst (delivered r _ _ (rx s2))).
  set (s3 := received r _ _ s2).
  assert (Hs3 : started_ s3 = true) by (subst s3 s2; started).
  destruct (reply_okb cmd a0) eqn:Ha0; mstep; [| discriminate].
  rewrite getValue_started by exact Hs3. mstep.
  set (m := fst (delivered r _ _ (rx s3))).
  set (s4 := received r _ _ s3).
  assert (Hs4 : started_ s4 = true) by (subst s4; started).
  destruct (decode prot_size_t m) as [maxSize |] eqn:Hm; mstep; [| discriminate].
  destruct (size <=? maxSize) eqn:Hle; mstep; [| discriminate].
  destruct (dispatchSetArray_elements r T cmd pt (Z.to_nat size) 0 s4)
    as [ok s5] eqn:Hloop.
  destruct ok; mstep; [| discriminate].
  apply (setArray_elements_true T pt (Z.to_nat size) 0%nat) in Hloop;
    [| exact Hs4 | unfold prot_size_t in Hsz; casts; lia].
  destruct Hloop as [Hs5 [Htx [answers [Hlen [Hall Hlog]]]]].
  rewrite putCommand_byte by assumption. mstep.
  rewrite putValue_started by started. mstep.
  rewrite putValue_started by started. mstep.
  rewrite checkReply_started by started. mstep.
  set (s6 := sent _ _ (sent _ _ (sent _ _ s5))).
  set (af := fst (delivered r _ _ (rx s6))).
  destruct (reply_okb cmd af) eqn:Haf; mstep; [| discriminate].
  intros Hrun. injection Hrun as <-.
  split.
  - rewrite received_tx. subst s6. unfold sent at 1 2 3. cbn [tx].
    rewrite Htx. subst s4 s3. rewrite !received_tx. subst s2.
    unfold sent, size_query, finished_msg. cbn [tx].
    rewrite <- !app_assoc. reflexivity.
  - exists a0, m, maxSize, answers, af.
    split; [| bools; auto 10].
    rewrite received_log. fold af. subst s6. unfold sent at 1 2 3. cbn [log].
    rewrite Hlog. subst s4. rewrite received_log. fold m.
    subst s3. rewrite received_log. fold a0. subst s2.
    unfold sent, size_exchange, finished_exchange. cbn [log].
    rewrite <- !app_assoc. reflexivity.
Qed.

Lemma setArray_stopped T pt size s :
  started_ s = false -> dispatchSetArray r T cmd pt size s = (false, s).
Proof.
  intros Hs. unfold dispatchSetArray. mstep.
  now rewrite putCommand_stopped by exact Hs.
Qed.

(** *** Array-get *)

Lemma getArray_stopped T pt maxSize size0 s :
  started_ s = false ->
  dispatchGetArray r T cmd pt maxSize size0 s = (false, pt, size0, s).
Proof.
  intros Hs. unfold dispatchGetArray. mstep.
  now rewrite putCommand_stopped by exact Hs.
Qed.

Lemma starting_request s :
  started_ s = true ->
  (putCommand r cmd &&> putValue r prot_cmd_t SUBCMD_ARRAY_STARTING
                    &&> checkReply r cmd) s
  = (reply_okb cmd (fst (delivered r (PROT_HEX_BUFF_SIZE - 1) PROT_TERM_CHAR (rx s))),
     received r (PROT_HEX_BUFF_SIZE - 1) PROT_TERM_CHAR
       (sent (payload r prot_cmd_t SUBCMD_ARRAY_STARTING)
             (EvWriteBuffer (payload r prot_cmd_t SUBCMD_ARRAY_STARTING))
             (sent [cmd] (EvWriteByte cmd) s))).
Proof.
  intros Hs. mstep.
  rewrite putCommand_byte by assumption. mstep.
  rewrite putValue_started by started. mstep.
  rewrite checkReply_started by started. reflexivity.
Qed.

(** The trace of an array-get starts with the STARTING request and the
    answer to it; anything follows only when that answer was the echo. *)
Lemma getArray_log T pt maxSize size0 s :
  started_ s = true ->
  exists a more,
    log (snd (dispatchGetArray r T cmd pt maxSize size0 s))
    = log s ++ [EvWriteByte cmd;
                EvWriteBuffer (payload r prot_cmd_t SUBCMD_ARRAY_STARTING);
                EvRead a] ++ more
    /\ (more <> [] -> reply_okb cmd a = true).
Proof.
  intros Hs. unfold dispatchGetArray, test.
  rewrite (bind_run _ _ s _ _ (starting_request s Hs)).
  set (a := fst (delivered r _ _ (rx s))).
  set (s3 := received r _ _ _).
  assert (Hl3 : log s3 = log s ++ [EvWriteByte cmd;
                  EvWriteBuffer (payload r prot_cmd_t SUBCMD_ARRAY_STARTING);
                  EvRead a]).
  { subst s3. rewrite received_log. unfold sent. cbn [log rx]. fold a.
    rewrite <- !app_assoc. reflexivity. }
  exists a. destruct (reply_okb cmd a) eqn:Ha.
  - cbn [negb].
    match goal with
    | |- context [snd (?c s3)] => assert (Hg : grows s3 (snd (c s3)))
    end.
    { match goal with |- grows s3 (snd (?c s3)) => enough (monotone c) by auto end.
      mono. }
    destruct Hg as [_ [l Hl]]. exists l. rewrite Hl, Hl3, <- app_assoc.
    split; [reflexivity | reflexivity].
  - exists []. cbn [negb]. unfold ret. cbn [snd].
    rewrite Hl3, app_nil_r. split; [reflexivity | congruence].
Qed.

End Exchange.

End Arrays.

(** * The codec beyond the round trip *)

Module CodecMore.
Import Hex Wire Codec.

Lemma received_rx r size term s :
  rx (received r size term s) = snd (delivered r size term (rx s)).
Proof. unfold received. now destruct (delivered r size term (rx s)). Qed.

Lemma received_target r size term s :
  target_ (received r size term s) = target_ s.
Proof. unfold received. now destruct (delivered r size term (rx s)). Qed.

(** *** Reading any bytes *)

Lemma readBytesUntil_bytes term p :
  forall n rest,
    Forall (fun c => c <> term) p ->
    readBytesUntil term n (p ++ term :: rest)
    = (firstn n p,
       if (List.length p <? n)%nat then rest else skipn n p ++ term :: rest).
Proof.
  induction p as [| c p IH]; intros n rest Hp.
  - destruct n; simpl; [reflexivity |]. now rewrite Z.eqb_refl.
  - inversion Hp as [| ? ? Hc Hp']; subst.
    destruct n as [| n]; [reflexivity |]. simpl readBytesUntil.
    replace (c =? term) with false by (symmetry; now apply Z.eqb_neq).
    rewrite (IH n rest Hp'). reflexivity.
Qed.

Lemma delivered_bytes r p rest :
  Forall (fun c => c <> PROT_TERM_CHAR) p ->
  delivered r (PROT_HEX_BUFF_SIZE - 1) PROT_TERM_CHAR (p ++ PROT_TERM_CHAR :: rest)
  = (firstn (Z.to_nat (PROT_HEX_BUFF_SIZE - 1)) p, left_over r p rest).
Proof.
  intros Hp. destruct r; unfold delivered, left_over.
  - rewrite readBytesUntil_bytes by exact Hp. f_equal.
    change (PROT_HEX_BUFF_SIZE - 1) with 9.
    destruct (List.length p <? Z.to_nat 9)%nat eqn:E.
    + apply Nat.ltb_lt in E.
      replace (Z.of_nat (List.length p) <? 9) with true
        by (symmetry; apply Z.ltb_lt; lia). reflexivity.
    + apply Nat.ltb_ge in E.
      replace (Z.of_nat (List.length p) <? 9) with false
        by (symmetry; apply Z.ltb_ge; lia). reflexivity.
  - now rewrite GetSerialAnswer_text.
Qed.

(** *** [strtoul] after a minus sign *)

Lemma strtoul_minus_digits ds :
  Forall (fun c => is_lower_hex c = true) ds -> ds <> [] ->
  digits_value ds 0 <= ULONG_MAX ->
  strtoul (char_of "-" :: ds) 16 = (- digits_value ds 0) mod 2 ^ 32.
Proof.
  intros Hall Hne Hmax.
  unfold strtoul. change (char_of "-") with 45. change (char_of "+") with 43.
  change (char_of "0") with 48.
  change (char_of "x") with 120. change (char_of "X") with 88.
  change (skip_space (45 :: ds)) with (45 :: ds). cbv iota beta zeta.
  rewrite (Z.eqb_refl 45), (Z.eqb_refl 16). cbv iota beta zeta.
  assert (Hs3 : match ds with
                | z :: x :: t =>
                    if (z =? 48) && ((x =? 120) || (x =? 88)) then t else ds
                | _ => ds
                end = ds).
  { destruct ds as [| z [| x t]]; try reflexivity.
    inversion Hall as [| ? ? _ Hds]; subst.
    inversion Hds as [| ? ? Hx _]; subst. apply is_lower_hex_range in Hx.
    replace ((x =? 120) || (x =? 88)) with false.
    - rewrite andb_false_r. reflexivity.
    - symmetry. apply orb_false_iff. split; apply Z.eqb_neq; lia. }
  rewrite Hs3.
  rewrite <- (app_nil_r ds) at 1.
  rewrite strtoul_loop_digits by (auto; lia).
  reflexivity.
Qed.

Lemma ultoa_digits_value v :
  0 <= v < 2 ^ 32 -> digits_value (ultoa v 16) 0 = v.
Proof.
  intros Hv. unfold ultoa. rewrite Z.mod_small by exact Hv.
  destruct (ultoa_loop_spec 8 32 v []) as [ds [Heq [_ [_ [_ Hdv]]]]];
    [lia | simpl; lia |].
  rewrite app_nil_r in Heq. rewrite Heq, Hdv. ring.
Qed.

(** *** Conversions *)

Lemma static_cast_mod32 T v : static_cast T (v mod 2 ^ 32) = static_cast T v.
Proof.
  assert (H : forall k, 0 < k -> (k | 4294967296) ->
                        (v mod 4294967296) mod k = v mod k).
  { intros k Hk Hd. now apply Z.mod_mod_divide. }
  destruct T; unfold static_cast; cbn [bits IS_SIGNED];
    change (2 ^ 32) with 4294967296;
    rewrite H by first [lia | apply Z.mod_divide; [lia | reflexivity]];
    reflexivity.
Qed.

(** What the reader of type [T'] makes of the text of a value of type
    [T]: the value converted to [T']. *)
Lemma scan_print_cross r T T' v :
  in_range T v -> scan_value T' (cstr (print_value r T v)) = static_cast T' v.
Proof.
  intros Hr. pose proof (in_range_long T v Hr) as Hl.
  destruct (Z.lt_ge_cases v 0) as [Hneg | Hpos].
  - destruct (print_value_negative r T v Hr Hneg) as [Hs ->].
    rewrite Hs in Hl.
    assert (Hm : 0 <= - v < 2 ^ 32) by (casts; lia).
    destruct (ultoa_spec (- v) Hm) as [Hall [Hlen Hval]].
    assert (Hne : ultoa (- v) 16 <> [])
      by (destruct (ultoa (- v) 16); [simpl in Hlen; lia | discriminate]).
    pose proof (ultoa_digits_value (- v) Hm) as Hdv.
    change (char_of "-") with 45. simpl cstr.
    rewrite lower_hex_cstr by exact Hall.
    unfold scan_value. destruct (IS_SIGNED T').
    + change (char_of "-") with 45. simpl strchr_next.
      unfold PROT_RADIX. rewrite Hval.
      rewrite negate_cast by (casts; lia). reflexivity.
    + unfold PROT_RADIX. change 45 with (char_of "-").
      rewrite strtoul_minus_digits; auto; [| rewrite Hdv; unfold ULONG_MAX; lia].
      rewrite Hdv, Z.opp_involutive.
      rewrite (static_cast_in_range prot_ulong_t)
        by (unfold prot_ulong_t; casts; apply Z.mod_pos_bound; lia).
      apply static_cast_mod32.
  - rewrite print_value_digits by assumption.
    assert (Hm : 0 <= v < 2 ^ 32) by (destruct T; casts; lia).
    destruct (ultoa_spec v Hm) as [Hall [Hlen Hval]].
    rewrite lower_hex_cstr by exact Hall.
    unfold scan_value, PROT_RADIX.
    assert (Hno : strchr_next (ultoa v 16) (char_of "-") = None).
    { apply strchr_next_absent. eapply Forall_impl; [| exact Hall].
      intros c Hc. apply is_lower_hex_range in Hc.
      change (char_of "-") with 45. lia. }
    rewrite Hno, Hval.
    rewrite (static_cast_in_range prot_ulong_t) by (casts; lia).
    now destruct (IS_SIGNED T').
Qed.

Lemma digits_value_lt ds :
  forall a,
    Forall (fun c => is_lower_hex c = true) ds -> 0 <= a ->
    digits_value ds a < (a + 1) * 16 ^ Z.of_nat (List.length ds).
Proof.
  induction ds as [| c ds IH]; intros a Hall Ha.
  - simpl. lia.
  - inversion Hall as [| ? ? Hc Hds]; subst.
    destruct (lower_hex_digit_value c Hc) as [d [Hd Hr]].
    cbn [digits_value List.length]. rewrite Hd.
    specialize (IH (a * 16 + d) Hds ltac:(lia)).
    rewrite Nat2Z.inj_succ, Z.pow_succ_r by lia.
    assert (0 < 16 ^ Z.of_nat (List.length ds)) by (apply Z.pow_pos_nonneg; lia).
    nia.
Qed.

(** A value of at least [16^7] has eight digits. *)
Lemma ultoa_eight_digits m :
  2 ^ 28 <= m < 2 ^ 32 -> List.length (ultoa m 16) = 8%nat.
Proof.
  intros Hm.
  assert (Hm' : 0 <= m < 2 ^ 32) by lia.
  destruct (ultoa_spec m Hm') as [Hall [Hlen _]].
  pose proof (ultoa_digits_value m Hm') as Hdv.
  pose proof (digits_value_lt (ultoa m 16) 0 Hall ltac:(lia)) as Hlt.
  rewrite Hdv in Hlt.
  destruct (Nat.eq_dec (List.length (ultoa m 16)) 8) as [E | E]; [exact E |].
  exfalso.
  assert (16 ^ Z.of_nat (List.length (ultoa m 16)) <= 16 ^ 7)
    by (apply Z.pow_le_mono_r; lia).
  change (16 ^ 7) with (2 ^ 28) in *. lia.
Qed.

Lemma payload_text r T v :
  in_range T v -> payload r T v = print_value r T v ++ [PROT_TERM_CHAR].
Proof.
  intros Hr. unfold payload.
  destruct (print_value_text r T v Hr) as [Htext _].
  now rewrite text_cstr.
Qed.

(** X1: for every protocol integer type ([uint8_t] commands, [int8_t]
    channels, [uint16_t] sizes, the 16- and 32-bit types) and every
    value of the type, [putValue] writes an optional minus sign, one to
    eight lower-case hexadecimal digits and the terminator, and
    [getValue] into the same type reads the value back. *)
Theorem integer_codec_roundtrip :
  forall (r r' : role) (T : ctype) (v : Z) (s s' : session) (rest : list Z),
    in_range T v -> started_ s = true -> started_ s' = true ->
    fst (putValue r T v s) = true
    /\ exists digits,
         tx (snd (putValue r T v s))
         = tx s ++ sign_text v ++ digits ++ [PROT_TERM_CHAR]
         /\ Forall (fun c => is_lower_hex c = true) digits
         /\ (1 <= List.length digits <= 8)%nat
         /\ (sign_text v = [] \/ IS_SIGNED T = true)
         /\ (rx s' = sign_text v ++ digits ++ [PROT_TERM_CHAR] ++ rest ->
             fst (getValue r' T s') = Some v).
Proof.
  intros r r' T v s s' rest Hr Hs Hs'.
  rewrite putValue_started by exact Hs. split; [reflexivity |].
  cbn [fst snd]. unfold sent. cbn [tx].
  pose proof (in_range_long T v Hr) as Hl.
  assert (Hp : exists digits,
             print_value r T v = sign_text v ++ digits
             /\ Forall (fun c => is_lower_hex c = true) digits
             /\ (1 <= List.length digits <= 8)%nat
             /\ (sign_text v = [] \/ IS_SIGNED T = true)).
  { unfold sign_text. destruct (Z.lt_ge_cases v 0) as [Hneg | Hpos].
    - destruct (print_value_negative r T v Hr Hneg) as [Hsg Hpv].
      rewrite Hsg in Hl.
      assert (Hm : 0 <= - v < 2 ^ 32) by (casts; lia).
      destruct (ultoa_spec (- v) Hm) as [Hall [Hlen _]].
      exists (ultoa (- v) 16).
      replace (v <? 0) with true by (symmetry; apply Z.ltb_lt; lia).
      rewrite Hpv. auto.
    - assert (Hm : 0 <= v < 2 ^ 32) by (destruct T; casts; lia).
      destruct (ultoa_spec v Hm) as [Hall [Hlen _]].
      exists (ultoa v 16).
      replace (v <? 0) with false by (symmetry; apply Z.ltb_ge; lia).
      rewrite print_value_digits by assumption. auto. }
  destruct Hp as [digits [Hpv [Hall [Hlen Hsg]]]].
  exists digits. rewrite payload_text by exact Hr. rewrite Hpv, <- !app_assoc.
  repeat split; auto; try lia.
  intros Hrx. apply (getValue_payload r r' T v rest); auto.
  rewrite payload_text by exact Hr. rewrite Hpv, <- !app_assoc. exact Hrx.
Qed.

Lemma integer_codec_roundtrip_witness :
  fst (putValue Host prot_chan_t (-128) (mkSession true true [] [] [])) = true
  /\ exists digits,
       tx (snd (putValue Host prot_chan_t (-128) (mkSession true true [] [] [])))
       = [] ++ sign_text (-128) ++ digits ++ [PROT_TERM_CHAR]
       /\ Forall (fun c => is_lower_hex c = true) digits
       /\ (1 <= List.length digits <= 8)%nat
       /\ (sign_text (-128) = [] \/ IS_SIGNED prot_chan_t = true)
       /\ (bytes_of_string "-80" ++ [PROT_TERM_CHAR]
           = sign_text (-128) ++ digits ++ [PROT_TERM_CHAR] ++ [] ->
           fst (getValue Slave prot_chan_t
                  (mkSession true true (bytes_of_string "-80" ++ [PROT_TERM_CHAR]) [] []))
           = Some (-128)).
Proof.
  apply (integer_codec_roundtrip Host Slave prot_chan_t (-128)
           (mkSession true true [] [] [])
           (mkSession true true (bytes_of_string "-80" ++ [PROT_TERM_CHAR]) [] [])
           []).
  - unfold in_range. simpl. lia.
  - reflexivity.
  - reflexivity.
Defined.

(** X2: [getValue] into a type [T'] of a payload written for a value
    [v] of a type [T] succeeds with [v] converted to [T']: a value that
    does not fit is wrapped around silently, a negative value read into
    an unsigned type becomes its two's complement. *)
Theorem decode_converts :
  forall (r r' : role) (T T' : ctype) (v : Z) (s s' : session) (rest : list Z),
    in_range T v -> started_ s = true -> started_ s' = true ->
    rx s' = tx (snd (putValue r T v s)) ++ rest -> tx s = [] ->
    fst (getValue r' T' s') = Some (static_cast T' v).
Proof.
  intros r r' T T' v s s' rest Hr Hs Hs' Hrx Htx.
  rewrite putValue_started in Hrx by exact Hs.
  cbn [snd] in Hrx. unfold sent in Hrx. cbn [tx] in Hrx.
  rewrite Htx in Hrx. cbn [app] in Hrx.
  rewrite getValue_started by exact Hs'. rewrite Hrx. cbn [fst].
  destruct (print_value_text r T v Hr) as [Htext Hlen].
  unfold payload. rewrite text_cstr by exact Htext.
  rewrite <- app_assoc. cbn [app].
  rewrite delivered_text.
  - pose proof (scan_print_cross r T T' v Hr) as Hscan.
    unfold decode. destruct (print_value r T v); [simpl in Hlen; lia |].
    now rewrite Hscan.
  - eapply Forall_impl; [| exact Htext]. now intros c [_ Hc].
  - change (PROT_HEX_BUFF_SIZE - 1) with 9. lia.
Qed.

Lemma decode_converts_witness :
  fst (getValue Slave prot_cmd_t
         (mkSession true true (bytes_of_string "14d" ++ [PROT_TERM_CHAR]) [] []))
  = Some 0x4d
  /\ fst (getValue Host prot_size_t
            (mkSession true true (bytes_of_string "-1" ++ [PROT_TERM_CHAR]) [] []))
     = Some 0xffff.
Proof.
  split.
  - apply (decode_converts Host Slave prot_size_t prot_cmd_t 0x14d
             (mkSession true true [] [] [])
             (mkSession true true (bytes_of_string "14d" ++ [PROT_TERM_CHAR]) [] [])
             []); try reflexivity.
    unfold in_range. simpl. lia.
  - apply (decode_converts Slave Host prot_chan_t prot_size_t (-1)
             (mkSession true true [] [] [])
             (mkSession true true (bytes_of_string "-1" ++ [PROT_TERM_CHAR]) [] [])
             []); try reflexivity.
    unfold in_range. simpl. lia.
Defined.

(** *** Any answer *)

Lemma putValue_tx r T v s :
  started_ s = true -> tx s = [] ->
  tx (snd (putValue r T v s)) = payload r T v.
Proof.
  intros Hs Htx. rewrite putValue_started by exact Hs.
  cbn [snd]. unfold sent. cbn [tx]. now rewrite Htx.
Qed.

Lemma getValue_bytes r T p rest s :
  started_ s = true ->
  Forall (fun c => c <> PROT_TERM_CHAR) p ->
  rx s = p ++ PROT_TERM_CHAR :: rest ->
  getValue r T s
  = (decode T (firstn 9 p),
     mkSession (started_ s) (target_ s) (left_over r p rest) (tx s)
       (log s ++ [EvRead (firstn 9 p)])).
Proof.
  intros Hs Hp Hrx. rewrite getValue_started by exact Hs.
  unfold received. rewrite Hrx, delivered_bytes by exact Hp.
  reflexivity.
Qed.

Lemma static_cast_range T v : in_range T (static_cast T v).
Proof.
  destruct T; casts;
    try (apply Z.mod_pos_bound; lia);
    destruct (v mod _ <? _) eqn:E; bools;
    Z.div_mod_to_equations; lia.
Qed.

Lemma scan_value_range T text : in_range T (scan_value T text).
Proof.
  unfold scan_value. destruct (IS_SIGNED T);
    [destruct (strchr_next text (char_of "-")) |]; apply static_cast_range.
Qed.

(** X3: [getValue] accepts every non-empty answer.  Whatever
    characters stand before the terminator, the call succeeds with the
    value that [strtoul] finds in the first nine of them, which is a
    value of the requested type.  The host drops the characters after
    the ninth with the terminator; the Arduino leaves them and the
    terminator in the stream for the next read. *)
Theorem getValue_accepts_any_answer :
  forall (r : role) (T : ctype) (p rest : list Z) (s : session),
    started_ s = true -> p <> [] ->
    Forall (fun c => c <> PROT_TERM_CHAR) p ->
    rx s = p ++ PROT_TERM_CHAR :: rest ->
    fst (getValue r T s) = Some (scan_value T (cstr (firstn 9 p)))
    /\ in_range T (scan_value T (cstr (firstn 9 p)))
    /\ rx (snd (getValue r T s))
       = match r with
         | Host => rest
         | Slave => if (List.length p <? 9)%nat then rest
                    else skipn 9 p ++ PROT_TERM_CHAR :: rest
         end.
Proof.
  intros r T p rest s Hs Hne Hp Hrx.
  rewrite (getValue_bytes r T p rest s Hs Hp Hrx). cbn [fst snd rx].
  split; [| split].
  - destruct p as [| c p]; [congruence | reflexivity].
  - apply scan_value_range.
  - destruct r; [| reflexivity]. unfold left_over.
    change (PROT_HEX_BUFF_SIZE - 1) with 9.
    destruct (List.length p <? 9)%nat eqn:E.
    + apply Nat.ltb_lt in E.
      replace (Z.of_nat (List.length p) <? 9) with true
        by (symmetry; apply Z.ltb_lt; lia). reflexivity.
    + apply Nat.ltb_ge in E.
      replace (Z.of_nat (List.length p) <? 9) with false
        by (symmetry; apply Z.ltb_ge; lia). reflexivity.
Qed.

Lemma getValue_accepts_any_answer_witness :
  fst (getValue Slave prot_size_t
         (mkSession true true
            (bytes_of_string "0123456789a" ++ PROT_TERM_CHAR :: [65]) [] []))
  = Some (scan_value prot_size_t (cstr (firstn 9 (bytes_of_string "0123456789a"))))
  /\ in_range prot_size_t
       (scan_value prot_size_t (cstr (firstn 9 (bytes_of_string "0123456789a"))))
  /\ rx (snd (getValue Slave prot_size_t
                (mkSession true true
                   (bytes_of_string "0123456789a" ++ PROT_TERM_CHAR :: [65]) [] [])))
     = if (List.length (bytes_of_string "0123456789a") <? 9)%nat then [65]
       else skipn 9 (bytes_of_string "0123456789a") ++ PROT_TERM_CHAR :: [65].
Proof.
  apply (getValue_accepts_any_answer Slave prot_size_t
           (bytes_of_string "0123456789a") [65]
           (mkSession true true
              (bytes_of_string "0123456789a" ++ PROT_TERM_CHAR :: [65]) [] [])).
  - reflexivity.
  - discriminate.
  - repeat constructor; vm_compute; discriminate.
  - reflexivity.
Defined.

(** X4: an answer that does not begin with white space, a sign or a
    hexadecimal digit is not reported as an error: read into an
    unsigned type it is the value 0. *)
Theorem getValue_garbage_is_zero :
  forall (r : role) (T : ctype) (c : Z) (p rest : list Z) (s : session),
    started_ s = true -> IS_SIGNED T = false ->
    isspace c = false -> c <> char_of "-" -> c <> char_of "+" ->
    (forall d, digit_value c = Some d -> 16 <= d) ->
    Forall (fun c => c <> PROT_TERM_CHAR) (c :: p) ->
    rx s = c :: p ++ PROT_TERM_CHAR :: rest ->
    fst (getValue r T s) = Some 0.
Proof.
  intros r T c p rest s Hs Hu Hsp Hm Hpl Hd Hp Hrx.
  rewrite (getValue_bytes r T (c :: p) rest s Hs Hp Hrx). cbn [fst].
  change (firstn 9 (c :: p)) with (c :: firstn 8 p). unfold decode.
  f_equal. unfold scan_value. rewrite Hu.
  assert (Hz : forall text, strtoul (cstr (c :: text)) PROT_RADIX = 0).
  { intros text. cbn [cstr]. destruct (c =? 0); [reflexivity |].
    unfold strtoul. cbn [skip_space]. rewrite Hsp.
    replace (c =? char_of "-") with false by (symmetry; now apply Z.eqb_neq).
    replace (c =? char_of "+") with false by (symmetry; now apply Z.eqb_neq).
    change (PROT_RADIX =? 16) with true. cbv iota.
    assert (Hl : forall t, strtoul_loop PROT_RADIX (c :: t) 0 false = (0, false)).
    { intros t. cbn [strtoul_loop]. destruct (digit_value c) as [d |] eqn:E;
        [| reflexivity].
      specialize (Hd d eq_refl).
      replace (d <? PROT_RADIX) with false
        by (symmetry; apply Z.ltb_ge; exact Hd).
      reflexivity. }
    destruct (cstr text) as [| x t].
    - now rewrite Hl.
    - assert (Hc0 : (c =? char_of "0") = false).
      { apply Z.eqb_neq. intros ->. specialize (Hd 0 eq_refl). lia. }
      rewrite Hc0. cbn [andb]. now rewrite Hl. }
  rewrite Hz. destruct T; try discriminate; reflexivity.
Qed.

Lemma getValue_garbage_is_zero_witness :
  fst (getValue Host prot_cmd_t
         (mkSession true true
            (char_of "z" :: bytes_of_string "15" ++ PROT_TERM_CHAR :: []) [] []))
  = Some 0.
Proof.
  apply (getValue_garbage_is_zero Host prot_cmd_t (char_of "z")
           (bytes_of_string "15") []
           (mkSession true true
              (char_of "z" :: bytes_of_string "15" ++ PROT_TERM_CHAR :: []) [] []));
    try reflexivity; try (vm_compute; discriminate).
  - intros d Hd. vm_compute in Hd. injection Hd as <-. lia.
  - repeat constructor; vm_compute; discriminate.
Defined.

(** *** Nine characters *)

Lemma left_over_empty r rest : left_over r [] rest = rest.
Proof. now destruct r. Qed.

Lemma getValue_terminator r T rest s :
  started_ s = true -> rx s = PROT_TERM_CHAR :: rest ->
  getValue r T s
  = (None, mkSession (started_ s) (target_ s) rest (tx s) (log s ++ [EvRead []])).
Proof.
  intros Hs Hrx.
  rewrite (getValue_bytes r T [] rest s Hs (Forall_nil _) Hrx).
  now rewrite left_over_empty.
Qed.

(** X5: a [prot_long_t] of at most [-0x10000000] is written with nine
    characters, which fill the read buffer of the Arduino exactly.  The
    Arduino reads the value but leaves its terminator in the stream:
    the next [getValue] fails on it, and [hasCommand] and [getCommand]
    take it for the command 0x04.  The host reads the same payload
    with its terminator. *)
Theorem nine_character_payload :
  forall (r : role) (i : Z) (rest : list Z) (s0 s : session),
    - 2 ^ 31 <= i <= - 2 ^ 28 ->
    started_ s0 = true -> tx s0 = [] -> started_ s = true ->
    rx s = tx (snd (putValue r prot_long_t i s0)) ++ rest ->
    fst (getValue Slave prot_long_t s) = Some i
    /\ rx (snd (getValue Slave prot_long_t s)) = PROT_TERM_CHAR :: rest
    /\ (forall T, fst (getValue Slave T (snd (getValue Slave prot_long_t s))) = None)
    /\ fst (hasCommand Slave (snd (getValue Slave prot_long_t s))) = true
    /\ fst (getCommand Slave (snd (getValue Slave prot_long_t s))) = PROT_TERM_CHAR
    /\ rx (snd (getValue Host prot_long_t s)) = rest.
Proof.
  intros r i rest s0 s Hi Hs0 Htx Hs Hrx.
  assert (Hr : in_range prot_long_t i) by (casts; lia).
  rewrite putValue_tx in Hrx by assumption.
  split; [now apply (getValue_payload r Slave prot_long_t i rest) |].
  destruct (print_value_negative r prot_long_t i Hr ltac:(lia)) as [_ Hpv].
  assert (Hlen : List.length (print_value r prot_long_t i) = 9%nat).
  { rewrite Hpv. cbn [List.length]. rewrite ultoa_eight_digits; [reflexivity |].
    change (2 ^ 32) with 4294967296. change (2 ^ 28) with 268435456 in *.
    change (2 ^ 31) with 2147483648 in *. lia. }
  destruct (print_value_text r prot_long_t i Hr) as [Htext _].
  assert (Hp : Forall (fun c => c <> PROT_TERM_CHAR) (print_value r prot_long_t i))
    by (eapply Forall_impl; [| exact Htext]; now intros c [_ Hc]).
  rewrite payload_text, <- app_assoc in Hrx by exact Hr. cbn [app] in Hrx.
  rewrite !(getValue_bytes _ prot_long_t _ rest s Hs Hp Hrx). cbn [snd rx].
  assert (Hlo : left_over Slave (print_value r prot_long_t i) rest
                = PROT_TERM_CHAR :: rest).
  { unfold left_over. rewrite Hlen. change (PROT_HEX_BUFF_SIZE - 1) with 9.
    change (Z.of_nat 9 <? 9) with false. cbv iota.
    rewrite skipn_all2 by (rewrite Hlen; simpl; lia). reflexivity. }
  rewrite Hlo. repeat split.
  - intros T. now rewrite (getValue_terminator Slave T rest).
  - unfold hasCommand, hasByte, bind, hasStarted. cbn. rewrite Hs. reflexivity.
  - unfold getCommand, readByte, bind, hasStarted. cbn. rewrite Hs. reflexivity.
Qed.

Lemma nine_character_payload_witness :
  fst (getValue Slave prot_long_t
         (mkSession true true (bytes_of_string "-80000000" ++ [PROT_TERM_CHAR; 65]) [] []))
  = Some (- 2 ^ 31)
  /\ rx (snd (getValue Slave prot_long_t
                (mkSession true true (bytes_of_string "-80000000" ++ [PROT_TERM_CHAR; 65]) [] [])))
     = PROT_TERM_CHAR :: [65]
  /\ (forall T,
        fst (getValue Slave T
               (snd (getValue Slave prot_long_t
                       (mkSession true true
                          (bytes_of_string "-80000000" ++ [PROT_TERM_CHAR; 65]) [] []))))
        = None)
  /\ fst (hasCommand Slave
            (snd (getValue Slave prot_long_t
                    (mkSession true true
                       (bytes_of_string "-80000000" ++ [PROT_TERM_CHAR; 65]) [] []))))
     = true
  /\ fst (getCommand Slave
            (snd (getValue Slave prot_long_t
                    (mkSession true true
                       (bytes_of_string "-80000000" ++ [PROT_TERM_CHAR; 65]) [] []))))
     = PROT_TERM_CHAR
  /\ rx (snd (getValue Host prot_long_t
                (mkSession true true
                   (bytes_of_string "-80000000" ++ [PROT_TERM_CHAR; 65]) [] [])))
     = [65].
Proof.
  apply (nine_character_payload Host (- 2 ^ 31) [65]
           (mkSession true true [] [] [])
           (mkSession true true
              (bytes_of_string "-80000000" ++ [PROT_TERM_CHAR; 65]) [] []));
    try reflexivity.
  lia.
Defined.

End CodecMore.

(** * Strings on the wire *)

Module StringsMore.
Import Hex Wire Codec CodecMore.

Lemma readStringUntil_text term p rest :
  Forall (fun c => c <> term) p ->
  readStringUntil term (p ++ term :: rest) = (p, rest).
Proof.
  induction 1 as [| c p Hc _ IH]; simpl.
  - now rewrite Z.eqb_refl.
  - replace (c =? term) with false by (symmetry; now apply Z.eqb_neq).
    now rewrite IH.
Qed.

Lemma text_no_term str :
  Forall text_char str -> Forall (fun c => c <> PROT_TERM_CHAR) str.
Proof. intros H. eapply Forall_impl; [| exact H]. now intros c [_ Hc]. Qed.

Lemma putString_started r str s :
  started_ s = true ->
  fst (putString r str s) = true
  /\ tx (snd (putString r str s)) = tx s ++ cstr str ++ [PROT_TERM_CHAR]
  /\ rx (snd (putString r str s)) = rx s
  /\ started_ (snd (putString r str s)) = true.
Proof.
  intros Hs. unfold putString, strlen, bind.
  destruct (cstr str) as [| c t] eqn:E.
  - change (0 <? Z.of_nat (List.length (@nil Z))) with false. cbv iota. unfold ret.
    rewrite writeBuffer_started by exact Hs. unfold sent.
    cbn [fst snd tx rx started_]. repeat split; auto.
  - replace (0 <? Z.of_nat (List.length (c :: t))) with true
      by (symmetry; apply Z.ltb_lt; simpl; lia).
    rewrite writeBuffer_started by exact Hs.
    rewrite writeBuffer_started by exact Hs.
    unfold ret, sent. cbn [fst snd tx rx started_].
    rewrite <- app_assoc. repeat split; auto.
    apply Z.eqb_eq. simpl List.length. lia.
Qed.

Lemma putString_stopped r str s :
  started_ s = false -> putString r str s = (false, s).
Proof.
  intros Hs. unfold putString, strlen, bind.
  destruct (0 <? Z.of_nat (List.length (cstr str))) eqn:E.
  - rewrite !writeBuffer_stopped by exact Hs. unfold ret. f_equal.
    apply Z.eqb_neq. apply Z.ltb_lt in E. lia.
  - unfold ret. rewrite writeBuffer_stopped by exact Hs. f_equal.
    apply Z.eqb_neq. lia.
Qed.

Lemma getValue_string_text r prev str rest s :
  started_ s = true -> Forall (fun c => c <> PROT_TERM_CHAR) str ->
  rx s = str ++ PROT_TERM_CHAR :: rest ->
  getValue_string r prev s
  = (negb (Z.of_nat (List.length str) =? 0), str,
     mkSession (started_ s) (target_ s) rest (tx s) (log s ++ [EvRead str])).
Proof.
  intros Hs Hp Hrx.
  unfold getValue_string, readStringUntilTerminator, bind, hasStarted.
  rewrite Hs. cbn [negb]. destruct r.
  - rewrite Hrx, readStringUntil_text by exact Hp.
    unfold set_rx, ret. cbv beta iota. now rewrite ?Hs.
  - rewrite Hrx, GetSerialAnswer_text by exact Hp.
    unfold set_rx, ret. cbv beta iota. now rewrite ?Hs.
Qed.

(** [getString] on a text that is followed by its terminator. *)
Lemma getString_text r strbuf size str rest s :
  started_ s = true -> Forall (fun c => c <> PROT_TERM_CHAR) str ->
  rx s = str ++ PROT_TERM_CHAR :: rest ->
  getString r strbuf size s
  = (negb (Z.of_nat (List.length (firstn (Z.to_nat size) str)) =? 0),
     (let bytes := firstn (Z.to_nat size) str in
      let n := Z.of_nat (List.length bytes) in
      let b1 := copy_in bytes strbuf in
      let b2 := match r with
                | Host => if n <? size then store n 0 b1 else b1
                | Slave => b1
                end in
      if n <? size_t_wrap r (size - 1) then store n 0 b2 else b2),
     mkSession (started_ s) (target_ s)
       (match r with
        | Host => rest
        | Slave => if (List.length str <? Z.to_nat size)%nat then rest
                   else skipn (Z.to_nat size) str ++ PROT_TERM_CHAR :: rest
        end)
       (tx s) (log s ++ [EvRead (firstn (Z.to_nat size) str)])).
Proof.
  intros Hs Hp Hrx.
  unfold getString, readBufferUntilTerminator, bind, hasStarted.
  rewrite Hs. cbn [negb]. destruct r.
  - rewrite Hrx, readBytesUntil_bytes by exact Hp.
    unfold set_rx, ret. cbv beta iota. now rewrite ?Hs.
  - rewrite Hrx, GetSerialAnswer_text by exact Hp.
    unfold set_rx, ret. cbv beta iota. now rewrite ?Hs.
Qed.

Lemma size_t_wrap_small r v : 0 <= v < 2 ^ 16 -> size_t_wrap r v = v.
Proof.
  intros Hv. unfold size_t_wrap. apply Z.mod_small.
  destruct r; unfold size_t_bits; change (2 ^ 16) with 65536 in Hv;
    [change (2 ^ 16) with 65536 | change (2 ^ 64) with 18446744073709551616];
    lia.
Qed.

(** [getString] on a text that leaves room for a NUL and one more
    character. *)
Lemma getString_fits r str strbuf rest size s :
  Forall text_char str -> str <> [] -> started_ s = true ->
  rx s = str ++ PROT_TERM_CHAR :: rest ->
  Z.of_nat (List.length strbuf) = size -> size < 2 ^ 16 ->
  Z.of_nat (List.length str) < size - 1 ->
  exists buf,
    getString r strbuf size s = (true, buf, taken str rest s) /\ cstr buf = str.
Proof.
  intros Htext Hne Hs Hrx Hbuf Hsz Hlen.
  pose proof (text_no_term str Htext) as Hp.
  assert (Hpos : 0 < Z.of_nat (List.length str))
    by (destruct str; [congruence | simpl; lia]).
  rewrite (getString_text r strbuf size str rest s Hs Hp Hrx). cbv zeta.
  rewrite firstn_all2 by lia.
  replace (Z.of_nat (List.length str) =? 0) with false
    by (symmetry; apply Z.eqb_neq; lia).
  rewrite size_t_wrap_small by lia.
  replace (Z.of_nat (List.length str) <? size - 1) with true
    by (symmetry; apply Z.ltb_lt; lia).
  replace (Z.of_nat (List.length str) <? size) with true
    by (symmetry; apply Z.ltb_lt; lia).
  replace (List.length str <? Z.to_nat size)%nat with true
    by (symmetry; apply Nat.ltb_lt; lia).
  destruct (store_copy_in str strbuf ltac:(lia)) as [tail Htail].
  exists (str ++ 0 :: tail). split.
  - destruct r; rewrite Htail; [reflexivity | now rewrite store_twice].
  - rewrite cstr_app_nul. now apply text_cstr.
Qed.

(** [getString] on a text that is at least as long as the buffer. *)
Lemma getString_cut r str strbuf rest size s :
  Forall text_char str -> started_ s = true ->
  rx s = str ++ PROT_TERM_CHAR :: rest ->
  Z.of_nat (List.length strbuf) = size -> 0 < size < 2 ^ 16 ->
  size <= Z.of_nat (List.length str) ->
  getString r strbuf size s
  = (true, firstn (Z.to_nat size) str,
     taken (firstn (Z.to_nat size) str)
       (match r with
        | Host => rest
        | Slave => skipn (Z.to_nat size) str ++ PROT_TERM_CHAR :: rest
        end) s).
Proof.
  intros Htext Hs Hrx Hbuf Hsz Hlen.
  pose proof (text_no_term str Htext) as Hp.
  rewrite (getString_text r strbuf size str rest s Hs Hp Hrx). cbv zeta.
  assert (Hn : List.length (firstn (Z.to_nat size) str) = Z.to_nat size)
    by (rewrite length_firstn; lia).
  rewrite Hn, Z2Nat.id by lia.
  replace (size =? 0) with false by (symmetry; apply Z.eqb_neq; lia).
  rewrite size_t_wrap_small by lia.
  replace (size <? size - 1) with false by (symmetry; apply Z.ltb_ge; lia).
  rewrite Z.ltb_irrefl.
  replace (List.length str <? Z.to_nat size)%nat with false
    by (symmetry; apply Nat.ltb_ge; lia).
  assert (Hcopy : copy_in (firstn (Z.to_nat size) str) strbuf
                  = firstn (Z.to_nat size) str).
  { unfold copy_in. rewrite Hn, skipn_all2 by lia. apply app_nil_r. }
  rewrite Hcopy. unfold taken. cbn [negb]. now destruct r.
Qed.

(** X6: a string of characters other than NUL and the terminator that
    [putString] sends is what [getValue] for strings returns, and what
    [getString] leaves, NUL-terminated, in a buffer that has room for
    at least two characters more than the string; both calls return
    true and take the terminator from the stream. *)
Theorem string_roundtrip :
  forall (r r' : role) (str prev strbuf rest : list Z) (size : Z)
         (s s' : session),
    Forall text_char str -> str <> [] ->
    started_ s = true -> tx s = [] -> started_ s' = true ->
    rx s' = tx (snd (putString r str s)) ++ rest ->
    Z.of_nat (List.length strbuf) = size -> size < 2 ^ 16 ->
    Z.of_nat (List.length str) < size - 1 ->
    fst (putString r str s) = true
    /\ fst (getValue_string r' prev s') = (true, str)
    /\ rx (snd (getValue_string r' prev s')) = rest
    /\ fst (fst (getString r' strbuf size s')) = true
    /\ cstr (snd (fst (getString r' strbuf size s'))) = str
    /\ rx (snd (getString r' strbuf size s')) = rest.
Proof.
  intros r r' str prev strbuf rest size s s' Htext Hne Hs Htx Hs' Hrx Hbuf Hsz Hlen.
  destruct (putString_started r str s Hs) as [Hput [Hsent _]].
  rewrite Hsent, Htx, text_cstr in Hrx by exact Htext.
  cbn [app] in Hrx. rewrite <- app_assoc in Hrx. cbn [app] in Hrx.
  pose proof (text_no_term str Htext) as Hp.
  split; [exact Hput |].
  rewrite (getValue_string_text r' prev str rest s' Hs' Hp Hrx).
  destruct (getString_fits r' str strbuf rest size s' Htext Hne Hs' Hrx Hbuf Hsz Hlen)
    as [buf [-> Hcstr]].
  cbn [fst snd rx taken].
  replace (Z.of_nat (List.length str) =? 0) with false
    by (symmetry; apply Z.eqb_neq; destruct str; [congruence | simpl; lia]).
  repeat split; auto.
Qed.

Lemma string_roundtrip_witness :
  fst (putString Host (bytes_of_string "ok") (mkSession true true [] [] [])) = true
  /\ fst (getValue_string Slave (bytes_of_string "old")
            (mkSession true true (bytes_of_string "ok" ++ [PROT_TERM_CHAR; 65]) [] []))
     = (true, bytes_of_string "ok")
  /\ rx (snd (getValue_string Slave (bytes_of_string "old")
                (mkSession true true (bytes_of_string "ok" ++ [PROT_TERM_CHAR; 65]) [] [])))
     = [65]
  /\ fst (fst (getString Slave (repeat 0xff 4) 4
                 (mkSession true true (bytes_of_string "ok" ++ [PROT_TERM_CHAR; 65]) [] [])))
     = true
  /\ cstr (snd (fst (getString Slave (repeat 0xff 4) 4
                       (mkSession true true
                          (bytes_of_string "ok" ++ [PROT_TERM_CHAR; 65]) [] []))))
     = bytes_of_string "ok"
  /\ rx (snd (getString Slave (repeat 0xff 4) 4
                (mkSession true true (bytes_of_string "ok" ++ [PROT_TERM_CHAR; 65]) [] [])))
     = [65].
Proof.
  apply (string_roundtrip Host Slave (bytes_of_string "ok") (bytes_of_string "old")
           (repeat 0xff 4) [65] 4
           (mkSession true true [] [] [])
           (mkSession true true (bytes_of_string "ok" ++ [PROT_TERM_CHAR; 65]) [] []));
    try reflexivity.
  - repeat constructor; vm_compute; discriminate.
  - discriminate.
Defined.

(** X7: a string that fills a buffer up to its last place.  [getString]
    of the Arduino stores no NUL after it (it compares the number of
    bytes with [size - 1], not with [size]): the last place of the
    buffer keeps the byte it held, and the call returns true.  On the
    host the NUL is there, stored by [readBufferUntilTerminator]. *)
Theorem getString_exact_fit :
  forall (r : role) (str front rest : list Z) (b size : Z) (s : session),
    Forall text_char str -> str <> [] -> started_ s = true ->
    rx s = str ++ PROT_TERM_CHAR :: rest ->
    List.length front = List.length str ->
    size = Z.of_nat (List.length str) + 1 -> size < 2 ^ 16 ->
    fst (getString r (front ++ [b]) size s)
    = (true, str ++ [match r with Slave => b | Host => 0 end])
    /\ rx (snd (getString r (front ++ [b]) size s)) = rest.
Proof.
  intros r str front rest b size s Htext Hne Hs Hrx Hfront Hsize Hsz.
  pose proof (text_no_term str Htext) as Hp.
  assert (Hpos : 0 < Z.of_nat (List.length str))
    by (destruct str; [congruence | simpl; lia]).
  rewrite (getString_text r (front ++ [b]) size str rest s Hs Hp Hrx).
  cbn [fst snd rx]. rewrite firstn_all2 by lia.
  replace (Z.of_nat (List.length str) =? 0) with false
    by (symmetry; apply Z.eqb_neq; lia).
  rewrite size_t_wrap_small by lia.
  replace (Z.of_nat (List.length str) <? size - 1) with false
    by (symmetry; apply Z.ltb_ge; lia).
  replace (Z.of_nat (List.length str) <? size) with true
    by (symmetry; apply Z.ltb_lt; lia).
  assert (Hcopy : copy_in str (front ++ [b]) = str ++ [b]).
  { unfold copy_in. rewrite <- Hfront, skipn_app, skipn_all, Nat.sub_diag.
    reflexivity. }
  cbv zeta. rewrite Hcopy. split.
  - destruct r; [reflexivity |]. cbn [negb]. f_equal.
    unfold store.
    replace (Z.of_nat (List.length str) <? 0) with false
      by (symmetry; apply Z.ltb_ge; lia).
    rewrite Nat2Z.id. apply store_nat_app.
  - destruct r; [| reflexivity].
    replace (List.length str <? Z.to_nat size)%nat with true
      by (symmetry; apply Nat.ltb_lt; lia). reflexivity.
Qed.

Lemma getString_exact_fit_witness :
  fst (getString Slave (repeat 0xff 3 ++ [0xff]) 4
         (mkSession true true (bytes_of_string "abc" ++ PROT_TERM_CHAR :: []) [] []))
  = (true, bytes_of_string "abc" ++ [0xff])
  /\ rx (snd (getString Slave (repeat 0xff 3 ++ [0xff]) 4
                (mkSession true true
                   (bytes_of_string "abc" ++ PROT_TERM_CHAR :: []) [] [])))
     = [].
Proof.
  apply (getString_exact_fit Slave (bytes_of_string "abc") (repeat 0xff 3) []
           0xff 4
           (mkSession true true (bytes_of_string "abc" ++ PROT_TERM_CHAR :: []) [] []));
    try reflexivity.
  - repeat constructor; vm_compute; discriminate.
  - discriminate.
Defined.

(** X8: a string that is at least as long as the buffer is cut to the
    size of the buffer, without a NUL, and the call still returns
    true.  The host drops the characters that did not fit; the Arduino
    leaves them and the terminator in the stream. *)
Theorem getString_truncates :
  forall (r : role) (str strbuf rest : list Z) (size : Z) (s : session),
    Forall text_char str -> started_ s = true ->
    rx s = str ++ PROT_TERM_CHAR :: rest ->
    Z.of_nat (List.length strbuf) = size -> 0 < size < 2 ^ 16 ->
    size <= Z.of_nat (List.length str) ->
    fst (getString r strbuf size s) = (true, firstn (Z.to_nat size) str)
    /\ rx (snd (getString r strbuf size s))
       = match r with
         | Host => rest
         | Slave => skipn (Z.to_nat size) str ++ PROT_TERM_CHAR :: rest
         end.
Proof.
  intros r str strbuf rest size s Htext Hs Hrx Hbuf Hsz Hlen.
  rewrite (getString_cut r str strbuf rest size s Htext Hs Hrx Hbuf Hsz Hlen).
  split; reflexivity.
Qed.

Lemma getString_truncates_witness :
  fst (getString Slave (repeat 0 2) 2
         (mkSession true true (bytes_of_string "abc" ++ PROT_TERM_CHAR :: []) [] []))
  = (true, firstn (Z.to_nat 2) (bytes_of_string "abc"))
  /\ rx (snd (getString Slave (repeat 0 2) 2
                (mkSession true true
                   (bytes_of_string "abc" ++ PROT_TERM_CHAR :: []) [] [])))
     = skipn (Z.to_nat 2) (bytes_of_string "abc") ++ PROT_TERM_CHAR :: [].
Proof.
  apply (getString_truncates Slave (bytes_of_string "abc") (repeat 0 2) [] 2
           (mkSession true true (bytes_of_string "abc" ++ PROT_TERM_CHAR :: []) [] []));
    try reflexivity; try (simpl; lia).
  repeat constructor; vm_compute; discriminate.
Defined.

(** *** Strings in program memory *)

Lemma putString_P_loop_started str :
  forall n s,
    started_ s = true ->
    fst (putString_P_loop str n s) = n + Z.of_nat (List.length (cstr str))
    /\ tx (snd (putString_P_loop str n s)) = tx s ++ cstr str
    /\ rx (snd (putString_P_loop str n s)) = rx s
    /\ started_ (snd (putString_P_loop str n s)) = true.
Proof.
  induction str as [| ch str IH]; intros n s Hs.
  - simpl. rewrite app_nil_r. repeat split; auto; lia.
  - cbn [putString_P_loop cstr]. destruct (ch =? 0).
    + simpl. rewrite app_nil_r. repeat split; auto; lia.
    + unfold bind. rewrite writeByte_started by exact Hs. cbn [negb].
      destruct (IH (n + 1) (sent [ch] (EvWriteByte ch) s) Hs)
        as [H1 [H2 [H3 H4]]].
      rewrite H1, H2, H3, H4. unfold sent. cbn [tx rx List.length].
      rewrite <- app_assoc. repeat split; auto. lia.
Qed.

Lemma putString_P_loop_stopped str :
  forall n s,
    started_ s = false ->
    putString_P_loop str n s = (n, s).
Proof.
  destruct str as [| ch str]; intros n s Hs; [reflexivity |].
  cbn [putString_P_loop]. destruct (ch =? 0); [reflexivity |].
  unfold bind. now rewrite writeByte_stopped by exact Hs.
Qed.

Lemma putString_P_run :
  forall (str : list Z) (s : session),
    fst (putString_P str s) = fst (putString Slave str s)
    /\ tx (snd (putString_P str s)) = tx (snd (putString Slave str s))
    /\ rx (snd (putString_P str s)) = rx (snd (putString Slave str s))
    /\ tx (snd (putString_P str s))
       = tx s ++ (if started_ s then cstr str ++ [PROT_TERM_CHAR] else [])
    /\ log (snd (putString_P str s))
       = log s ++ (if started_ s
                   then map EvWriteByte (cstr str ++ [PROT_TERM_CHAR]) else []).
Proof.
  intros str s. destruct (started_ s) eqn:Hs.
  - destruct (putString_started Slave str s Hs) as [P1 [P2 [P3 _]]].
    rewrite P1, P2, P3.
    assert (Hlog : forall str n s,
               started_ s = true ->
               log (snd (putString_P_loop str n s))
               = log s ++ map EvWriteByte (cstr str)).
    { clear. induction str as [| ch str IH]; intros n s Hs.
      - simpl. now rewrite app_nil_r.
      - cbn [putString_P_loop cstr]. destruct (ch =? 0).
        + simpl. now rewrite app_nil_r.
        + unfold bind. rewrite writeByte_started by exact Hs. cbn [negb].
          rewrite IH by exact Hs. unfold sent. cbn [log map].
          now rewrite <- app_assoc. }
    unfold putString_P, bind, strlen.
    destruct (putString_P_loop_started str 0 s Hs) as [H1 [H2 [H3 H4]]].
    specialize (Hlog str 0 s Hs).
    destruct (putString_P_loop str 0 s) as [n s1]. cbn [fst snd] in *.
    rewrite writeByte_started by exact H4. unfold ret.
    unfold sent. cbn [fst snd tx rx log]. rewrite H1, H2, H3, Hlog.
    rewrite <- !app_assoc, map_app. cbn [map].
    repeat split; auto. apply Z.eqb_eq. lia.
  - rewrite putString_stopped by exact Hs.
    unfold putString_P, bind, strlen.
    rewrite putString_P_loop_stopped by exact Hs.
    rewrite writeByte_stopped by exact Hs. unfold ret. cbn [fst snd].
    rewrite !app_nil_r.
    split; [apply Z.eqb_neq; lia |]. repeat split; reflexivity.
Qed.

(** X9: [putString_P] puts the bytes of [putString] on the wire and
    returns the same value, in a session that has started and in one
    that has not; it writes them one [writeByte] at a time.  So
    [processGetString_P] answers as [processGetString] does. *)
Theorem putString_P_as_putString :
  forall (cmd : Z) (str : list Z) (s : session),
    fst (putString_P str s) = fst (putString Slave str s)
    /\ tx (snd (putString_P str s)) = tx (snd (putString Slave str s))
    /\ tx (snd (putString_P str s))
       = tx s ++ (if started_ s then cstr str ++ [PROT_TERM_CHAR] else [])
    /\ log (snd (putString_P str s))
       = log s ++ (if started_ s
                   then map EvWriteByte (cstr str ++ [PROT_TERM_CHAR]) else [])
    /\ fst (processGetString_P cmd str s)
       = fst (processGetString Slave cmd str None s)
    /\ tx (snd (processGetString_P cmd str s))
       = tx (snd (processGetString Slave cmd str None s)).
Proof.
  intros cmd str s.
  destruct (putString_P_run str s) as [H1 [H2 [_ [H4 H5]]]].
  repeat split; auto.
  - unfold processGetString_P, processGetString. mstep.
    destruct (reply Slave cmd s) as [ok s1]. destruct ok; [| reflexivity].
    apply putString_P_run.
  - unfold processGetString_P, processGetString. mstep.
    destruct (reply Slave cmd s) as [ok s1]. destruct ok; [| reflexivity].
    apply putString_P_run.
Qed.

End StringsMore.

(** * Requests and replies *)

Module FrameMore.
Import Hex Wire Codec CodecMore StringsMore.

(** *** Sessions *)

Lemma tx_sent bs e s : tx (sent bs e s) = tx s ++ bs.
Proof. reflexivity. Qed.

Lemma rx_sent bs e s : rx (sent bs e s) = rx s.
Proof. reflexivity. Qed.

Lemma started_sent bs e s : started_ (sent bs e s) = started_ s.
Proof. reflexivity. Qed.

Lemma target_sent bs e s : target_ (sent bs e s) = target_ s.
Proof. reflexivity. Qed.

Lemma tx_taken b rest s : tx (taken b rest s) = tx s.
Proof. reflexivity. Qed.

Lemma rx_taken b rest s : rx (taken b rest s) = rest.
Proof. reflexivity. Qed.

Lemma started_taken b rest s : started_ (taken b rest s) = started_ s.
Proof. reflexivity. Qed.

Lemma target_taken b rest s : target_ (taken b rest s) = target_ s.
Proof. reflexivity. Qed.

Create Rewrite HintDb session.
#[export] Hint Rewrite tx_sent rx_sent started_sent target_sent
  tx_taken rx_taken started_taken target_taken
  received_tx received_started received_target : session.

(** *** Payloads that leave room in the read buffer *)

Lemma ultoa_seven_digits m :
  0 <= m < 2 ^ 28 -> (List.length (ultoa m 16) <= 7)%nat.
Proof.
  intros Hm. unfold ultoa.
  rewrite Z.mod_small by (change (2 ^ 28) with 268435456 in Hm;
                          change (2 ^ 32) with 4294967296; lia).
  destruct (ultoa_loop_spec 7 32 m []) as [ds [Heq [_ [Hlen _]]]];
    [lia | exact Hm |].
  rewrite app_nil_r in Heq. now rewrite Heq.
Qed.

Lemma print_value_short r T v :
  in_range T v -> - 2 ^ 28 < v ->
  (List.length (print_value r T v) <= 8)%nat.
Proof.
  intros Hr Hv. destruct (Z.lt_ge_cases v 0) as [Hneg | Hpos].
  - destruct (print_value_negative r T v Hr Hneg) as [_ ->].
    cbn [List.length]. pose proof (ultoa_seven_digits (- v)). lia.
  - rewrite print_value_digits by assumption.
    assert (Hm : 0 <= v < 2 ^ 32) by (destruct T; casts; lia).
    destruct (ultoa_spec v Hm) as [_ [Hlen _]]. lia.
Qed.

Lemma left_over_short r p rest :
  (List.length p <= 8)%nat -> left_over r p rest = rest.
Proof.
  intros Hp. destruct r; [| reflexivity]. unfold left_over.
  change (PROT_HEX_BUFF_SIZE - 1) with 9.
  replace (Z.of_nat (List.length p) <? 9) with true
    by (symmetry; apply Z.ltb_lt; lia). reflexivity.
Qed.

(** *** Single steps, with the session they leave *)

Lemma getValue_value r r0 T v rest s :
  started_ s = true -> in_range T v -> - 2 ^ 28 < v ->
  rx s = payload r0 T v ++ rest ->
  getValue r T s = (Some v, taken (print_value r0 T v) rest s).
Proof.
  intros Hs Hr Hv Hrx.
  pose proof (getValue_payload r0 r T v rest s Hs Hr Hrx) as Hfst.
  destruct (print_value_text r0 T v Hr) as [Htext Hlen].
  pose proof (print_value_short r0 T v Hr Hv) as Hshort.
  rewrite payload_text, <- app_assoc in Hrx by exact Hr. cbn [app] in Hrx.
  rewrite (getValue_bytes r T _ rest s Hs (text_no_term _ Htext) Hrx) in *.
  cbn [fst] in Hfst. rewrite Hfst. unfold taken.
  rewrite left_over_short by exact Hshort.
  rewrite firstn_all2 by lia. reflexivity.
Qed.

Lemma getValue_timeout r T s :
  started_ s = true -> rx s = [] ->
  getValue r T s = (None, taken [] [] s).
Proof.
  intros Hs Hrx. rewrite getValue_started by exact Hs.
  unfold received. rewrite Hrx. destruct r; reflexivity.
Qed.

Lemma reply_started r cmd s :
  started_ s = true ->
  reply r cmd s
  = (true, sent (payload r prot_cmd_t cmd)
             (EvWriteBuffer (payload r prot_cmd_t cmd)) s).
Proof. intros Hs. unfold reply. now apply putValue_started. Qed.

Lemma replyError_started r s :
  started_ s = true ->
  replyError r s
  = (false, sent (payload r prot_cmd_t PROT_ERROR)
              (EvWriteBuffer (payload r prot_cmd_t PROT_ERROR)) s).
Proof.
  intros Hs. unfold replyError, bind. now rewrite putValue_started by exact Hs.
Qed.

Lemma error_in_range : in_range prot_cmd_t PROT_ERROR.
Proof. unfold prot_cmd_t, PROT_ERROR, ASCII_NAK. casts. lia. Qed.

Lemma cmd_fits cmd : in_range prot_cmd_t cmd -> - 2 ^ 28 < cmd.
Proof.
  intros H. unfold prot_cmd_t in H. casts.
  change (2 ^ 28) with 268435456. lia.
Qed.

Lemma checkReply_value r r0 cmd answer rest s :
  started_ s = true -> in_range prot_cmd_t answer ->
  rx s = payload r0 prot_cmd_t answer ++ rest ->
  checkReply r cmd s
  = (answer =? cmd, taken (print_value r0 prot_cmd_t answer) rest s).
Proof.
  intros Hs Ha Hrx. unfold checkReply. mstep.
  now rewrite (getValue_value r r0 prot_cmd_t answer rest s Hs Ha (cmd_fits _ Ha) Hrx).
Qed.

Lemma checkReply_timeout r cmd s :
  started_ s = true -> rx s = [] ->
  checkReply r cmd s = (false, taken [] [] s).
Proof.
  intros Hs Hrx. unfold checkReply. mstep.
  now rewrite getValue_timeout.
Qed.

Lemma hasCommand_byte c rest s :
  started_ s = true -> rx s = c :: rest -> hasCommand Slave s = (true, s).
Proof.
  intros Hs Hrx. unfold hasCommand, hasByte, bind, hasStarted.
  rewrite Hs. cbn [negb]. cbv beta. rewrite Hrx. reflexivity.
Qed.

Lemma getCommand_byte c rest s :
  started_ s = true -> in_range prot_cmd_t c -> rx s = c :: rest ->
  getCommand Slave s
  = (c, mkSession (started_ s) (target_ s) rest (tx s) (log s)).
Proof.
  intros Hs Hc Hrx. unfold getCommand, readByte, bind, hasStarted.
  rewrite Hs. cbn [negb]. cbv beta. rewrite Hrx. unfold ret.
  rewrite (static_cast_in_range prot_byte_t c Hc).
  rewrite (static_cast_in_range prot_cmd_t c Hc).
  now rewrite ?Hs.
Qed.

(** [serve] on a handler without a result is [loop()] of the sketch. *)
Lemma serve_is_loop cmd (process : M unit) s :
  serve cmd process tt s = loop (doProcessCommand cmd process) s.
Proof.
  unfold serve, loop, bind. destruct (hasCommand Slave s) as [has s1].
  destruct has; [| reflexivity].
  destruct (getCommand Slave s1) as [c s2].
  unfold processCommand, doProcessCommand. destruct (target_ s2); reflexivity.
Qed.

(** A turn of the device on a request for its command. *)
Lemma serve_request {A} cmd (process : M A) idle rest s :
  started_ s = true -> target_ s = true -> in_range prot_cmd_t cmd ->
  rx s = cmd :: rest ->
  serve cmd process idle s
  = process (mkSession (started_ s) (target_ s) rest (tx s) (log s)).
Proof.
  intros Hs Ht Hc Hrx. unfold serve, bind.
  rewrite (hasCommand_byte cmd rest s Hs Hrx).
  rewrite (getCommand_byte cmd rest s Hs Hc Hrx).
  cbn [target_]. rewrite Ht. now rewrite Z.eqb_refl.
Qed.

Lemma left_over_value r r0 T v rest :
  in_range T v ->
  left_over r (print_value r0 T v) rest
  = match r with
    | Host => rest
    | Slave => if v <=? - 2 ^ 28 then PROT_TERM_CHAR :: rest else rest
    end.
Proof.
  intros Hr. destruct r; [| reflexivity].
  destruct (v <=? - 2 ^ 28) eqn:E.
  - apply Z.leb_le in E.
    assert (Hneg : v < 0) by (change (2 ^ 28) with 268435456 in E; lia).
    destruct (print_value_negative r0 T v Hr Hneg) as [Hsg Hpv].
    assert (Hlen : List.length (print_value r0 T v) = 9%nat).
    { rewrite Hpv. cbn [List.length]. rewrite ultoa_eight_digits; [reflexivity |].
      pose proof (in_range_long T v Hr) as Hl. rewrite Hsg in Hl. casts.
      change (2 ^ 28) with 268435456 in *. lia. }
    unfold left_over. rewrite Hlen. change (PROT_HEX_BUFF_SIZE - 1) with 9.
    change (Z.of_nat 9 <? 9) with false. cbv iota.
    rewrite skipn_all2 by (rewrite Hlen; simpl; lia). reflexivity.
  - apply Z.leb_gt in E. apply left_over_short.
    now apply print_value_short.
Qed.

(** [getValue] on the payload of a value, whatever its length. *)
Lemma getValue_any_value r r0 T v rest s :
  started_ s = true -> in_range T v ->
  rx s = payload r0 T v ++ rest ->
  getValue r T s
  = (Some v, taken (print_value r0 T v)
               (left_over r (print_value r0 T v) rest) s).
Proof.
  intros Hs Hr Hrx.
  pose proof (getValue_payload r0 r T v rest s Hs Hr Hrx) as Hfst.
  destruct (print_value_text r0 T v Hr) as [Htext Hlen].
  rewrite payload_text, <- app_assoc in Hrx by exact Hr. cbn [app] in Hrx.
  rewrite (getValue_bytes r T _ rest s Hs (text_no_term _ Htext) Hrx) in *.
  cbn [fst] in Hfst. rewrite Hfst. unfold taken.
  rewrite firstn_all2 by lia. reflexivity.
Qed.

(** *** Replies *)

(** X10: [checkReply] tells the reply to a command from an error reply,
    but not for the command [0x15]: its value is the error code, and
    the error reply to it is taken for the good one. *)
Theorem checkReply_tells_reply_from_error :
  forall (r r0 : role) (cmd : Z) (ok : bool) (rest : list Z) (s0 s : session),
    in_range prot_cmd_t cmd ->
    started_ s0 = true -> tx s0 = [] -> started_ s = true ->
    rx s = tx (snd ((if ok then reply r0 cmd else replyError r0) s0)) ++ rest ->
    fst (checkReply r cmd s) = ok || (cmd =? PROT_ERROR)
    /\ rx (snd (checkReply r cmd s)) = rest.
Proof.
  intros r r0 cmd ok rest s0 s Hc Hs0 Htx Hs Hrx.
  destruct ok.
  - rewrite reply_started in Hrx by exact Hs0. cbn [snd] in Hrx.
    rewrite tx_sent, Htx in Hrx. cbn [app] in Hrx.
    rewrite (checkReply_value r r0 cmd cmd rest s Hs Hc Hrx).
    cbn [fst snd]. now rewrite Z.eqb_refl, rx_taken.
  - rewrite replyError_started in Hrx by exact Hs0. cbn [snd] in Hrx.
    rewrite tx_sent, Htx in Hrx. cbn [app] in Hrx.
    rewrite (checkReply_value r r0 cmd PROT_ERROR rest s Hs error_in_range Hrx).
    cbn [fst snd orb]. now rewrite rx_taken, Z.eqb_sym.
Qed.

Lemma checkReply_tells_reply_from_error_witness :
  fst (checkReply Host 0x15
         (mkSession true true (bytes_of_string "15" ++ [PROT_TERM_CHAR]) [] []))
  = false || (0x15 =? PROT_ERROR)
  /\ rx (snd (checkReply Host 0x15
                (mkSession true true (bytes_of_string "15" ++ [PROT_TERM_CHAR]) [] [])))
     = [].
Proof.
  apply (checkReply_tells_reply_from_error Host Slave 0x15 false []
           (mkSession true true [] [] [])
           (mkSession true true (bytes_of_string "15" ++ [PROT_TERM_CHAR]) [] []));
    try reflexivity.
  unfold in_range. simpl. lia.
Defined.

(** X11: once [endProtocol] has run, every request of the initiator
    fails at its first write: nothing is sent and nothing is read.
    The responder sees no command, [getCommand] gives the error code
    and no handler runs. *)
Theorem no_traffic_after_endProtocol :
  forall (r : role) (T : ctype) (cmd v chan size maxSize size0 : Z)
         (str pt : list Z) (process : M bool) (s0 : session),
    let s := snd (endProtocol r s0) in
    dispatchTask r cmd s = (false, s)
    /\ dispatchSet r T cmd v s = (false, s)
    /\ dispatchGet r T cmd s = (None, s)
    /\ dispatchSetString r cmd str s = (false, s)
    /\ dispatchGet_string r cmd str s = (false, str, s)
    /\ dispatchChannelTask r cmd chan s = (false, s)
    /\ dispatchChannelSet r T cmd chan v s = (false, s)
    /\ dispatchChannelGet r T cmd chan s = (None, s)
    /\ dispatchSetArray r T cmd pt size s = (false, s)
    /\ dispatchGetArray r T cmd pt maxSize size0 s = (false, pt, size0, s)
    /\ hasCommand r s = (false, s)
    /\ getCommand r s = (PROT_ERROR, s)
    /\ serve cmd process false s = (false, s).
Proof.
  intros r T cmd v chan size maxSize size0 str pt process s0 s.
  assert (Hs : started_ s = false) by (subst s; now destruct r).
  clearbody s.
  assert (Hhas : forall r', hasCommand r' s = (false, s)).
  { intros r'. unfold hasCommand, hasByte, bind, hasStarted.
    destruct r'; [now rewrite Hs | reflexivity]. }
  repeat split;
    try (unfold dispatchTask, dispatchSet, dispatchGet, dispatchSetString,
           dispatchGet_string, dispatchChannelTask, dispatchChannelSet,
           dispatchChannelGet, dispatchSetArray, dispatchGetArray,
           putChannelCommand;
         mstep; now rewrite putCommand_stopped by exact Hs).
  - apply Hhas.
  - unfold getCommand, readByte, bind, hasStarted.
    destruct r; [now rewrite Hs | reflexivity].
  - unfold serve, bind. now rewrite Hhas.
Qed.

(** *** A set request and its handler *)

(** X12: [dispatchSet] on the host against [processSet] with a setter
    on the Arduino.  The setter is called with the value that was
    sent, and the host returns what the setter returned; for the
    command [0x15] the host returns true in either case.  The host
    has read all of the answer.  The Arduino has read all of the
    request unless the value is a 32-bit integer of at most
    [-0x10000000]: then the terminator of its payload is left in the
    stream. *)
Theorem set_exchange :
  forall (T : ctype) (cmd v : Z) (accept : Z -> bool) (h a : session),
    in_range prot_cmd_t cmd -> in_range T v ->
    started_ h = true -> tx h = [] ->
    started_ a = true -> target_ a = true -> tx a = [] ->
    rx a = tx (snd (dispatchSet Host T cmd v h)) ->
    rx h = tx (snd (serve cmd (processSet_fn Slave T cmd (fun t => ret (accept t)))
                  false a)) ->
    fst (dispatchSet Host T cmd v h) = accept v || (cmd =? PROT_ERROR)
    /\ rx (snd (dispatchSet Host T cmd v h)) = []
    /\ rx (snd (serve cmd (processSet_fn Slave T cmd (fun t => ret (accept t)))
                  false a))
       = if v <=? - 2 ^ 28 then [PROT_TERM_CHAR] else [].
Proof.
  intros T cmd v accept h a Hc Hv Hh Htxh Ha Hta Htxa Hrxa Hrxh.
  (* what the host sends *)
  assert (Hsends : forall s, started_ s = true ->
            test (putCommand Host cmd &&> putValue Host T v &&> checkReply Host cmd) s
            = checkReply Host cmd
                (sent (payload Host T v) (EvWriteBuffer (payload Host T v))
                   (sent [cmd] (EvWriteByte cmd) s))).
  { intros s Hs. mstep. rewrite putCommand_started by exact Hs.
    rewrite (static_cast_in_range prot_byte_t cmd Hc).
    now rewrite putValue_started by exact Hs. }
  unfold dispatchSet in *. rewrite Hsends in * by exact Hh.
  set (h1 := sent (payload Host T v) _ _) in *.
  assert (Hh1 : started_ h1 = true) by exact Hh.
  assert (Htx1 : tx h1 = cmd :: payload Host T v)
    by (subst h1; rewrite !tx_sent, Htxh; reflexivity).
  assert (Htxc : tx (snd (checkReply Host cmd h1)) = tx h1).
  { rewrite (Arrays.checkReply_started Host cmd h1 Hh1). cbn [snd].
    apply received_tx. }
  rewrite Htxc, Htx1 in Hrxa.
  (* what the Arduino does with it *)
  rewrite (serve_request cmd _ false (payload Host T v) a Ha Hta Hc Hrxa) in *.
  set (a1 := mkSession (started_ a) (target_ a) (payload Host T v) (tx a) (log a)) in *.
  assert (Hrx1 : rx a1 = payload Host T v ++ []) by (now rewrite app_nil_r).
  assert (Hrun : processSet_fn Slave T cmd (fun t => ret (accept t)) a1
                 = (accept v, sent (payload Slave prot_cmd_t (if accept v then cmd else PROT_ERROR))
                          (EvWriteBuffer (payload Slave prot_cmd_t
                                            (if accept v then cmd else PROT_ERROR)))
                          (taken (print_value Host T v)
                             (left_over Slave (print_value Host T v) []) a1))).
  { unfold processSet_fn, bind.
    rewrite (getValue_any_value Slave Host T v [] a1 Ha Hv Hrx1).
    unfold call_task. rewrite target_taken. cbn [target_ a1]. subst a1. cbn [target_].
    rewrite Hta. unfold ret at 1.
    destruct (accept v).
    - now rewrite reply_started by exact Ha.
    - now rewrite replyError_started by exact Ha. }
  rewrite Hrun in *. cbn [snd] in *.
  rewrite tx_sent, tx_taken in Hrxh. subst a1. cbn [tx] in Hrxh.
  rewrite Htxa in Hrxh. cbn [app] in Hrxh.
  rewrite rx_sent, rx_taken, (left_over_value Slave Host T v [] Hv).
  assert (Hrxh1 : rx h1 = payload Slave prot_cmd_t
                            (if accept v then cmd else PROT_ERROR) ++ [])
    by (rewrite app_nil_r; exact Hrxh).
  assert (Hans : in_range prot_cmd_t (if accept v then cmd else PROT_ERROR))
    by (destruct (accept v); [exact Hc | exact error_in_range]).
  rewrite (checkReply_value Host Slave cmd _ [] h1 Hh1 Hans Hrxh1).
  cbn [fst snd]. rewrite rx_taken. repeat split.
  destruct (accept v); cbn [orb]; [apply Z.eqb_refl | apply Z.eqb_sym].
Qed.

Lemma set_exchange_witness :
  fst (dispatchSet Host prot_long_t 0x41 (- 2 ^ 31)
         (mkSession true true (bytes_of_string "15" ++ [PROT_TERM_CHAR]) [] []))
  = (fun t => 0 <=? t) (- 2 ^ 31) || (0x41 =? PROT_ERROR)
  /\ rx (snd (dispatchSet Host prot_long_t 0x41 (- 2 ^ 31)
                (mkSession true true (bytes_of_string "15" ++ [PROT_TERM_CHAR]) [] [])))
     = []
  /\ rx (snd (serve 0x41 (processSet_fn Slave prot_long_t 0x41
                            (fun t => ret ((fun t => 0 <=? t) t)))
                false
                (mkSession true true
                   (0x41 :: bytes_of_string "-80000000" ++ [PROT_TERM_CHAR]) [] [])))
     = if - 2 ^ 31 <=? - 2 ^ 28 then [PROT_TERM_CHAR] else [].
Proof.
  apply (set_exchange prot_long_t 0x41 (- 2 ^ 31) (fun t => 0 <=? t)
           (mkSession true true (bytes_of_string "15" ++ [PROT_TERM_CHAR]) [] [])
           (mkSession true true
              (0x41 :: bytes_of_string "-80000000" ++ [PROT_TERM_CHAR]) [] []));
    try reflexivity.
  - unfold in_range. simpl. lia.
  - unfold in_range. simpl. lia.
Defined.

(** *** A get request and its handler *)

(** X13: [dispatchGet] on the host against [processGet] with a getter
    on the Arduino.  The host returns the value of the getter and
    true, or false when the getter returned false, also for the
    command [0x15]; it has then read all of the answer. *)
Theorem get_exchange :
  forall (T : ctype) (cmd : Z) (value : option Z) (h a : session),
    in_range prot_cmd_t cmd ->
    (forall v, value = Some v -> in_range T v) ->
    started_ h = true -> tx h = [] ->
    started_ a = true -> target_ a = true -> tx a = [] ->
    rx a = tx (snd (dispatchGet Host T cmd h)) ->
    rx h = tx (snd (serve cmd (processGet_fn Slave T cmd (ret value)) false a)) ->
    fst (dispatchGet Host T cmd h) = value
    /\ rx (snd (dispatchGet Host T cmd h)) = []
    /\ fst (serve cmd (processGet_fn Slave T cmd (ret value)) false a)
       = match value with Some _ => true | None => false end.
Proof.
  intros T cmd value h a Hc Hv Hh Htxh Ha Hta Htxa Hrxa Hrxh.
  set (h1 := sent [cmd] (EvWriteByte cmd) h).
  assert (Hh1 : started_ h1 = true) by exact Hh.
  assert (Hsends : dispatchGet Host T cmd h
                   = (ok <- checkReply Host cmd ;;
                      if ok then getValue Host T else ret None) h1).
  { unfold dispatchGet. mstep. rewrite putCommand_started by exact Hh.
    now rewrite (static_cast_in_range prot_byte_t cmd Hc). }
  assert (Htx : tx (snd (dispatchGet Host T cmd h)) = [cmd]).
  { rewrite Hsends. unfold bind.
    rewrite (Arrays.checkReply_started Host cmd h1 Hh1).
    destruct (reply_okb cmd _).
    - rewrite getValue_started by (now rewrite received_started).
      cbn [snd]. rewrite !received_tx. subst h1. now rewrite tx_sent, Htxh.
    - unfold ret. cbn [snd]. rewrite received_tx. subst h1.
      now rewrite tx_sent, Htxh. }
  rewrite Htx in Hrxa.
  rewrite (serve_request cmd _ false [] a Ha Hta Hc Hrxa) in *.
  set (a1 := mkSession (started_ a) (target_ a) [] (tx a) (log a)) in *.
  assert (Ha1 : started_ a1 = true) by exact Ha.
  rewrite Hsends. unfold bind.
  unfold processGet_fn, bind, call_target in *. cbn [target_ a1] in *.
  subst a1. cbn [target_] in *. rewrite Hta in *. unfold ret at 1.
  unfold ret at 1 in Hrxh.
  destruct value as [v |].
  - specialize (Hv v eq_refl). mstep.
    cbv beta iota delta [bind ret test and_then negb] in Hrxh.
    rewrite reply_started in * by exact Ha.
    rewrite putValue_started in * by exact Ha.
    cbn [fst snd] in *. rewrite !tx_sent in Hrxh. cbn [tx] in Hrxh.
    rewrite Htxa in Hrxh. cbn [app] in Hrxh.
    rewrite (checkReply_value Host Slave cmd cmd (payload Slave T v) h1 Hh1 Hc Hrxh).
    rewrite Z.eqb_refl.
    set (h2 := taken _ _ h1).
    assert (Hrx2 : rx h2 = payload Slave T v ++ []) by (now rewrite app_nil_r).
    rewrite (getValue_any_value Host Slave T v [] h2 Hh Hv Hrx2).
    cbn [fst snd]. rewrite rx_taken. now rewrite left_over_value by exact Hv.
  - rewrite replyError_started in * by exact Ha. cbn [fst snd] in *.
    rewrite tx_sent in Hrxh. cbn [tx] in Hrxh. rewrite Htxa in Hrxh.
    cbn [app] in Hrxh.
    assert (Hrx1 : rx h1 = payload Slave prot_cmd_t PROT_ERROR ++ [])
      by (rewrite app_nil_r; exact Hrxh).
    rewrite (checkReply_value Host Slave cmd PROT_ERROR [] h1 Hh1 error_in_range Hrx1).
    assert (Hserved : forall s0, started_ s0 = true ->
              fst (let (a0, s') := ret (@None Z) s0 in
                   match a0 with
                   | Some t_val => test (reply Slave cmd &&> putValue Slave T t_val)
                   | None => replyError Slave
                   end s') = false).
    { intros s0 Hs0. unfold ret. now rewrite replyError_started by exact Hs0. }
    rewrite Hserved by exact Ha.
    destruct (PROT_ERROR =? cmd).
    + rewrite getValue_timeout by (reflexivity || exact Hh). now cbn.
    + now cbn.
Qed.

Lemma get_exchange_witness :
  fst (dispatchGet Host prot_size_t 0x15
         (mkSession true true (bytes_of_string "15" ++ [PROT_TERM_CHAR]) [] []))
  = None
  /\ rx (snd (dispatchGet Host prot_size_t 0x15
                (mkSession true true (bytes_of_string "15" ++ [PROT_TERM_CHAR]) [] [])))
     = []
  /\ fst (serve 0x15 (processGet_fn Slave prot_size_t 0x15 (ret None)) false
            (mkSession true true [0x15] [] []))
     = false.
Proof.
  apply (get_exchange prot_size_t 0x15 None
           (mkSession true true (bytes_of_string "15" ++ [PROT_TERM_CHAR]) [] [])
           (mkSession true true [0x15] [] []));
    try reflexivity.
  - unfold in_range. simpl. lia.
  - discriminate.
Defined.

(** *** Strings *)

Lemma processGetString_started cmd str s :
  started_ s = true ->
  processGetString Slave cmd str None s
  = (true, snd (putString Slave str
                  (sent (payload Slave prot_cmd_t cmd)
                     (EvWriteBuffer (payload Slave prot_cmd_t cmd)) s))).
Proof.
  intros Hs. unfold processGetString. mstep.
  rewrite reply_started by exact Hs.
  destruct (putString_started Slave str (sent (payload Slave prot_cmd_t cmd)
              (EvWriteBuffer (payload Slave prot_cmd_t cmd)) s) Hs) as [H _].
  destruct (putString Slave str _) as [b s']. cbn [fst snd] in *. now subst b.
Qed.

(** X14: [dispatchGetString] does not fit [processGetString].  The
    handler sends its reply and then the string; [dispatchGetString]
    reads the string first and then the reply.  So the buffer of the
    host receives the digits of the command, and the call returns
    true only when the string, read as a number, is the command.
    [dispatchGet] for a string reads in the order of the handler and
    returns the string. *)
Theorem getString_exchange_out_of_order :
  forall (cmd size : Z) (str strbuf t : list Z) (h a : session),
    in_range prot_cmd_t cmd -> Forall text_char str -> str <> [] ->
    started_ h = true -> tx h = [] ->
    started_ a = true -> target_ a = true -> tx a = [] ->
    Z.of_nat (List.length strbuf) = size -> 9 < size < 2 ^ 16 ->
    rx a = [cmd] ->
    rx h = tx (snd (serve cmd (processGetString Slave cmd str None) false a)) ->
    tx (snd (dispatchGetString Host cmd strbuf size h)) = [cmd]
    /\ fst (fst (dispatchGetString Host cmd strbuf size h))
       = (scan_value prot_cmd_t (cstr (firstn 9 str)) =? cmd)
    /\ cstr (snd (fst (dispatchGetString Host cmd strbuf size h)))
       = print_value Slave prot_cmd_t cmd
    /\ tx (snd (dispatchGet_string Host cmd t h)) = [cmd]
    /\ fst (dispatchGet_string Host cmd t h) = (true, str).
Proof.
  intros cmd size str strbuf t h a Hc Htext Hne Hh Htxh Ha Hta Htxa Hbuf Hsz
         Hrxa Hrxh.
  rewrite (serve_request cmd _ false [] a Ha Hta Hc Hrxa) in Hrxh.
  rewrite processGetString_started in Hrxh by exact Ha. cbn [snd] in Hrxh.
  destruct (putString_started Slave str
              (sent (payload Slave prot_cmd_t cmd)
                 (EvWriteBuffer (payload Slave prot_cmd_t cmd))
                 (mkSession (started_ a) (target_ a) [] (tx a) (log a))) Ha)
    as [_ [Hsent _]].
  rewrite Hsent, tx_sent in Hrxh. cbn [tx] in Hrxh. rewrite Htxa in Hrxh.
  rewrite text_cstr in Hrxh by exact Htext. cbn [app] in Hrxh.
  pose proof (text_no_term str Htext) as Hp.
  destruct (print_value_text Slave prot_cmd_t cmd Hc) as [Hctext Hclen].
  pose proof (text_no_term _ Hctext) as Hcp.
  pose proof (print_value_short Slave prot_cmd_t cmd Hc (cmd_fits cmd Hc)) as Hshort.
  set (h1 := sent [cmd] (EvWriteByte cmd) h).
  assert (Hh1 : started_ h1 = true) by exact Hh.
  assert (Htx1 : tx h1 = [cmd]) by (subst h1; now rewrite tx_sent, Htxh).
  assert (Hput : putCommand Host cmd h = (true, h1)).
  { rewrite putCommand_started by exact Hh.
    now rewrite (static_cast_in_range prot_byte_t cmd Hc). }
  split; [| split; [| split; [| split]]].
  - (* the request *)
    unfold dispatchGetString, bind. rewrite Hput. cbn [negb].
    destruct (getString Host strbuf size h1) as [[ok buf] h2] eqn:E.
    assert (Hh2 : started_ h2 = true /\ tx h2 = [cmd]).
    { unfold getString, readBufferUntilTerminator, bind, hasStarted in E.
      rewrite Hh1 in E. cbn [negb] in E. cbv beta in E.
      destruct (GetSerialAnswer PROT_TERM_CHAR (rx h1)) as [[ans d] |];
        unfold set_rx, ret in E; injection E as _ _ <-; cbn [started_ tx]; auto. }
    destruct Hh2 as [Hh2 Htx2]. destruct ok; cbn [negb]; [| exact Htx2].
    rewrite (Arrays.checkReply_started Host cmd h2 Hh2). unfold ret. cbn [snd].
    now rewrite received_tx.
  - (* the return value *)
    unfold dispatchGetString, bind. rewrite Hput. cbn [negb].
    assert (Hrx1 : rx h1 = print_value Slave prot_cmd_t cmd
                           ++ PROT_TERM_CHAR :: str ++ [PROT_TERM_CHAR]).
    { change (rx h1) with (rx h). rewrite Hrxh, payload_text by exact Hc.
      now rewrite <- app_assoc. }
    rewrite (getString_text Host strbuf size _ _ h1 Hh1 Hcp Hrx1).
    rewrite firstn_all2 by lia.
    replace (Z.of_nat (List.length (print_value Slave prot_cmd_t cmd)) =? 0)
      with false by (symmetry; apply Z.eqb_neq; lia).
    cbn [negb]. unfold checkReply. mstep.
    match goal with
    | |- context [getValue Host prot_cmd_t ?s2] =>
        rewrite (getValue_bytes Host prot_cmd_t str [] s2 Hh Hp eq_refl)
    end.
    unfold decode. destruct str as [| c str']; [congruence |].
    reflexivity.
  - (* the buffer *)
    unfold dispatchGetString, bind. rewrite Hput. cbn [negb].
    assert (Hrx1 : rx h1 = print_value Slave prot_cmd_t cmd
                           ++ PROT_TERM_CHAR :: str ++ [PROT_TERM_CHAR]).
    { change (rx h1) with (rx h). rewrite Hrxh, payload_text by exact Hc.
      now rewrite <- app_assoc. }
    rewrite (getString_text Host strbuf size _ _ h1 Hh1 Hcp Hrx1).
    rewrite firstn_all2 by lia.
    replace (Z.of_nat (List.length (print_value Slave prot_cmd_t cmd)) =? 0)
      with false by (symmetry; apply Z.eqb_neq; lia).
    cbn [negb].
    match goal with
    | |- context [checkReply Host cmd ?s2] =>
        destruct (checkReply Host cmd s2) as [ok h3]
    end.
    unfold ret. cbn [fst snd].
    rewrite size_t_wrap_small by lia.
    replace (Z.of_nat (List.length (print_value Slave prot_cmd_t cmd)) <? size - 1)
      with true by (symmetry; apply Z.ltb_lt; lia).
    replace (Z.of_nat (List.length (print_value Slave prot_cmd_t cmd)) <? size)
      with true by (symmetry; apply Z.ltb_lt; lia).
    destruct (store_copy_in (print_value Slave prot_cmd_t cmd) strbuf ltac:(lia))
      as [tail Htail].
    cbv zeta. rewrite Htail, store_twice, cstr_app_nul.
    now apply text_cstr.
  - (* dispatchGet for a string: the request *)
    unfold dispatchGet_string. mstep. rewrite Hput.
    rewrite (Arrays.checkReply_started Host cmd h1 Hh1).
    destruct (reply_okb cmd _).
    + unfold getValue_string, readStringUntilTerminator, bind, hasStarted.
      rewrite received_started, Hh1. cbn [negb]. cbv beta.
      destruct (GetSerialAnswer PROT_TERM_CHAR _) as [[ans d] |];
        unfold set_rx, ret; cbn [snd tx]; now rewrite received_tx.
    + cbn [snd]. now rewrite received_tx.
  - (* dispatchGet for a string: the result *)
    unfold dispatchGet_string. mstep. rewrite Hput.
    assert (Hrx1 : rx h1 = payload Slave prot_cmd_t cmd ++ str ++ [PROT_TERM_CHAR])
      by exact Hrxh.
    rewrite (checkReply_value Host Slave cmd cmd _ h1 Hh1 Hc Hrx1).
    rewrite Z.eqb_refl.
    match goal with
    | |- context [getValue_string Host t ?s2] =>
        rewrite (getValue_string_text Host t str [] s2 Hh Hp eq_refl)
    end.
    cbn [fst]. destruct str; [congruence | reflexivity].
Qed.

Lemma getString_exchange_out_of_order_witness :
  tx (snd (dispatchGetString Host 0x41 (repeat 0 16) 16
             (mkSession true true
                (bytes_of_string "41" ++ PROT_TERM_CHAR
                 :: bytes_of_string "v1.2" ++ [PROT_TERM_CHAR]) [] [])))
  = [0x41]
  /\ fst (fst (dispatchGetString Host 0x41 (repeat 0 16) 16
                 (mkSession true true
                    (bytes_of_string "41" ++ PROT_TERM_CHAR
                     :: bytes_of_string "v1.2" ++ [PROT_TERM_CHAR]) [] [])))
     = (scan_value prot_cmd_t (cstr (firstn 9 (bytes_of_string "v1.2"))) =? 0x41)
  /\ cstr (snd (fst (dispatchGetString Host 0x41 (repeat 0 16) 16
                       (mkSession true true
                          (bytes_of_string "41" ++ PROT_TERM_CHAR
                           :: bytes_of_string "v1.2" ++ [PROT_TERM_CHAR]) [] []))))
     = print_value Slave prot_cmd_t 0x41
  /\ tx (snd (dispatchGet_string Host 0x41 []
                (mkSession true true
                   (bytes_of_string "41" ++ PROT_TERM_CHAR
                    :: bytes_of_string "v1.2" ++ [PROT_TERM_CHAR]) [] [])))
     = [0x41]
  /\ fst (dispatchGet_string Host 0x41 []
            (mkSession true true
               (bytes_of_string "41" ++ PROT_TERM_CHAR
                :: bytes_of_string "v1.2" ++ [PROT_TERM_CHAR]) [] []))
     = (true, bytes_of_string "v1.2").
Proof.
  apply (getString_exchange_out_of_order 0x41 16 (bytes_of_string "v1.2")
           (repeat 0 16) []
           (mkSession true true
              (bytes_of_string "41" ++ PROT_TERM_CHAR
               :: bytes_of_string "v1.2" ++ [PROT_TERM_CHAR]) [] [])
           (mkSession true true [0x41] [] []));
    try reflexivity.
  - unfold in_range. simpl. lia.
  - repeat constructor; vm_compute; discriminate.
  - discriminate.
  - simpl. lia.
Defined.

(** What [dispatchSetString] sends, and its result on a good reply. *)
Lemma dispatchSetString_run cmd str h :
  in_range prot_cmd_t cmd -> Forall text_char str ->
  started_ h = true -> tx h = [] ->
  tx (snd (dispatchSetString Host cmd str h)) = cmd :: str ++ [PROT_TERM_CHAR]
  /\ (rx h = payload Slave prot_cmd_t cmd ->
      fst (dispatchSetString Host cmd str h) = true).
Proof.
  intros Hc Htext Hh Htxh.
  set (h1 := sent [cmd] (EvWriteByte cmd) h).
  assert (Hh1 : started_ h1 = true) by exact Hh.
  assert (Hput : putCommand Host cmd h = (true, h1)).
  { rewrite putCommand_started by exact Hh.
    now rewrite (static_cast_in_range prot_byte_t cmd Hc). }
  destruct (putString_started Host str h1 Hh1) as [P1 [P2 [P3 P4]]].
  unfold dispatchSetString. mstep. rewrite Hput.
  destruct (putString Host str h1) as [b h2]. cbn [fst snd] in *. subst b.
  rewrite text_cstr in P2 by exact Htext.
  split.
  - rewrite (Arrays.checkReply_started Host cmd h2 P4). cbn [snd].
    rewrite received_tx, P2. subst h1. now rewrite tx_sent, Htxh.
  - intros Hrx.
    assert (Hrx2 : rx h2 = payload Slave prot_cmd_t cmd ++ [])
      by (rewrite app_nil_r, P3; exact Hrx).
    rewrite (checkReply_value Host Slave cmd cmd [] h2 P4 Hc Hrx2).
    cbn [fst]. apply Z.eqb_refl.
Qed.

(** X15: [dispatchSetString] on the host against [processSetString] on
    the Arduino, for a string that leaves room in the buffer of the
    device: the buffer receives the string, NUL-terminated, and both
    calls return true. *)
Theorem setString_exchange :
  forall (cmd size : Z) (str strbuf : list Z) (h a : session),
    in_range prot_cmd_t cmd -> Forall text_char str -> str <> [] ->
    started_ h = true -> tx h = [] ->
    started_ a = true -> target_ a = true -> tx a = [] ->
    Z.of_nat (List.length strbuf) = size -> size < 2 ^ 16 ->
    Z.of_nat (List.length str) < size - 1 ->
    rx a = tx (snd (dispatchSetString Host cmd str h)) ->
    rx h = tx (snd (serve cmd (processSetString Slave cmd strbuf size None)
                      (false, strbuf) a)) ->
    fst (dispatchSetString Host cmd str h) = true
    /\ fst (fst (serve cmd (processSetString Slave cmd strbuf size None)
                   (false, strbuf) a)) = true
    /\ cstr (snd (fst (serve cmd (processSetString Slave cmd strbuf size None)
                         (false, strbuf) a))) = str
    /\ rx (snd (serve cmd (processSetString Slave cmd strbuf size None)
                  (false, strbuf) a)) = [].
Proof.
  intros cmd size str strbuf h a Hc Htext Hne Hh Htxh Ha Hta Htxa Hbuf Hsz Hlen
         Hrxa Hrxh.
  destruct (dispatchSetString_run cmd str h Hc Htext Hh Htxh) as [Hsends Hok].
  rewrite Hsends in Hrxa.
  rewrite (serve_request cmd _ (false, strbuf) _ a Ha Hta Hc Hrxa) in *.
  set (a1 := mkSession (started_ a) (target_ a) (str ++ [PROT_TERM_CHAR])
               (tx a) (log a)) in *.
  destruct (getString_fits Slave str strbuf [] size a1 Htext Hne Ha eq_refl
              Hbuf Hsz Hlen) as [buf [Hget Hcstr]].
  unfold processSetString, bind in *. rewrite Hget in *.
  rewrite reply_started in * by exact Ha. unfold ret in *. cbn [fst snd] in *.
  rewrite tx_sent, tx_taken in Hrxh. subst a1. cbn [tx] in Hrxh.
  rewrite Htxa in Hrxh. cbn [app] in Hrxh.
  repeat split; auto.
Qed.

Lemma setString_exchange_witness :
  fst (dispatchSetString Host 0x53 (bytes_of_string "run")
         (mkSession true true (bytes_of_string "53" ++ [PROT_TERM_CHAR]) [] []))
  = true
  /\ fst (fst (serve 0x53 (processSetString Slave 0x53 (repeat 0xff 8) 8 None)
                 (false, repeat 0xff 8)
                 (mkSession true true
                    (0x53 :: bytes_of_string "run" ++ [PROT_TERM_CHAR]) [] [])))
     = true
  /\ cstr (snd (fst (serve 0x53 (processSetString Slave 0x53 (repeat 0xff 8) 8 None)
                       (false, repeat 0xff 8)
                       (mkSession true true
                          (0x53 :: bytes_of_string "run" ++ [PROT_TERM_CHAR]) [] []))))
     = bytes_of_string "run"
  /\ rx (snd (serve 0x53 (processSetString Slave 0x53 (repeat 0xff 8) 8 None)
                (false, repeat 0xff 8)
                (mkSession true true
                   (0x53 :: bytes_of_string "run" ++ [PROT_TERM_CHAR]) [] [])))
     = [].
Proof.
  apply (setString_exchange 0x53 8 (bytes_of_string "run") (repeat 0xff 8)
           (mkSession true true (bytes_of_string "53" ++ [PROT_TERM_CHAR]) [] [])
           (mkSession true true
              (0x53 :: bytes_of_string "run" ++ [PROT_TERM_CHAR]) [] []));
    try reflexivity.
  - unfold in_range. simpl. lia.
  - repeat constructor; vm_compute; discriminate.
  - discriminate.
Defined.

(** X16: a string that is at least as long as the buffer of the device
    is acknowledged all the same.  [processSetString] fills the buffer
    with the first characters, without a NUL, and replies with the
    command, so [dispatchSetString] returns true; the characters that
    did not fit and the terminator stay in the stream of the Arduino,
    ahead of the next command. *)
Theorem setString_overflow_acknowledged :
  forall (cmd size : Z) (str strbuf : list Z) (h a : session),
    in_range prot_cmd_t cmd -> Forall text_char str ->
    started_ h = true -> tx h = [] ->
    started_ a = true -> target_ a = true -> tx a = [] ->
    Z.of_nat (List.length strbuf) = size -> 0 < size < 2 ^ 16 ->
    size <= Z.of_nat (List.length str) ->
    rx a = tx (snd (dispatchSetString Host cmd str h)) ->
    rx h = tx (snd (serve cmd (processSetString Slave cmd strbuf size None)
                      (false, strbuf) a)) ->
    fst (dispatchSetString Host cmd str h) = true
    /\ fst (serve cmd (processSetString Slave cmd strbuf size None)
              (false, strbuf) a)
       = (true, firstn (Z.to_nat size) str)
    /\ rx (snd (serve cmd (processSetString Slave cmd strbuf size None)
                  (false, strbuf) a))
       = skipn (Z.to_nat size) str ++ [PROT_TERM_CHAR].
Proof.
  intros cmd size str strbuf h a Hc Htext Hh Htxh Ha Hta Htxa Hbuf Hsz Hlen
         Hrxa Hrxh.
  destruct (dispatchSetString_run cmd str h Hc Htext Hh Htxh) as [Hsends Hok].
  rewrite Hsends in Hrxa.
  rewrite (serve_request cmd _ (false, strbuf) _ a Ha Hta Hc Hrxa) in *.
  set (a1 := mkSession (started_ a) (target_ a) (str ++ [PROT_TERM_CHAR])
               (tx a) (log a)) in *.
  pose proof (getString_cut Slave str strbuf [] size a1 Htext Ha eq_refl
                Hbuf Hsz Hlen) as Hget.
  unfold processSetString, bind in *. rewrite Hget in *.
  rewrite reply_started in * by exact Ha. unfold ret in *. cbn [fst snd] in *.
  rewrite tx_sent, tx_taken in Hrxh. subst a1. cbn [tx] in Hrxh.
  rewrite Htxa in Hrxh. cbn [app] in Hrxh.
  repeat split; auto.
Qed.

Lemma setString_overflow_acknowledged_witness :
  fst (dispatchSetString Host 0x53 (bytes_of_string "abcde")
         (mkSession true true (bytes_of_string "53" ++ [PROT_TERM_CHAR]) [] []))
  = true
  /\ fst (serve 0x53 (processSetString Slave 0x53 (repeat 0 4) 4 None)
            (false, repeat 0 4)
            (mkSession true true
               (0x53 :: bytes_of_string "abcde" ++ [PROT_TERM_CHAR]) [] []))
     = (true, firstn (Z.to_nat 4) (bytes_of_string "abcde"))
  /\ rx (snd (serve 0x53 (processSetString Slave 0x53 (repeat 0 4) 4 None)
                (false, repeat 0 4)
                (mkSession true true
                   (0x53 :: bytes_of_string "abcde" ++ [PROT_TERM_CHAR]) [] [])))
     = skipn (Z.to_nat 4) (bytes_of_string "abcde") ++ [PROT_TERM_CHAR].
Proof.
  apply (setString_overflow_acknowledged 0x53 4 (bytes_of_string "abcde")
           (repeat 0 4)
           (mkSession true true (bytes_of_string "53" ++ [PROT_TERM_CHAR]) [] [])
           (mkSession true true
              (0x53 :: bytes_of_string "abcde" ++ [PROT_TERM_CHAR]) [] []));
    try reflexivity; try (simpl; lia).
  - unfold in_range. simpl. lia.
  - repeat constructor; vm_compute; discriminate.
Defined.

(** *** A channel request and its handler *)

(** X17: [dispatchChannelSet] on the host against [processChannelSet]
    on the Arduino.  The setter is called with the channel and the
    value that were sent, negative channels included, and the host
    returns what the setter returned (true in either case for the
    command [0x15]). *)
Theorem channel_set_exchange :
  forall (T : ctype) (cmd chan v : Z) (accept : Z -> Z -> bool) (h a : session),
    in_range prot_cmd_t cmd -> in_range prot_chan_t chan -> in_range T v ->
    started_ h = true -> tx h = [] ->
    started_ a = true -> target_ a = true -> tx a = [] ->
    rx a = tx (snd (dispatchChannelSet Host T cmd chan v h)) ->
    rx h = tx (snd (serve cmd (processChannelSet Slave T cmd
                                 (fun c t => ret (accept c t))) false a)) ->
    fst (dispatchChannelSet Host T cmd chan v h)
    = accept chan v || (cmd =? PROT_ERROR)
    /\ fst (serve cmd (processChannelSet Slave T cmd
                         (fun c t => ret (accept c t))) false a)
       = accept chan v.
Proof.
  intros T cmd chan v accept h a Hc Hch Hv Hh Htxh Ha Hta Htxa Hrxa Hrxh.
  assert (Hsends : forall s, started_ s = true ->
            dispatchChannelSet Host T cmd chan v s
            = checkReply Host cmd
                (sent (payload Host T v) (EvWriteBuffer (payload Host T v))
                   (sent (payload Host prot_chan_t chan)
                      (EvWriteBuffer (payload Host prot_chan_t chan))
                      (sent [cmd] (EvWriteByte cmd) s)))).
  { intros s Hs. unfold dispatchChannelSet, putChannelCommand. mstep.
    rewrite putCommand_started by exact Hs.
    rewrite (static_cast_in_range prot_byte_t cmd Hc).
    rewrite putValue_started by exact Hs.
    now rewrite putValue_started by exact Hs. }
  rewrite Hsends in * by exact Hh.
  set (h1 := sent (payload Host T v) _ _) in *.
  assert (Hh1 : started_ h1 = true) by exact Hh.
  assert (Htx1 : tx h1 = cmd :: payload Host prot_chan_t chan ++ payload Host T v).
  { subst h1. rewrite !tx_sent, Htxh. reflexivity. }
  assert (Htxc : tx (snd (checkReply Host cmd h1)) = tx h1).
  { rewrite (Arrays.checkReply_started Host cmd h1 Hh1). cbn [snd].
    apply received_tx. }
  rewrite Htxc, Htx1 in Hrxa.
  rewrite (serve_request cmd _ false _ a Ha Hta Hc Hrxa) in *.
  set (a1 := mkSession (started_ a) (target_ a) _ (tx a) (log a)) in *.
  assert (Hchan : - 2 ^ 28 < chan).
  { unfold prot_chan_t in Hch. casts. change (2 ^ 28) with 268435456. lia. }
  assert (Hrun : processChannelSet Slave T cmd (fun c t => ret (accept c t)) a1
                 = (accept chan v,
                    sent (payload Slave prot_cmd_t (if accept chan v then cmd else PROT_ERROR))
                      (EvWriteBuffer (payload Slave prot_cmd_t
                                        (if accept chan v then cmd else PROT_ERROR)))
                      (taken (print_value Host T v)
                         (left_over Slave (print_value Host T v) [])
                         (taken (print_value Host prot_chan_t chan)
                            (payload Host T v) a1)))).
  { unfold processChannelSet, bind.
    rewrite (getValue_value Slave Host prot_chan_t chan (payload Host T v) a1
               Ha Hch Hchan eq_refl).
    set (a2 := taken _ _ a1).
    assert (Hrx2 : rx a2 = payload Host T v ++ []) by (now rewrite app_nil_r).
    rewrite (getValue_any_value Slave Host T v [] a2 Ha Hv Hrx2).
    unfold call_task. subst a2. rewrite !target_taken. subst a1. cbn [target_].
    rewrite Hta. unfold ret at 1.
    destruct (accept chan v).
    - now rewrite reply_started by exact Ha.
    - now rewrite replyError_started by exact Ha. }
  rewrite Hrun in *. cbn [fst snd] in *.
  rewrite tx_sent, !tx_taken in Hrxh. subst a1. cbn [tx] in Hrxh.
  rewrite Htxa in Hrxh. cbn [app] in Hrxh.
  assert (Hrxh1 : rx h1 = payload Slave prot_cmd_t
                            (if accept chan v then cmd else PROT_ERROR) ++ [])
    by (rewrite app_nil_r; exact Hrxh).
  assert (Hans : in_range prot_cmd_t (if accept chan v then cmd else PROT_ERROR))
    by (destruct (accept chan v); [exact Hc | exact error_in_range]).
  rewrite (checkReply_value Host Slave cmd _ [] h1 Hh1 Hans Hrxh1).
  cbn [fst]. split; [| reflexivity].
  destruct (accept chan v); cbn [orb]; [apply Z.eqb_refl | apply Z.eqb_sym].
Qed.

Lemma channel_set_exchange_witness :
  fst (dispatchChannelSet Host prot_size_t 0x43 (-1) 0x1234
         (mkSession true true (bytes_of_string "43" ++ [PROT_TERM_CHAR]) [] []))
  = (fun c t => (c =? -1) && (t =? 0x1234)) (-1) 0x1234 || (0x43 =? PROT_ERROR)
  /\ fst (serve 0x43 (processChannelSet Slave prot_size_t 0x43
                        (fun c t => ret ((fun c t => (c =? -1) && (t =? 0x1234)) c t)))
            false
            (mkSession true true
               (0x43 :: bytes_of_string "-1" ++ PROT_TERM_CHAR
                :: bytes_of_string "1234" ++ [PROT_TERM_CHAR]) [] []))
     = (fun c t => (c =? -1) && (t =? 0x1234)) (-1) 0x1234.
Proof.
  apply (channel_set_exchange prot_size_t 0x43 (-1) 0x1234
           (fun c t => (c =? -1) && (t =? 0x1234))
           (mkSession true true (bytes_of_string "43" ++ [PROT_TERM_CHAR]) [] [])
           (mkSession true true
              (0x43 :: bytes_of_string "-1" ++ PROT_TERM_CHAR
               :: bytes_of_string "1234" ++ [PROT_TERM_CHAR]) [] []));
    try reflexivity; unfold in_range; simpl; lia.
Defined.

(** *** Handlers answer once *)

Lemma call_task_quiet fn s :
  quiet fn -> snd (call_task fn s) = s.
Proof.
  intros Hq. unfold call_task. destruct (target_ s); [apply Hq | reflexivity].
Qed.

(** The reply at the end of a set handler. *)
Lemma answer_written r cmd (ok : bool) s s1 :
  started_ s1 = true -> tx s1 = tx s ->
  fst ((if ok then reply r cmd else replyError r) s1) = ok
  /\ answered r cmd s ok (snd ((if ok then reply r cmd else replyError r) s1)).
Proof.
  intros Hs1 Htx. unfold answered. destruct ok.
  - rewrite reply_started by exact Hs1. cbn [fst snd].
    now rewrite tx_sent, Htx.
  - rewrite replyError_started by exact Hs1. cbn [fst snd].
    now rewrite tx_sent, Htx.
Qed.

Lemma getString_session r strbuf size s :
  started_ s = true ->
  started_ (snd (getString r strbuf size s)) = true
  /\ tx (snd (getString r strbuf size s)) = tx s
  /\ target_ (snd (getString r strbuf size s)) = target_ s.
Proof.
  intros Hs. unfold getString, readBufferUntilTerminator, bind, hasStarted.
  rewrite Hs. cbn [negb]. cbv beta. destruct r.
  - destruct (readBytesUntil _ _ _) as [buf d]. unfold set_rx, ret.
    cbn [snd started_ tx target_]. auto.
  - destruct (GetSerialAnswer _ _) as [[ans d] |]; unfold set_rx, ret;
      cbn [snd started_ tx target_]; auto.
Qed.

Section Handlers.

Variables (r : role) (cmd : Z) (s : session).
Hypothesis Hs : started_ s = true.

(** After a call of the device that leaves the session as it is. *)
Lemma task_then_answer (fn : M bool) s1 :
  quiet fn -> started_ s1 = true -> tx s1 = tx s ->
  answered r cmd s
    (fst ((ok <- call_task fn ;; if ok then reply r cmd else replyError r) s1))
    (snd ((ok <- call_task fn ;; if ok then reply r cmd else replyError r) s1)).
Proof.
  intros Hq Hs1 Htx. unfold bind.
  pose proof (call_task_quiet fn s1 Hq) as Hsame.
  destruct (call_task fn s1) as [ok s2]. cbn [snd] in Hsame. subst s2.
  destruct (answer_written r cmd ok s s1 Hs1 Htx) as [Hfst Hans].
  now rewrite Hfst.
Qed.

Lemma processTask_answers (fn : M bool) :
  quiet fn -> answers_once r cmd (fun b => b) (processTask r cmd fn) s.
Proof.
  intros Hq. unfold answers_once, processTask, test.
  now apply task_then_answer.
Qed.

Lemma after_getValue {A} T (k : option Z -> M A) s1 :
  started_ s1 = true ->
  bind (getValue r T) k s1
  = k (decode T (fst (delivered r (PROT_HEX_BUFF_SIZE - 1) PROT_TERM_CHAR (rx s1))))
      (received r (PROT_HEX_BUFF_SIZE - 1) PROT_TERM_CHAR s1).
Proof. intros H. unfold bind. now rewrite getValue_started by exact H. Qed.

Lemma bind_assoc {A B C} (m : M A) (k1 : A -> M B) (k2 : B -> M C) s1 :
  bind (bind m k1) k2 s1 = bind m (fun x => bind (k1 x) k2) s1.
Proof. unfold bind. now destruct (m s1). Qed.

Lemma error_answer s1 :
  started_ s1 = true -> tx s1 = tx s ->
  answered r cmd s
    (fst ((ok <- ret false ;; if ok then reply r cmd else replyError r) s1))
    (snd ((ok <- ret false ;; if ok then reply r cmd else replyError r) s1)).
Proof.
  intros Hs1 Htx. unfold bind, ret.
  destruct (answer_written r cmd false s s1 Hs1 Htx) as [Hfst Hans].
  cbv iota in *. now rewrite Hfst.
Qed.

Lemma processSet_fn_answers T (setFn : Z -> M bool) :
  (forall t, quiet (setFn t)) ->
  answers_once r cmd (fun b => b) (processSet_fn r T cmd setFn) s.
Proof.
  intros Hq. unfold answers_once, processSet_fn.
  rewrite !after_getValue by exact Hs.
  set (s1 := received _ _ _ s).
  assert (Hs1 : started_ s1 = true) by (subst s1; now rewrite received_started).
  assert (Htx : tx s1 = tx s) by apply received_tx.
  destruct (decode T _) as [t |].
  - now apply task_then_answer.
  - now apply error_answer.
Qed.

Lemma processChannelTask_answers (fn : Z -> M bool) :
  (forall c, quiet (fn c)) ->
  answers_once r cmd (fun b => b) (processChannelTask r cmd fn) s.
Proof.
  intros Hq. unfold answers_once, processChannelTask.
  rewrite !after_getValue by exact Hs.
  set (s1 := received _ _ _ s).
  assert (Hs1 : started_ s1 = true) by (subst s1; now rewrite received_started).
  assert (Htx : tx s1 = tx s) by apply received_tx.
  destruct (decode prot_chan_t _) as [c |].
  - now apply task_then_answer.
  - now apply error_answer.
Qed.

Lemma processChannelSet_answers T (fn : Z -> Z -> M bool) :
  (forall c t, quiet (fn c t)) ->
  answers_once r cmd (fun b => b) (processChannelSet r T cmd fn) s.
Proof.
  intros Hq. unfold answers_once, processChannelSet.
  rewrite !after_getValue by exact Hs.
  set (s1 := received _ _ _ s).
  assert (Hs1 : started_ s1 = true) by (subst s1; now rewrite received_started).
  assert (Htx : tx s1 = tx s) by apply received_tx.
  destruct (decode prot_chan_t _) as [c |].
  - rewrite !bind_assoc, !after_getValue by exact Hs1.
    set (s2 := received _ _ _ s1).
    assert (Hs2 : started_ s2 = true) by (subst s2; now rewrite received_started).
    assert (Htx2 : tx s2 = tx s) by (subst s2; now rewrite received_tx).
    destruct (decode T _) as [t |].
    + now apply task_then_answer.
    + now apply error_answer.
  - now apply error_answer.
Qed.

(** The simple handlers, with an optional task after the value. *)
Lemma after_value_answers {A} (afterSet : option (M bool)) (x : A) s1 :
  (forall fn, afterSet = Some fn -> quiet fn) ->
  started_ s1 = true -> tx s1 = tx s ->
  let m :=
    match afterSet with
    | Some fn =>
        ok <- test (call_task fn) ;;
        if negb ok then (b <- replyError r ;; ret (b, x))
        else (b <- reply r cmd ;; ret (b, x))
    | None => b <- reply r cmd ;; ret (b, x)
    end in
  answered r cmd s (fst (fst (m s1))) (snd (m s1)).
Proof.
  intros Hq Hs1 Htx m. subst m.
  destruct afterSet as [fn |].
  - unfold bind at 1 4, test.
    pose proof (call_task_quiet fn s1 (Hq fn eq_refl)) as Hsame.
    destruct (call_task fn s1) as [ok s2]. cbn [snd] in Hsame. subst s2.
    destruct (answer_written r cmd ok s s1 Hs1 Htx) as [Hfst Hans].
    unfold bind, ret. destruct ok; cbn [negb] in *;
      destruct (reply r cmd s1), (replyError r s1); cbn [fst snd] in *;
      now subst.
  - destruct (answer_written r cmd true s s1 Hs1 Htx) as [Hfst Hans].
    unfold bind, ret. cbv iota in *.
    destruct (reply r cmd s1). cbn [fst snd] in *. now subst.
Qed.

Lemma processSet_answers T (afterSet : option (M bool)) :
  (forall fn, afterSet = Some fn -> quiet fn) ->
  answers_once r cmd fst (processSet r T cmd afterSet) s.
Proof.
  intros Hq. unfold answers_once, processSet.
  rewrite !after_getValue by exact Hs.
  set (s1 := received _ _ _ s).
  assert (Hs1 : started_ s1 = true) by (subst s1; now rewrite received_started).
  assert (Htx : tx s1 = tx s) by apply received_tx.
  destruct (decode T _) as [t |] eqn:E.
  - now apply (after_value_answers afterSet (Some t) s1).
  - destruct (answer_written r cmd false s s1 Hs1 Htx) as [Hfst Hans].
    unfold bind, ret. cbv iota in *.
    destruct (replyError r s1). cbn [fst snd] in *. now subst.
Qed.

Lemma processSetString_answers strbuf size (afterSet : option (M bool)) :
  (forall fn, afterSet = Some fn -> quiet fn) ->
  answers_once r cmd fst (processSetString r cmd strbuf size afterSet) s.
Proof.
  intros Hq. unfold answers_once, processSetString.
  destruct (getString_session r strbuf size s Hs) as [Hs1 [Htx _]].
  destruct (getString r strbuf size s) as [[ok buf] s1] eqn:E.
  cbn [snd] in Hs1, Htx. rewrite !(Arrays.bind_run _ _ _ _ _ E).
  destruct ok.
  - now apply (after_value_answers afterSet buf s1).
  - destruct (answer_written r cmd false s s1 Hs1 Htx) as [Hfst Hans].
    unfold bind, ret. cbv iota in *.
    destruct (replyError r s1). cbn [fst snd] in *. now subst.
Qed.

End Handlers.

(** X18: every handler of a task or set request writes one answer,
    whatever arrives and also when nothing arrives in time: the reply
    to the command when it returns true, the error reply when it
    returns false.  The functions of the device are taken not to use
    the serial line. *)
Theorem set_handlers_answer_once :
  forall (r : role) (T : ctype) (cmd size : Z) (strbuf : list Z)
         (taskFn : M bool) (setFn chanTaskFn : Z -> M bool)
         (chanSetFn : Z -> Z -> M bool) (afterSet : option (M bool))
         (s : session),
    started_ s = true ->
    quiet taskFn -> (forall t, quiet (setFn t)) ->
    (forall c, quiet (chanTaskFn c)) -> (forall c t, quiet (chanSetFn c t)) ->
    (forall fn, afterSet = Some fn -> quiet fn) ->
    answers_once r cmd (fun b => b) (processTask r cmd taskFn) s
    /\ answers_once r cmd (fun b => b) (processSet_fn r T cmd setFn) s
    /\ answers_once r cmd fst (processSet r T cmd afterSet) s
    /\ answers_once r cmd (fun b => b) (processChannelTask r cmd chanTaskFn) s
    /\ answers_once r cmd (fun b => b) (processChannelSet r T cmd chanSetFn) s
    /\ answers_once r cmd fst (processSetString r cmd strbuf size afterSet) s.
Proof.
  intros r T cmd size strbuf taskFn setFn chanTaskFn chanSetFn afterSet s
         Hs Q1 Q2 Q3 Q4 Q5.
  repeat split.
  - now apply processTask_answers.
  - now apply processSet_fn_answers.
  - now apply processSet_answers.
  - now apply processChannelTask_answers.
  - now apply processChannelSet_answers.
  - now apply processSetString_answers.
Qed.

Lemma set_handlers_answer_once_witness :
  answers_once Slave 0x41 (fun b => b) (processTask Slave 0x41 (ret true))
    (mkSession true true [] [] [])
  /\ answers_once Slave 0x41 (fun b => b)
       (processSet_fn Slave prot_size_t 0x41 (fun t => ret (t <? 100)))
       (mkSession true true [] [] [])
  /\ answers_once Slave 0x41 fst
       (processSet Slave prot_size_t 0x41 (Some (ret false)))
       (mkSession true true [] [] [])
  /\ answers_once Slave 0x41 (fun b => b)
       (processChannelTask Slave 0x41 (fun c => ret (c =? 0)))
       (mkSession true true [] [] [])
  /\ answers_once Slave 0x41 (fun b => b)
       (processChannelSet Slave prot_size_t 0x41 (fun c t => ret (c <? t)))
       (mkSession true true [] [] [])
  /\ answers_once Slave 0x41 fst
       (processSetString Slave 0x41 (repeat 0 8) 8 (Some (ret false)))
       (mkSession true true [] [] []).
Proof.
  apply (set_handlers_answer_once Slave prot_size_t 0x41 8 (repeat 0 8)
           (ret true) (fun t => ret (t <? 100)) (fun c => ret (c =? 0))
           (fun c t => ret (c <? t)) (Some (ret false))
           (mkSession true true [] [] []));
    try reflexivity.
  - intros s. reflexivity.
  - intros t s. reflexivity.
  - intros c s. reflexivity.
  - intros c t s. reflexivity.
  - intros fn H. injection H as <-. intros s. reflexivity.
Defined.

Lemma get_answer_written r T cmd (value : option Z) s s1 :
  started_ s1 = true -> tx s1 = tx s ->
  tx (snd (match value with
           | Some t_val => test (reply r cmd &&> putValue r T t_val)
           | None => replyError r
           end s1)) = tx s ++ get_answer r T cmd value
  /\ fst (match value with
          | Some t_val => test (reply r cmd &&> putValue r T t_val)
          | None => replyError r
          end s1) = match value with Some _ => true | None => false end.
Proof.
  intros Hs1 Htx. destruct value as [v |]; unfold get_answer.
  - mstep. rewrite reply_started by exact Hs1.
    rewrite putValue_started by exact Hs1. cbn [fst snd].
    now rewrite !tx_sent, Htx, app_assoc.
  - rewrite replyError_started by exact Hs1. cbn [fst snd].
    now rewrite tx_sent, Htx.
Qed.

(** X19: a handler of a get request that calls a getter sends the
    value of the getter.  [processGet] writes the reply and then the
    value that the getter stored when the getter returned true, and
    the error reply alone when it returned false or there is no
    device.  [processChannelGet] does the same with the getter called
    on the channel that was sent, and writes the error reply alone,
    without calling the getter, when no channel arrives.  The return
    value is true exactly when a value was sent. *)
Theorem get_handlers_answer_once :
  forall (r r0 : role) (T : ctype) (cmd : Z)
         (value : option Z) (values : Z -> option Z)
         (request : option Z) (rest : list Z) (s : session),
    started_ s = true ->
    (forall chan, request = Some chan -> in_range prot_chan_t chan) ->
    rx s = match request with
           | Some chan => payload r0 prot_chan_t chan ++ rest
           | None => []
           end ->
    let sent_value := if target_ s then value else None in
    let sent_channel_value :=
      match request with
      | Some chan => if target_ s then values chan else None
      | None => None
      end in
    tx (snd (processGet_fn r T cmd (ret value) s))
    = tx s ++ get_answer r T cmd sent_value
    /\ fst (processGet_fn r T cmd (ret value) s)
       = match sent_value with Some _ => true | None => false end
    /\ tx (snd (processChannelGet r T cmd (fun c => ret (values c)) s))
       = tx s ++ get_answer r T cmd sent_channel_value
    /\ fst (processChannelGet r T cmd (fun c => ret (values c)) s)
       = match sent_channel_value with Some _ => true | None => false end
    /\ rx (snd (processChannelGet r T cmd (fun c => ret (values c)) s))
       = match request with Some _ => rest | None => [] end.
Proof.
  intros r r0 T cmd value values request rest s Hs Hreq Hrx
         sent_value sent_channel_value.
  set (answer := fun v : option Z =>
                   match v with
                   | Some t_val => test (reply r cmd &&> putValue r T t_val)
                   | None => replyError r
                   end).
  assert (Htail : forall v s1,
             started_ s1 = true -> tx s1 = tx s ->
             tx (snd (answer v s1)) = tx s ++ get_answer r T cmd v
             /\ fst (answer v s1) = match v with Some _ => true | None => false end
             /\ rx (snd (answer v s1)) = rx s1).
  { intros v s1 Hs1 Htx1.
    destruct (get_answer_written r T cmd v s s1 Hs1 Htx1) as [A B].
    split; [exact A |]. split; [exact B |].
    subst answer. cbv beta. destruct v.
    - mstep. rewrite reply_started by exact Hs1.
      now rewrite putValue_started by exact Hs1.
    - now rewrite replyError_started by exact Hs1. }
  assert (Hget : processGet_fn r T cmd (ret value) s = answer sent_value s).
  { unfold processGet_fn, bind, call_target. subst sent_value.
    now destruct (target_ s). }
  assert (Hchan : processChannelGet r T cmd (fun c => ret (values c)) s
                  = answer sent_channel_value
                      (taken (match request with
                              | Some chan => print_value r0 prot_chan_t chan
                              | None => []
                              end)
                         (match request with Some _ => rest | None => [] end) s)).
  { unfold processChannelGet. subst sent_channel_value.
    destruct request as [chan |].
    - specialize (Hreq chan eq_refl).
      assert (Hfit : - 2 ^ 28 < chan).
      { unfold prot_chan_t in Hreq. casts. change (2 ^ 28) with 268435456. lia. }
      rewrite (Arrays.bind_run _ _ _ _ _
                 (getValue_value r r0 prot_chan_t chan rest s Hs Hreq Hfit Hrx)).
      unfold bind, call_target. rewrite target_taken.
      now destruct (target_ s).
    - rewrite (Arrays.bind_run _ _ _ _ _ (getValue_timeout r prot_chan_t s Hs Hrx)).
      reflexivity. }
  rewrite Hget, Hchan.
  destruct (Htail sent_value s Hs eq_refl) as [A [B _]].
  destruct (Htail sent_channel_value
              (taken (match request with
                      | Some chan => print_value r0 prot_chan_t chan
                      | None => []
                      end)
                 (match request with Some _ => rest | None => [] end) s)
              Hs eq_refl) as [C [D E]].
  rewrite E, rx_taken. auto.
Qed.

Lemma get_handlers_answer_once_witness :
  let s := mkSession true true (bytes_of_string "-1" ++ PROT_TERM_CHAR :: [0x47]) [] [] in
  let values := fun c => if c =? -1 then Some 0x2a else None in
  let sent_value := if target_ s then Some 7 else None in
  let sent_channel_value :=
    match Some (-1) with
    | Some chan => if target_ s then values chan else None
    | None => None
    end in
  tx (snd (processGet_fn Slave prot_size_t 0x47 (ret (Some 7)) s))
  = tx s ++ get_answer Slave prot_size_t 0x47 sent_value
  /\ fst (processGet_fn Slave prot_size_t 0x47 (ret (Some 7)) s)
     = match sent_value with Some _ => true | None => false end
  /\ tx (snd (processChannelGet Slave prot_size_t 0x47 (fun c => ret (values c)) s))
     = tx s ++ get_answer Slave prot_size_t 0x47 sent_channel_value
  /\ fst (processChannelGet Slave prot_size_t 0x47 (fun c => ret (values c)) s)
     = match sent_channel_value with Some _ => true | None => false end
  /\ rx (snd (processChannelGet Slave prot_size_t 0x47 (fun c => ret (values c)) s))
     = match Some (-1) with Some _ => [0x47] | None => [] end.
Proof.
  apply (get_handlers_answer_once Slave Host prot_size_t 0x47 (Some 7)
           (fun c => if c =? -1 then Some 0x2a else None) (Some (-1)) [0x47]
           (mkSession true true (bytes_of_string "-1" ++ PROT_TERM_CHAR :: [0x47]) [] [])).
  - reflexivity.
  - intros chan H. injection H as <-. unfold in_range. simpl. lia.
  - reflexivity.
Defined.

End FrameMore.

(** * Arrays, end to end *)

Module ArraysMore.
Import Hex Wire Codec CodecMore StringsMore FrameMore.

(** [getValue] into a type [T'] on the payload of a value of type [T]
    that leaves room in the read buffer. *)
Lemma getValue_cross r r0 T T' v rest s :
  started_ s = true -> in_range T v -> - 2 ^ 28 < v ->
  rx s = payload r0 T v ++ rest ->
  getValue r T' s = (Some (static_cast T' v), taken (print_value r0 T v) rest s).
Proof.
  intros Hs Hr Hv Hrx.
  destruct (print_value_text r0 T v Hr) as [Htext Hlen].
  pose proof (print_value_short r0 T v Hr Hv) as Hshort.
  rewrite payload_text, <- app_assoc in Hrx by exact Hr. cbn [app] in Hrx.
  rewrite (getValue_bytes r T' _ rest s Hs (text_no_term _ Htext) Hrx).
  rewrite left_over_short by exact Hshort.
  rewrite firstn_all2 by lia. unfold taken. f_equal.
  pose proof (scan_print_cross r0 T T' v Hr) as Hscan.
  unfold decode. destruct (print_value r0 T v); [simpl in Hlen; lia |].
  now rewrite Hscan.
Qed.

Lemma subcmd_in_range sub :
  1 <= sub <= 4 -> in_range prot_cmd_t sub /\ - 2 ^ 28 < sub
                   /\ static_cast avr_int sub = sub.
Proof.
  intros H. split; [| split].
  - unfold prot_cmd_t. casts. lia.
  - change (2 ^ 28) with 268435456. lia.
  - apply static_cast_in_range. unfold avr_int. casts. lia.
Qed.

(** *** One turn of the device *)

Section Device.

Variables (T : ctype) (cmd maxSize : Z).
Hypothesis Hc : in_range prot_cmd_t cmd.

Lemma moved_trans s1 s2 s3 out1 out2 rest2 rest3 :
  moved s1 s2 out1 rest2 -> moved s2 s3 out2 rest3 ->
  moved s1 s3 (out1 ++ out2) rest3.
Proof.
  intros [A1 [A2 [A3 A4]]] [B1 [B2 [B3 B4]]]. unfold moved.
  rewrite B3, A3, B2, A2, app_assoc. auto.
Qed.

(** The request for the maximum size. *)
Lemma serve_size pArr fs rest a :
  started_ a = true -> target_ a = true ->
  rx a = size_query Host cmd ++ rest ->
  exists a',
    serve cmd (processSetArray T cmd pArr maxSize fs None) (false, pArr, fs) a
    = (true, pArr, fs, a')
    /\ moved a a' (payload Slave prot_cmd_t cmd ++ payload Slave avr_size_t maxSize)
         rest.
Proof.
  intros Ha Hta Hrx. unfold size_query in Hrx.
  rewrite <- app_assoc in Hrx. cbn [app] in Hrx.
  rewrite (serve_request cmd _ _ _ a Ha Hta Hc Hrx).
  set (a1 := mkSession _ _ _ _ _).
  destruct (subcmd_in_range SUBCMD_ARRAY_SIZE ltac:(unfold SUBCMD_ARRAY_SIZE; lia))
    as [Hr [Hf Hcast]].
  pose proof (getValue_cross Slave Host prot_cmd_t avr_int SUBCMD_ARRAY_SIZE
                rest a1 Ha Hr Hf eq_refl) as Hget.
  rewrite Hcast in Hget.
  unfold processSetArray. rewrite (Arrays.bind_run _ _ _ _ _ Hget).
  rewrite Z.eqb_refl. mstep.
  rewrite reply_started by exact Ha.
  rewrite putValue_started by exact Ha.
  eexists. split; [reflexivity |].
  unfold moved. rewrite !started_sent, !target_sent, !tx_sent, !rx_sent.
  rewrite started_taken, target_taken, tx_taken, rx_taken.
  subst a1. cbn [started_ target_ tx]. rewrite app_assoc. auto.
Qed.

(** The request to store an element inside the array. *)
Lemma serve_element pArr fs pt k rest a :
  started_ a = true -> target_ a = true ->
  in_range T (nth k pt 0) -> - 2 ^ 28 < nth k pt 0 ->
  Z.of_nat k < maxSize -> Z.of_nat k <= 65535 ->
  rx a = element_msg Host T cmd pt k ++ rest ->
  exists a',
    serve cmd (processSetArray T cmd pArr maxSize fs None) (false, pArr, fs) a
    = (true, store (Z.of_nat k) (nth k pt 0) pArr, fs, a')
    /\ moved a a' (payload Slave prot_cmd_t cmd) rest.
Proof.
  intros Ha Hta Hel Hfit Hk Hk16 Hrx. unfold element_msg in Hrx.
  rewrite <- !app_assoc in Hrx. cbn [app] in Hrx.
  rewrite (serve_request cmd _ _ _ a Ha Hta Hc Hrx).
  set (a1 := mkSession _ _ _ _ _).
  destruct (subcmd_in_range SUBCMD_ARRAY_ELEMENT
              ltac:(unfold SUBCMD_ARRAY_ELEMENT; lia)) as [Hr [Hf Hcast]].
  pose proof (getValue_cross Slave Host prot_cmd_t avr_int SUBCMD_ARRAY_ELEMENT
                _ a1 Ha Hr Hf eq_refl) as Hget.
  rewrite Hcast in Hget.
  unfold processSetArray. rewrite (Arrays.bind_run _ _ _ _ _ Hget).
  change (SUBCMD_ARRAY_ELEMENT =? SUBCMD_ARRAY_SIZE) with false.
  rewrite Z.eqb_refl. cbv iota.
  set (a2 := taken _ _ a1).
  assert (Hidx : in_range prot_size_t (Z.of_nat k))
    by (unfold prot_size_t; casts; lia).
  assert (Hidxf : - 2 ^ 28 < Z.of_nat k)
    by (change (2 ^ 28) with 268435456; lia).
  pose proof (getValue_value Slave Host prot_size_t (Z.of_nat k) _ a2 Ha
                Hidx Hidxf eq_refl) as Hget2.
  rewrite (Arrays.bind_run _ _ _ _ _ Hget2).
  set (a3 := taken _ _ a2).
  pose proof (getValue_value Slave Host T (nth k pt 0) rest a3 Ha Hel Hfit eq_refl)
    as Hget3.
  rewrite (Arrays.bind_run _ _ _ _ _ Hget3).
  replace (Z.of_nat k <? maxSize) with true by (symmetry; apply Z.ltb_lt; lia).
  unfold bind. rewrite reply_started by exact Ha. unfold ret.
  eexists. split; [reflexivity |].
  unfold moved. rewrite !started_sent, !target_sent, !tx_sent, !rx_sent.
  subst a3 a2.
  rewrite !started_taken, !target_taken, !tx_taken, !rx_taken.
  subst a1. cbn [started_ target_ tx]. auto.
Qed.

(** The request that ends the transfer. *)
Lemma serve_finished pArr fs size rest a :
  started_ a = true -> target_ a = true -> in_range prot_size_t size ->
  rx a = finished_msg Host cmd size ++ rest ->
  exists a',
    serve cmd (processSetArray T cmd pArr maxSize fs None) (false, pArr, fs) a
    = (true, pArr, size, a')
    /\ moved a a' (payload Slave prot_cmd_t cmd) rest.
Proof.
  intros Ha Hta Hsz Hrx. unfold finished_msg in Hrx.
  rewrite <- !app_assoc in Hrx. cbn [app] in Hrx.
  rewrite (serve_request cmd _ _ _ a Ha Hta Hc Hrx).
  set (a1 := mkSession _ _ _ _ _).
  destruct (subcmd_in_range SUBCMD_ARRAY_FINISHED
              ltac:(unfold SUBCMD_ARRAY_FINISHED; lia)) as [Hr [Hf Hcast]].
  pose proof (getValue_cross Slave Host prot_cmd_t avr_int SUBCMD_ARRAY_FINISHED
                _ a1 Ha Hr Hf eq_refl) as Hget.
  rewrite Hcast in Hget.
  unfold processSetArray. rewrite (Arrays.bind_run _ _ _ _ _ Hget).
  change (SUBCMD_ARRAY_FINISHED =? SUBCMD_ARRAY_SIZE) with false.
  change (SUBCMD_ARRAY_FINISHED =? SUBCMD_ARRAY_ELEMENT) with false.
  rewrite Z.eqb_refl. cbv iota.
  set (a2 := taken _ _ a1).
  assert (Hszf : - 2 ^ 28 < size).
  { unfold prot_size_t in Hsz. casts. change (2 ^ 28) with 268435456. lia. }
  pose proof (getValue_value Slave Host prot_size_t size rest a2 Ha Hsz Hszf eq_refl)
    as Hget2.
  change (getValue Slave avr_size_t) with (getValue Slave prot_size_t).
  rewrite (Arrays.bind_run _ _ _ _ _ Hget2).
  unfold bind. rewrite reply_started by exact Ha. unfold ret.
  eexists. split; [reflexivity |].
  unfold moved. rewrite !started_sent, !target_sent, !tx_sent, !rx_sent.
  subst a2.
  rewrite !started_taken, !target_taken, !tx_taken, !rx_taken.
  subst a1. cbn [started_ target_ tx]. auto.
Qed.

(** *** The turns of the device *)

Lemma serve_set_array_app afterSet n m :
  forall pArr fs s,
    serve_set_array T cmd maxSize afterSet (n + m) pArr fs s
    = (let '(pArr', fs', s') := serve_set_array T cmd maxSize afterSet n pArr fs s in
       serve_set_array T cmd maxSize afterSet m pArr' fs' s').
Proof.
  induction n as [| n IH]; intros pArr fs s; [reflexivity |].
  cbn [Nat.add serve_set_array]. unfold bind.
  destruct (serve cmd _ _ s) as [[[ok pArr1] fs1] s1].
  apply IH.
Qed.

Lemma firstn_next {A} (l : list A) d k :
  (k < List.length l)%nat -> firstn (S k) l = firstn k l ++ [nth k l d].
Proof.
  revert k. induction l as [| x l IH]; intros k Hk; [simpl in Hk; lia |].
  destruct k as [| k]; [reflexivity |].
  cbn [firstn nth app]. f_equal. apply IH. simpl in Hk. lia.
Qed.

Lemma skipn_next {A} (l : list A) d k :
  (k < List.length l)%nat -> skipn k l = nth k l d :: skipn (S k) l.
Proof.
  revert k. induction l as [| x l IH]; intros k Hk; [simpl in Hk; lia |].
  destruct k as [| k]; [reflexivity |].
  cbn [skipn nth]. apply IH. simpl in Hk. lia.
Qed.

(** Storing the element [k] after the elements before it. *)
Lemma store_next pt pArr0 k :
  (k < List.length pt)%nat -> (k < List.length pArr0)%nat ->
  store (Z.of_nat k) (nth k pt 0) (firstn k pt ++ skipn k pArr0)
  = firstn (S k) pt ++ skipn (S k) pArr0.
Proof.
  intros Hpt Harr. unfold store.
  replace (Z.of_nat k <? 0) with false by (symmetry; apply Z.ltb_ge; lia).
  rewrite Nat2Z.id, (skipn_next pArr0 0 k Harr), (firstn_next pt 0 k Hpt).
  assert (Hlen : List.length (firstn k pt) = k) by (rewrite length_firstn; lia).
  rewrite <- Hlen at 1. rewrite store_nat_app, <- app_assoc. reflexivity.
Qed.

(** The element requests, from the index [k] on. *)
Lemma serve_elements pt pArr0 fs :
  forall n k rest a,
    started_ a = true -> target_ a = true ->
    Forall (fun v => in_range T v /\ - 2 ^ 28 < v) pt ->
    (k + n <= List.length pt)%nat ->
    (List.length pt <= List.length pArr0)%nat ->
    Z.of_nat (List.length pt) <= maxSize -> maxSize <= 65535 ->
    rx a = concat (map (element_msg Host T cmd pt) (seq k n)) ++ rest ->
    exists a',
      serve_set_array T cmd maxSize None n (firstn k pt ++ skipn k pArr0) fs a
      = (firstn (k + n) pt ++ skipn (k + n) pArr0, fs, a')
      /\ moved a a' (concat (repeat (payload Slave prot_cmd_t cmd) n)) rest.
Proof.
  induction n as [| n IH]; intros k rest a Ha Hta Hpt Hkn Hlen Hmax H16 Hrx.
  - exists a. rewrite Nat.add_0_r. split; [reflexivity |].
    unfold moved. cbn [repeat concat]. rewrite app_nil_r.
    simpl in Hrx. auto.
  - cbn [seq map concat] in Hrx. rewrite <- app_assoc in Hrx.
    assert (Hk : (k < List.length pt)%nat) by lia.
    assert (Hel : in_range T (nth k pt 0) /\ - 2 ^ 28 < nth k pt 0).
    { rewrite Forall_forall in Hpt. apply Hpt. now apply nth_In. }
    destruct Hel as [Hel Hfit].
    destruct (serve_element (firstn k pt ++ skipn k pArr0) fs pt k _ a
                Ha Hta Hel Hfit ltac:(lia) ltac:(lia) Hrx)
      as [a1 [Hrun [A1 [A2 [A3 A4]]]]].
    cbn [serve_set_array]. rewrite (Arrays.bind_run _ _ _ _ _ Hrun).
    cbv iota beta. rewrite store_next by lia.
    destruct (IH (S k) rest a1 A1 ltac:(now rewrite A2) Hpt ltac:(lia) Hlen Hmax
                H16 A4) as [a2 [Hrun2 Hmoved]].
    exists a2. rewrite Hrun2. replace (S k + n)%nat with (k + S n)%nat by lia.
    split; [reflexivity |].
    cbn [repeat concat].
    apply (moved_trans a a1 a2 _ _ _ _ (conj A1 (conj A2 (conj A3 A4))) Hmoved).
Qed.

(** The whole transfer, on the side of the device. *)
Lemma serve_set_requests pt pArr fs rest a :
  started_ a = true -> target_ a = true ->
  Forall (fun v => in_range T v /\ - 2 ^ 28 < v) pt ->
  (List.length pt <= List.length pArr)%nat ->
  Z.of_nat (List.length pt) <= maxSize -> maxSize <= 65535 ->
  rx a = set_requests T cmd pt ++ rest ->
  exists a',
    serve_set_array T cmd maxSize None (S (List.length pt + 1)) pArr fs a
    = (pt ++ skipn (List.length pt) pArr, Z.of_nat (List.length pt), a')
    /\ moved a a' (set_replies cmd maxSize (List.length pt)) rest.
Proof.
  intros Ha Hta Hpt Hlen Hmax H16 Hrx. unfold set_requests in Hrx.
  rewrite <- !app_assoc in Hrx.
  destruct (serve_size pArr fs _ a Ha Hta Hrx) as [a1 [Hrun1 M1]].
  cbn [serve_set_array]. rewrite (Arrays.bind_run _ _ _ _ _ Hrun1).
  cbv iota beta. rewrite serve_set_array_app.
  destruct M1 as [A1 [A2 [A3 A4]]].
  destruct (serve_elements pt pArr fs (List.length pt) 0 _ a1 A1
              ltac:(now rewrite A2) Hpt ltac:(lia) Hlen Hmax H16 A4)
    as [a2 [Hrun2 M2]].
  cbn [firstn skipn app] in Hrun2. rewrite Hrun2. cbn [Nat.add] in *.
  rewrite firstn_all.
  destruct M2 as [B1 [B2 [B3 B4]]].
  assert (Hsz : in_range prot_size_t (Z.of_nat (List.length pt)))
    by (unfold prot_size_t; casts; lia).
  destruct (serve_finished (pt ++ skipn (List.length pt) pArr) fs _ rest a2 B1
              ltac:(now rewrite B2, A2) Hsz B4) as [a3 [Hrun3 M3]].
  cbn [serve_set_array]. rewrite (Arrays.bind_run _ _ _ _ _ Hrun3).
  cbv iota beta. unfold ret. exists a3. split; [reflexivity |].
  unfold set_replies.
  pose proof (moved_trans a a1 a2 _ _ _ _ (conj A1 (conj A2 (conj A3 A4)))
                (conj B1 (conj B2 (conj B3 B4)))) as M12.
  pose proof (moved_trans a a2 a3 _ _ _ _ M12 M3) as M.
  rewrite <- !app_assoc in M. exact M.
Qed.

End Device.

(** *** The host on the replies of the device *)

Section Sequence.

Variables (r r0 : role) (T : ctype) (cmd : Z).
Hypothesis Hc : in_range prot_cmd_t cmd.

(** [dispatchSetArray] is the size exchange of
    [dispatchGetArrayMaxSize], the comparison of the sizes, and the
    rest. *)
Lemma setArray_split pt size s :
  dispatchSetArray r T cmd pt size s
  = (let (m, s1) := dispatchGetArrayMaxSize r cmd s in
     match m with
     | Some maxSize =>
         if size <=? maxSize then dispatchSetArray_rest r T cmd pt size s1
         else (false, s1)
     | None => (false, s1)
     end).
Proof.
  unfold dispatchSetArray, dispatchGetArrayMaxSize, dispatchSetArray_rest. mstep.
  destruct (putCommand r cmd s) as [ok1 s1]. destruct ok1; [| reflexivity].
  destruct (putValue r prot_cmd_t SUBCMD_ARRAY_SIZE s1) as [ok2 s2].
  destruct ok2; [| reflexivity].
  destruct (checkReply r cmd s2) as [ok3 s3]. destruct ok3; [| reflexivity].
  destruct (getValue r prot_size_t s3) as [m s4]. destruct m as [maxSize |];
    [| reflexivity].
  destruct (size <=? maxSize); reflexivity.
Qed.

(** A size exchange that yields a maximum. *)
Lemma getArrayMaxSize_some s maxSize s1 :
  dispatchGetArrayMaxSize r cmd s = (Some maxSize, s1) ->
  started_ s = true /\ started_ s1 = true /\ tx s1 = tx s ++ size_query r cmd.
Proof.
  intros H. destruct (started_ s) eqn:Hs.
  - split; [reflexivity |].
    rewrite (Arrays.getArrayMaxSize_started r cmd Hc s Hs) in H. cbv zeta in H.
    destruct (reply_okb cmd _); [| discriminate].
    injection H as _ <-. split.
    + now rewrite !received_started.
    + rewrite !received_tx. unfold sent, size_query. cbn [tx].
      now rewrite <- app_assoc.
  - unfold dispatchGetArrayMaxSize in H. revert H. mstep.
    rewrite putCommand_stopped by exact Hs. discriminate.
Qed.

(** What the element loop sends: at least the first message. *)
Lemma elements_sent_from pt :
  forall n k s,
    started_ s = true -> Z.of_nat (k + n) <= 65535 ->
    exists j,
      (Nat.min 1 n <= j <= n)%nat
      /\ started_ (snd (dispatchSetArray_elements r T cmd pt n (Z.of_nat k) s)) = true
      /\ tx (snd (dispatchSetArray_elements r T cmd pt n (Z.of_nat k) s))
         = tx s ++ concat (map (element_msg r T cmd pt) (seq k j))
      /\ (fst (dispatchSetArray_elements r T cmd pt n (Z.of_nat k) s) = true -> j = n).
Proof.
  induction n as [| n IH]; intros k s Hs Hk.
  - exists 0%nat. simpl. rewrite app_nil_r. auto.
  - cbn [dispatchSetArray_elements]. mstep.
    rewrite (Arrays.putCommand_byte r cmd Hc) by assumption. mstep.
    rewrite putValue_started by exact Hs. mstep.
    rewrite putValue_started by exact Hs. mstep.
    rewrite putValue_started by exact Hs. mstep.
    rewrite (Arrays.checkReply_started r cmd) by exact Hs. mstep.
    rewrite Nat2Z.id.
    set (s4 := received r _ _ _).
    assert (Hs4 : started_ s4 = true)
      by (subst s4; rewrite received_started; exact Hs).
    assert (Ht4 : tx s4 = tx s ++ element_msg r T cmd pt k).
    { subst s4. rewrite received_tx. unfold sent, element_msg. cbn [tx].
      rewrite <- !app_assoc. reflexivity. }
    destruct (reply_okb cmd _); mstep.
    + rewrite Arrays.next_index by lia.
      destruct (IH (S k) s4 Hs4 ltac:(lia)) as [j [Hj [Hst [Htx Hall]]]].
      exists (S j). split; [simpl; lia |]. split; [exact Hst |]. split.
      * rewrite Htx, Ht4. cbn [seq map concat]. now rewrite <- app_assoc.
      * intros H. now rewrite (Hall H).
    + exists 1%nat. split; [simpl; lia |]. cbn [fst snd]. split; [exact Hs4 |].
      split.
      * rewrite Ht4. cbn [seq map concat]. now rewrite app_nil_r.
      * discriminate.
Qed.

(** The rest of an array-set sends element messages for an initial
    run of the indices, the first one in any case, and the finishing
    message only after all of them. *)
Lemma setArray_rest_sent pt size s :
  started_ s = true -> in_range prot_size_t size ->
  exists j tail,
    (Nat.min 1 (Z.to_nat size) <= j <= Z.to_nat size)%nat
    /\ tx (snd (dispatchSetArray_rest r T cmd pt size s))
       = tx s ++ concat (map (element_msg r T cmd pt) (seq 0 j)) ++ tail
    /\ (tail = [] \/ (j = Z.to_nat size /\ tail = finished_msg r cmd size)).
Proof.
  intros Hs Hsz. unfold dispatchSetArray_rest. mstep.
  destruct (elements_sent_from pt (Z.to_nat size) 0%nat s Hs)
    as [j [Hj [Hst [Htx Hall]]]];
    [unfold prot_size_t in Hsz; casts; lia |].
  change (Z.of_nat 0) with 0 in *.
  destruct (dispatchSetArray_elements r T cmd pt (Z.to_nat size) 0 s)
    as [ok s5]. cbn [fst snd] in *.
  destruct ok; mstep.
  - rewrite (Arrays.putCommand_byte r cmd Hc) by assumption. mstep.
    rewrite putValue_started by exact Hst. mstep.
    rewrite putValue_started by exact Hst. mstep.
    rewrite (Arrays.checkReply_started r cmd) by exact Hst. mstep.
    exists j, (finished_msg r cmd size). split; [exact Hj |]. split.
    + destruct (reply_okb cmd _); mstep; cbn [snd];
        rewrite received_tx; unfold sent; cbn [tx];
        rewrite Htx; unfold finished_msg;
        rewrite <- !app_assoc; reflexivity.
    + right. split; [now apply Hall | reflexivity].
  - exists j, []. split; [exact Hj |]. split; [| now left].
    cbn [snd]. now rewrite Htx, app_nil_r.
Qed.

Lemma host_elements pt :
  forall n k rest h,
    started_ h = true -> Z.of_nat (k + n) <= 65535 ->
    rx h = concat (repeat (payload r0 prot_cmd_t cmd) n) ++ rest ->
    exists h',
      dispatchSetArray_elements r T cmd pt n (Z.of_nat k) h = (true, h')
      /\ started_ h' = true /\ rx h' = rest.
Proof.
  induction n as [| n IH]; intros k rest h Hh Hk Hrx.
  - exists h. simpl in Hrx. auto.
  - cbn [repeat concat] in Hrx. rewrite <- app_assoc in Hrx.
    cbn [dispatchSetArray_elements]. mstep.
    rewrite (Arrays.putCommand_byte r cmd Hc) by exact Hh. mstep.
    rewrite putValue_started by exact Hh. mstep.
    rewrite putValue_started by exact Hh. mstep.
    rewrite putValue_started by exact Hh. mstep.
    match goal with
    | |- context [checkReply r cmd ?s4] =>
        rewrite (checkReply_value r r0 cmd cmd _ s4 Hh Hc Hrx)
    end.
    rewrite Z.eqb_refl. mstep.
    rewrite Arrays.next_index by lia.
    apply IH; [exact Hh | lia | reflexivity].
Qed.

(** The rest of an array-set on replies that are all the echo of the
    command. *)
Lemma setArray_rest_complete pt size rest s :
  started_ s = true -> in_range prot_size_t size ->
  rx s = concat (repeat (payload r0 prot_cmd_t cmd) (S (Z.to_nat size))) ++ rest ->
  exists s',
    dispatchSetArray_rest r T cmd pt size s = (true, s') /\ rx s' = rest.
Proof.
  intros Hs Hsz Hrx. unfold dispatchSetArray_rest.
  assert (Hrep : forall n, repeat (payload r0 prot_cmd_t cmd) (S n)
                           = repeat (payload r0 prot_cmd_t cmd) n
                             ++ [payload r0 prot_cmd_t cmd]).
  { induction n as [| n IHn]; [reflexivity |].
    cbn [repeat app] in *. now rewrite <- IHn. }
  rewrite Hrep, concat_app in Hrx. cbn [concat] in Hrx.
  rewrite app_nil_r, <- app_assoc in Hrx.
  destruct (host_elements pt (Z.to_nat size) 0 _ s Hs
              ltac:(unfold prot_size_t in Hsz; casts; lia) Hrx)
    as [s5 [Hrun [Hs5 Hrx5]]].
  change (Z.of_nat 0) with 0 in Hrun.
  rewrite (Arrays.bind_run _ _ _ _ _ Hrun). mstep.
  rewrite (Arrays.putCommand_byte r cmd Hc) by exact Hs5. mstep.
  rewrite putValue_started by exact Hs5. mstep.
  rewrite putValue_started by exact Hs5. mstep.
  match goal with
  | |- context [checkReply r cmd ?s6] =>
      rewrite (checkReply_value r r0 cmd cmd rest s6 Hs5 Hc Hrx5)
  end.
  rewrite Z.eqb_refl. mstep.
  eexists. split; reflexivity.
Qed.

End Sequence.

Section Initiator.

Variables (T : ctype) (cmd : Z).
Hypothesis Hc : in_range prot_cmd_t cmd.

Lemma host_setArray pt maxSize rest h :
  started_ h = true ->
  Z.of_nat (List.length pt) <= maxSize -> maxSize <= 65535 ->
  rx h = set_replies cmd maxSize (List.length pt) ++ rest ->
  exists h',
    dispatchSetArray Host T cmd pt (Z.of_nat (List.length pt)) h = (true, h')
    /\ rx h' = rest.
Proof.
  intros Hh Hmax H16 Hrx. unfold set_replies in Hrx.
  rewrite <- !app_assoc in Hrx.
  unfold dispatchSetArray. mstep.
  rewrite (Arrays.putCommand_byte Host cmd Hc) by exact Hh. mstep.
  rewrite putValue_started by exact Hh. mstep.
  match goal with
  | |- context [checkReply Host cmd ?s2] =>
      rewrite (checkReply_value Host Slave cmd cmd _ s2 Hh Hc Hrx)
  end.
  rewrite Z.eqb_refl. mstep.
  assert (Hm : in_range prot_size_t maxSize) by (unfold prot_size_t; casts; lia).
  assert (Hmf : - 2 ^ 28 < maxSize) by (change (2 ^ 28) with 268435456; lia).
  match goal with
  | |- context [getValue Host prot_size_t ?s3] =>
      rewrite (getValue_value Host Slave prot_size_t maxSize _ s3 Hh Hm Hmf eq_refl)
  end.
  mstep.
  replace (Z.of_nat (List.length pt) <=? maxSize) with true
    by (symmetry; apply Z.leb_le; lia).
  mstep. rewrite Nat2Z.id.
  match goal with
  | |- context [dispatchSetArray_elements Host T cmd pt _ 0 ?s4] =>
      destruct (host_elements Host Slave T cmd Hc pt (List.length pt) 0
                  (payload Slave prot_cmd_t cmd ++ rest) s4 Hh ltac:(simpl; lia)
                  eq_refl) as [h5 [Hrun [Hh5 Hrx5]]]
  end.
  change 0 with (Z.of_nat 0) at 1. rewrite Hrun. mstep.
  rewrite (Arrays.putCommand_byte Host cmd Hc) by exact Hh5. mstep.
  rewrite putValue_started by exact Hh5. mstep.
  rewrite putValue_started by exact Hh5. mstep.
  match goal with
  | |- context [checkReply Host cmd ?s6] =>
      rewrite (checkReply_value Host Slave cmd cmd rest s6 Hh5 Hc Hrx5)
  end.
  rewrite Z.eqb_refl. mstep.
  eexists. split; [reflexivity | reflexivity].
Qed.

End Initiator.

(** X20: [dispatchSetArray] on the host against the simple
    [processSetArray] on the Arduino, for an array that the device can
    hold and whose elements are written with at most eight characters.
    What the host sends is what the device reads in its [length + 2]
    turns, and what the device answers is what the host reads.  The
    host returns true; the device holds the elements of the host in
    the first places of its array, the other places as they were, and
    the length of the array in [__finalSize]; nothing is left unread
    on either side. *)
Theorem set_array_exchange :
  forall (T : ctype) (cmd maxSize finalSize : Z) (pt pArr : list Z)
         (h a : session),
    in_range prot_cmd_t cmd ->
    Forall (fun v => in_range T v /\ - 2 ^ 28 < v) pt ->
    Z.of_nat (List.length pt) <= maxSize -> maxSize <= 65535 ->
    Z.of_nat (List.length pArr) = maxSize ->
    started_ h = true -> tx h = [] ->
    started_ a = true -> target_ a = true -> tx a = [] ->
    rx a = set_requests T cmd pt ->
    rx h = set_replies cmd maxSize (List.length pt) ->
    let host := dispatchSetArray Host T cmd pt (Z.of_nat (List.length pt)) h in
    let device :=
      serve_set_array T cmd maxSize None (S (List.length pt + 1)) pArr finalSize a in
    fst host = true
    /\ tx (snd host) = rx a /\ rx (snd host) = []
    /\ fst device = (pt ++ skipn (List.length pt) pArr, Z.of_nat (List.length pt))
    /\ tx (snd device) = rx h /\ rx (snd device) = [].
Proof.
  intros T cmd maxSize finalSize pt pArr h a Hc Hpt Hmax H16 Hlen
         Hh Htxh Ha Hta Htxa Hrxa Hrxh host device.
  assert (Hrxh' : rx h = set_replies cmd maxSize (List.length pt) ++ [])
    by (now rewrite app_nil_r).
  destruct (host_setArray T cmd Hc pt maxSize [] h Hh Hmax H16 Hrxh')
    as [h' [Hrun Hrest]].
  assert (Hsz : in_range prot_size_t (Z.of_nat (List.length pt)))
    by (unfold prot_size_t; casts; lia).
  destruct (Arrays.setArray_true Host cmd Hc T pt _ h h' Hh Hsz Hrun) as [Hsent _].
  assert (Hrxa' : rx a = set_requests T cmd pt ++ []) by (now rewrite app_nil_r).
  destruct (serve_set_requests T cmd maxSize Hc pt pArr finalSize [] a Ha Hta Hpt
              ltac:(lia) Hmax H16 Hrxa') as [a' [Hdev [_ [_ [Htx Hrx]]]]].
  subst host device. rewrite Hrun, Hdev. cbn [fst snd].
  rewrite Hsent, Htxh, Nat2Z.id, Htx, Htxa, Hrxa, Hrxh.
  repeat split; auto.
Qed.

Lemma set_array_exchange_witness :
  let host :=
    dispatchSetArray Host prot_chan_t 0x4d [5; -3] (Z.of_nat (List.length [5; -3]))
      (mkSession true true (set_replies 0x4d 4 (List.length [5; -3])) [] []) in
  let device :=
    serve_set_array prot_chan_t 0x4d 4 None (S (List.length [5; -3] + 1))
      [0; 0; 0; 9] 0
      (mkSession true true (set_requests prot_chan_t 0x4d [5; -3]) [] []) in
  fst host = true
  /\ tx (snd host) = set_requests prot_chan_t 0x4d [5; -3]
  /\ rx (snd host) = []
  /\ fst device
     = ([5; -3] ++ skipn (List.length [5; -3]) [0; 0; 0; 9],
        Z.of_nat (List.length [5; -3]))
  /\ tx (snd device) = set_replies 0x4d 4 (List.length [5; -3])
  /\ rx (snd device) = [].
Proof.
  apply (set_array_exchange prot_chan_t 0x4d 4 0 [5; -3] [0; 0; 0; 9]
           (mkSession true true (set_replies 0x4d 4 (List.length [5; -3])) [] [])
           (mkSession true true (set_requests prot_chan_t 0x4d [5; -3]) [] []));
    try reflexivity; try (simpl; lia).
  - unfold in_range. simpl. lia.
  - repeat constructor; unfold in_range; simpl; lia.
Defined.

(** X21: an array that is longer than the array of the device.  The
    host asks for the maximum size, returns false and sends nothing
    else; the device has answered the one request and its array and
    [__finalSize] are as they were. *)
Theorem set_array_too_long :
  forall (T : ctype) (cmd maxSize finalSize : Z) (pt pArr : list Z)
         (h a : session),
    in_range prot_cmd_t cmd ->
    0 <= maxSize < Z.of_nat (List.length pt) -> maxSize <= 65535 ->
    started_ h = true -> tx h = [] ->
    started_ a = true -> target_ a = true -> tx a = [] ->
    rx a = size_query Host cmd ->
    rx h = payload Slave prot_cmd_t cmd ++ payload Slave avr_size_t maxSize ->
    let host := dispatchSetArray Host T cmd pt (Z.of_nat (List.length pt)) h in
    let device :=
      serve cmd (processSetArray T cmd pArr maxSize finalSize None)
        (false, pArr, finalSize) a in
    fst host = false
    /\ tx (snd host) = rx a /\ rx (snd host) = []
    /\ fst device = (true, pArr, finalSize)
    /\ tx (snd device) = rx h /\ rx (snd device) = [].
Proof.
  intros T cmd maxSize finalSize pt pArr h a Hc Hmax H16
         Hh Htxh Ha Hta Htxa Hrxa Hrxh host device.
  assert (Hrxa' : rx a = size_query Host cmd ++ []) by (now rewrite app_nil_r).
  destruct (serve_size T cmd maxSize Hc pArr finalSize [] a Ha Hta Hrxa')
    as [a' [Hdev [_ [_ [Htx Hrx]]]]].
  subst device. rewrite Hdev. cbn [fst snd]. rewrite Htx, Htxa, Hrx, Hrxh, Hrxa.
  subst host. unfold dispatchSetArray. mstep.
  rewrite (Arrays.putCommand_byte Host cmd Hc) by exact Hh. mstep.
  rewrite putValue_started by exact Hh. mstep.
  match goal with
  | |- context [checkReply Host cmd ?s2] =>
      rewrite (checkReply_value Host Slave cmd cmd _ s2 Hh Hc Hrxh)
  end.
  rewrite Z.eqb_refl. mstep.
  assert (Hm : in_range prot_size_t maxSize) by (unfold prot_size_t; casts; lia).
  assert (Hmf : - 2 ^ 28 < maxSize) by (change (2 ^ 28) with 268435456; lia).
  match goal with
  | |- context [getValue Host prot_size_t ?s3] =>
      assert (Hrx3 : rx s3 = payload Slave prot_size_t maxSize ++ [])
        by (now rewrite app_nil_r);
      rewrite (getValue_value Host Slave prot_size_t maxSize [] s3 Hh Hm Hmf Hrx3)
  end.
  mstep.
  replace (Z.of_nat (List.length pt) <=? maxSize) with false
    by (symmetry; apply Z.leb_gt; lia).
  cbn [fst snd]. rewrite rx_taken, tx_taken, tx_taken, !tx_sent, Htxh.
  repeat split; auto.
Qed.

Lemma set_array_too_long_witness :
  let host :=
    dispatchSetArray Host prot_size_t 0x4d [1; 2; 3] (Z.of_nat (List.length [1; 2; 3]))
      (mkSession true true
         (payload Slave prot_cmd_t 0x4d ++ payload Slave avr_size_t 2) [] []) in
  let device :=
    serve 0x4d (processSetArray prot_size_t 0x4d [7; 8] 2 0 None) (false, [7; 8], 0)
      (mkSession true true (size_query Host 0x4d) [] []) in
  fst host = false
  /\ tx (snd host) = size_query Host 0x4d
  /\ rx (snd host) = []
  /\ fst device = (true, [7; 8], 0)
  /\ tx (snd device) = payload Slave prot_cmd_t 0x4d ++ payload Slave avr_size_t 2
  /\ rx (snd device) = [].
Proof.
  apply (set_array_too_long prot_size_t 0x4d 2 0 [1; 2; 3] [7; 8]
           (mkSession true true
              (payload Slave prot_cmd_t 0x4d ++ payload Slave avr_size_t 2) [] [])
           (mkSession true true (size_query Host 0x4d) [] []));
    try reflexivity; try (simpl; lia).
  unfold in_range. simpl. lia.
Defined.

(** *** The bounds of the array *)






(** *** Reading an array *)

Section GetArray.

Variables (T : ctype) (cmd : Z) (pArr : list Z).
Hypothesis Hc : in_range prot_cmd_t cmd.
Hypothesis Hels : Forall (fun v => in_range T v /\ - 2 ^ 28 < v) pArr.
Hypothesis H16 : Z.of_nat (List.length pArr) <= 65535.

Lemma element_fits k :
  (k < List.length pArr)%nat ->
  in_range T (nth k pArr 0) /\ - 2 ^ 28 < nth k pArr 0.
Proof.
  intros Hk. rewrite Forall_forall in Hels. apply Hels. now apply nth_In.
Qed.

Lemma serve_get_array_app n m :
  forall s,
    serve_get_array T cmd pArr (Z.of_nat (List.length pArr)) None (n + m) s
    = serve_get_array T cmd pArr (Z.of_nat (List.length pArr)) None m
        (snd (serve_get_array T cmd pArr (Z.of_nat (List.length pArr)) None n s)).
Proof.
  induction n as [| n IH]; intros s; [reflexivity |].
  cbn [Nat.add serve_get_array]. unfold bind.
  destruct (serve cmd _ _ s) as [ok s1]. apply IH.
Qed.

Lemma serve_starting rest a :
  started_ a = true -> target_ a = true ->
  rx a = ([cmd] ++ payload Host prot_cmd_t SUBCMD_ARRAY_STARTING) ++ rest ->
  exists a',
    serve cmd (processGetArray T cmd pArr (Z.of_nat (List.length pArr)) None) false a = (true, a')
    /\ moved a a' (payload Slave prot_cmd_t cmd) rest.
Proof.
  intros Ha Hta Hrx. rewrite <- app_assoc in Hrx. cbn [app] in Hrx.
  rewrite (serve_request cmd _ _ _ a Ha Hta Hc Hrx).
  set (a1 := mkSession _ _ _ _ _).
  destruct (subcmd_in_range SUBCMD_ARRAY_STARTING
              ltac:(unfold SUBCMD_ARRAY_STARTING; lia)) as [Hr [Hf _]].
  pose proof (getValue_value Slave Host prot_cmd_t SUBCMD_ARRAY_STARTING
                rest a1 Ha Hr Hf eq_refl) as Hget.
  unfold processGetArray. rewrite (Arrays.bind_run _ _ _ _ _ Hget).
  rewrite Z.eqb_refl. rewrite reply_started by exact Ha.
  eexists. split; [reflexivity |].
  unfold moved. rewrite !started_sent, !target_sent, !tx_sent, !rx_sent.
  rewrite started_taken, target_taken, tx_taken, rx_taken.
  subst a1. cbn [started_ target_ tx]. auto.
Qed.

Lemma serve_get_size rest a :
  started_ a = true -> target_ a = true ->
  rx a = size_query Host cmd ++ rest ->
  exists a',
    serve cmd (processGetArray T cmd pArr (Z.of_nat (List.length pArr)) None) false a = (true, a')
    /\ moved a a' (payload Slave prot_cmd_t cmd ++ payload Slave avr_size_t (Z.of_nat (List.length pArr)))
         rest.
Proof.
  intros Ha Hta Hrx. unfold size_query in Hrx.
  rewrite <- app_assoc in Hrx. cbn [app] in Hrx.
  rewrite (serve_request cmd _ _ _ a Ha Hta Hc Hrx).
  set (a1 := mkSession _ _ _ _ _).
  destruct (subcmd_in_range SUBCMD_ARRAY_SIZE
              ltac:(unfold SUBCMD_ARRAY_SIZE; lia)) as [Hr [Hf _]].
  pose proof (getValue_value Slave Host prot_cmd_t SUBCMD_ARRAY_SIZE
                rest a1 Ha Hr Hf eq_refl) as Hget.
  unfold processGetArray. rewrite (Arrays.bind_run _ _ _ _ _ Hget).
  change (SUBCMD_ARRAY_SIZE =? SUBCMD_ARRAY_STARTING) with false.
  rewrite Z.eqb_refl. mstep.
  rewrite reply_started by exact Ha.
  rewrite putValue_started by exact Ha.
  eexists. split; [reflexivity |].
  unfold moved. rewrite !started_sent, !target_sent, !tx_sent, !rx_sent.
  rewrite started_taken, target_taken, tx_taken, rx_taken.
  subst a1. cbn [started_ target_ tx]. rewrite app_assoc. auto.
Qed.

Lemma serve_get_element k rest a :
  started_ a = true -> target_ a = true -> (k < List.length pArr)%nat ->
  rx a = get_element_request cmd k ++ rest ->
  exists a',
    serve cmd (processGetArray T cmd pArr (Z.of_nat (List.length pArr)) None) false a = (true, a')
    /\ moved a a' (get_element_reply T cmd pArr k) rest.
Proof.
  intros Ha Hta Hk Hrx. unfold get_element_request in Hrx.
  rewrite <- !app_assoc in Hrx. cbn [app] in Hrx.
  rewrite (serve_request cmd _ _ _ a Ha Hta Hc Hrx).
  set (a1 := mkSession _ _ _ _ _).
  destruct (subcmd_in_range SUBCMD_ARRAY_ELEMENT
              ltac:(unfold SUBCMD_ARRAY_ELEMENT; lia)) as [Hr [Hf _]].
  pose proof (getValue_value Slave Host prot_cmd_t SUBCMD_ARRAY_ELEMENT
                _ a1 Ha Hr Hf eq_refl) as Hget.
  unfold processGetArray. rewrite (Arrays.bind_run _ _ _ _ _ Hget).
  change (SUBCMD_ARRAY_ELEMENT =? SUBCMD_ARRAY_STARTING) with false.
  change (SUBCMD_ARRAY_ELEMENT =? SUBCMD_ARRAY_SIZE) with false.
  rewrite Z.eqb_refl. cbv iota.
  set (a2 := taken _ _ a1).
  assert (Hidx : in_range prot_size_t (Z.of_nat k))
    by (unfold prot_size_t; casts; lia).
  assert (Hidxf : - 2 ^ 28 < Z.of_nat k)
    by (change (2 ^ 28) with 268435456; lia).
  pose proof (getValue_value Slave Host prot_size_t (Z.of_nat k) rest a2 Ha
                Hidx Hidxf eq_refl) as Hget2.
  rewrite (Arrays.bind_run _ _ _ _ _ Hget2).
  replace (Z.of_nat k <? (Z.of_nat (List.length pArr))) with true
    by (symmetry; apply Z.ltb_lt; lia).
  rewrite Nat2Z.id. mstep.
  rewrite reply_started by exact Ha.
  rewrite putValue_started by exact Ha.
  eexists. split; [reflexivity |].
  unfold moved, get_element_reply.
  rewrite !started_sent, !target_sent, !tx_sent, !rx_sent.
  subst a2. rewrite !started_taken, !target_taken, !tx_taken, !rx_taken.
  subst a1. cbn [started_ target_ tx]. rewrite app_assoc. auto.
Qed.

Lemma serve_get_elements :
  forall n k rest a,
    started_ a = true -> target_ a = true -> (k + n <= List.length pArr)%nat ->
    rx a = concat (map (get_element_request cmd) (seq k n)) ++ rest ->
    moved a (snd (serve_get_array T cmd pArr (Z.of_nat (List.length pArr)) None n a))
      (concat (map (get_element_reply T cmd pArr) (seq k n))) rest.
Proof.
  induction n as [| n IH]; intros k rest a Ha Hta Hkn Hrx.
  - simpl in *. unfold moved. rewrite app_nil_r. auto.
  - cbn [seq map concat] in *. rewrite <- app_assoc in Hrx.
    destruct (serve_get_element k _ a Ha Hta ltac:(lia) Hrx)
      as [a1 [Hrun [A1 [A2 [A3 A4]]]]].
    cbn [serve_get_array]. rewrite (Arrays.bind_run _ _ _ _ _ Hrun).
    apply (moved_trans a a1 _ _ _ _ _ (conj A1 (conj A2 (conj A3 A4)))).
    apply IH; [exact A1 | now rewrite A2 | lia | exact A4].
Qed.

Lemma serve_get_requests rest a :
  started_ a = true -> target_ a = true ->
  rx a = get_requests cmd (List.length pArr) ++ rest ->
  moved a (snd (serve_get_array T cmd pArr (Z.of_nat (List.length pArr)) None (S (S (List.length pArr))) a))
    (get_replies T cmd pArr) rest.
Proof.
  intros Ha Hta Hrx. unfold get_requests in Hrx. rewrite <- !app_assoc in Hrx.
  rewrite !app_assoc in Hrx. rewrite <- !app_assoc in Hrx.
  assert (Hrx1 : rx a = ([cmd] ++ payload Host prot_cmd_t SUBCMD_ARRAY_STARTING)
                        ++ size_query Host cmd
                        ++ concat (map (get_element_request cmd)
                                     (seq 0 (List.length pArr))) ++ rest).
  { rewrite Hrx. unfold size_query. rewrite <- !app_assoc. reflexivity. }
  destruct (serve_starting _ a Ha Hta Hrx1) as [a1 [Hrun1 M1]].
  cbn [serve_get_array]. rewrite (Arrays.bind_run _ _ _ _ _ Hrun1).
  pose proof M1 as [A1 [A2 [A3 A4]]].
  destruct (serve_get_size _ a1 A1 ltac:(now rewrite A2) A4) as [a2 [Hrun2 M2]].
  rewrite (Arrays.bind_run _ _ _ _ _ Hrun2).
  pose proof M2 as [B1 [B2 [B3 B4]]].
  pose proof (serve_get_elements (List.length pArr) 0 rest a2 B1
                ltac:(now rewrite B2, A2) ltac:(lia) B4) as M3.
  unfold get_replies.
  apply (moved_trans a a1 _ _ _ _ _ M1).
  apply (moved_trans a1 a2 _ _ _ _ _ M2). exact M3.
Qed.

(** The host on the replies. *)
Lemma host_get_elements pt0 :
  forall n k rest h,
    started_ h = true -> (k + n <= List.length pArr)%nat ->
    (List.length pArr <= List.length pt0)%nat ->
    rx h = concat (map (get_element_reply T cmd pArr) (seq k n)) ++ rest ->
    exists h',
      dispatchGetArray_elements Host T cmd (firstn k pArr ++ skipn k pt0) n
        (Z.of_nat k) h
      = (true, firstn (k + n) pArr ++ skipn (k + n) pt0, h')
      /\ moved h h' (concat (map (get_element_request cmd) (seq k n))) rest.
Proof.
  induction n as [| n IH]; intros k rest h Hh Hkn Hlen Hrx.
  - exists h. rewrite Nat.add_0_r. split; [reflexivity |].
    simpl in *. unfold moved. rewrite app_nil_r. auto.
  - cbn [seq map concat] in *. unfold get_element_reply at 1 in Hrx.
    rewrite <- !app_assoc in Hrx.
    cbn [dispatchGetArray_elements]. mstep.
    rewrite (Arrays.putCommand_byte Host cmd Hc) by exact Hh. mstep.
    rewrite putValue_started by exact Hh. mstep.
    rewrite putValue_started by exact Hh. mstep.
    match goal with
    | |- context [checkReply Host cmd ?s3] =>
        rewrite (checkReply_value Host Slave cmd cmd _ s3 Hh Hc Hrx)
    end.
    rewrite Z.eqb_refl. mstep.
    destruct (element_fits k ltac:(lia)) as [Hel Hfit].
    match goal with
    | |- context [getValue Host T ?s4] =>
        rewrite (getValue_value Host Slave T (nth k pArr 0) _ s4 Hh Hel Hfit eq_refl)
    end.
    mstep. rewrite store_next by lia. rewrite Arrays.next_index by lia.
    match goal with
    | |- context [dispatchGetArray_elements Host T cmd _ n _ ?s5] =>
        destruct (IH (S k) rest s5 Hh ltac:(lia) Hlen eq_refl)
          as [h' [Hrun [M1 [M2 [M3 M4]]]]]
    end.
    exists h'. rewrite Hrun. replace (S k + n)%nat with (k + S n)%nat by lia.
    split; [reflexivity |].
    unfold moved. rewrite M2, M3, M4.
    rewrite !target_taken, !target_sent, !tx_taken, !tx_sent.
    unfold get_element_request at 2. rewrite <- !app_assoc. auto.
Qed.

Lemma host_getArray pt0 maxSize size0 rest h :
  started_ h = true -> (Z.of_nat (List.length pArr)) <= maxSize ->
  (List.length pArr <= List.length pt0)%nat ->
  rx h = get_replies T cmd pArr ++ rest ->
  exists h',
    dispatchGetArray Host T cmd pt0 maxSize size0 h
    = (true, pArr ++ skipn (List.length pArr) pt0, (Z.of_nat (List.length pArr)), h')
    /\ moved h h' (get_requests cmd (List.length pArr)) rest.
Proof.
  intros Hh Hmax Hlen Hrx. unfold get_replies in Hrx.
  rewrite <- !app_assoc in Hrx.
  unfold dispatchGetArray. mstep.
  rewrite (Arrays.putCommand_byte Host cmd Hc) by exact Hh. mstep.
  rewrite putValue_started by exact Hh. mstep.
  match goal with
  | |- context [checkReply Host cmd ?s2] =>
      rewrite (checkReply_value Host Slave cmd cmd _ s2 Hh Hc Hrx)
  end.
  rewrite Z.eqb_refl. mstep.
  rewrite (Arrays.putCommand_byte Host cmd Hc) by exact Hh. mstep.
  rewrite putValue_started by exact Hh. mstep.
  match goal with
  | |- context [checkReply Host cmd ?s2] =>
      rewrite (checkReply_value Host Slave cmd cmd _ s2 Hh Hc eq_refl)
  end.
  rewrite Z.eqb_refl. mstep.
  assert (Hm : in_range prot_size_t (Z.of_nat (List.length pArr)))
    by (unfold prot_size_t; casts; lia).
  assert (Hmf : - 2 ^ 28 < (Z.of_nat (List.length pArr)))
    by (change (2 ^ 28) with 268435456; lia).
  match goal with
  | |- context [getValue Host prot_size_t ?s3] =>
      rewrite (getValue_value Host Slave prot_size_t (Z.of_nat (List.length pArr)) _ s3 Hh Hm Hmf eq_refl)
  end.
  mstep.
  replace ((Z.of_nat (List.length pArr)) <=? maxSize) with true by (symmetry; apply Z.leb_le; lia).
  mstep. rewrite Nat2Z.id.
  match goal with
  | |- context [dispatchGetArray_elements Host T cmd pt0 _ 0 ?s4] =>
      destruct (host_get_elements pt0 (List.length pArr) 0 rest s4 Hh
                  ltac:(lia) Hlen eq_refl) as [h5 [Hrun [M1 [M2 [M3 M4]]]]]
  end.
  cbn [firstn skipn app Nat.add] in Hrun. change (Z.of_nat 0) with 0 in Hrun.
  rewrite Hrun, firstn_all. exists h5. split; [reflexivity |].
  unfold moved. rewrite M2, M3, M4.
  unfold taken, sent. cbn [tx target_ started_].
  unfold get_requests, size_query. rewrite <- !app_assoc. auto.
Qed.

End GetArray.

(** X23: [dispatchGetArray] on the host against the simple
    [processGetArray] on the Arduino, for an array that fits the
    buffer of the host and whose elements are written with at most
    eight characters.  What the host sends is what the device reads in
    its [length + 2] turns, and what the device answers is what the
    host reads.  The host returns true with the length of the array;
    its buffer holds the elements of the device in the first places
    and is unchanged after them. *)
Theorem get_array_exchange :
  forall (T : ctype) (cmd maxSize size0 : Z) (pt pArr : list Z) (h a : session),
    in_range prot_cmd_t cmd ->
    Forall (fun v => in_range T v /\ - 2 ^ 28 < v) pArr ->
    Z.of_nat (List.length pArr) <= maxSize -> maxSize <= 65535 ->
    Z.of_nat (List.length pt) = maxSize ->
    started_ h = true -> tx h = [] ->
    started_ a = true -> target_ a = true -> tx a = [] ->
    rx a = get_requests cmd (List.length pArr) ->
    rx h = get_replies T cmd pArr ->
    let host := dispatchGetArray Host T cmd pt maxSize size0 h in
    let device :=
      serve_get_array T cmd pArr (Z.of_nat (List.length pArr)) None
        (S (S (List.length pArr))) a in
    fst host = (true, pArr ++ skipn (List.length pArr) pt,
                Z.of_nat (List.length pArr))
    /\ tx (snd host) = rx a /\ rx (snd host) = []
    /\ tx (snd device) = rx h /\ rx (snd device) = [].
Proof.
  intros T cmd maxSize size0 pt pArr h a Hc Hels Hmax H16 Hlen
         Hh Htxh Ha Hta Htxa Hrxa Hrxh host device.
  assert (Hrxh' : rx h = get_replies T cmd pArr ++ []) by (now rewrite app_nil_r).
  assert (Hrxa' : rx a = get_requests cmd (List.length pArr) ++ [])
    by (now rewrite app_nil_r).
  destruct (host_getArray T cmd pArr Hc Hels ltac:(lia) pt maxSize size0 [] h Hh
              Hmax ltac:(lia) Hrxh') as [h' [Hrun [_ [_ [Htx Hrx]]]]].
  destruct (serve_get_requests T cmd pArr Hc ltac:(lia) [] a Ha Hta Hrxa')
    as [_ [_ [Htx' Hrx']]].
  subst host device. rewrite Hrun. cbn [fst snd].
  rewrite Htx, Htxh, Hrx, Htx', Htxa, Hrx', Hrxa, Hrxh. auto.
Qed.

Lemma get_array_exchange_witness :
  let host :=
    dispatchGetArray Host prot_chan_t 0x47 [0; 0; 9] 3 0
      (mkSession true true (get_replies prot_chan_t 0x47 [-7; 42]) [] []) in
  let device :=
    serve_get_array prot_chan_t 0x47 [-7; 42] (Z.of_nat (List.length [-7; 42])) None
      (S (S (List.length [-7; 42])))
      (mkSession true true (get_requests 0x47 (List.length [-7; 42])) [] []) in
  fst host = (true, [-7; 42] ++ skipn (List.length [-7; 42]) [0; 0; 9],
              Z.of_nat (List.length [-7; 42]))
  /\ tx (snd host) = get_requests 0x47 (List.length [-7; 42])
  /\ rx (snd host) = []
  /\ tx (snd device) = get_replies prot_chan_t 0x47 [-7; 42]
  /\ rx (snd device) = [].
Proof.
  apply (get_array_exchange prot_chan_t 0x47 3 0 [0; 0; 9] [-7; 42]
           (mkSession true true (get_replies prot_chan_t 0x47 [-7; 42]) [] [])
           (mkSession true true (get_requests 0x47 (List.length [-7; 42])) [] []));
    try reflexivity; try (simpl; lia).
  - unfold in_range. simpl. lia.
  - repeat constructor; unfold in_range; simpl; lia.
Defined.

(** X24: an array of the device that is longer than the buffer of the
    host.  After the starting and the size request the host returns
    false without asking for an element; its buffer is unchanged, but
    [__size] holds the length of the remote array. *)
Theorem get_array_too_long :
  forall (T : ctype) (cmd maxSize size0 : Z) (pt pArr : list Z) (h a : session),
    in_range prot_cmd_t cmd ->
    maxSize < Z.of_nat (List.length pArr) <= 65535 ->
    started_ h = true -> tx h = [] ->
    started_ a = true -> target_ a = true -> tx a = [] ->
    rx a = get_requests cmd 0 ->
    rx h = payload Slave prot_cmd_t cmd
           ++ payload Slave prot_cmd_t cmd
           ++ payload Slave avr_size_t (Z.of_nat (List.length pArr)) ->
    let host := dispatchGetArray Host T cmd pt maxSize size0 h in
    let device :=
      serve_get_array T cmd pArr (Z.of_nat (List.length pArr)) None 2 a in
    fst host = (false, pt, Z.of_nat (List.length pArr))
    /\ tx (snd host) = rx a /\ rx (snd host) = []
    /\ tx (snd device) = rx h /\ rx (snd device) = [].
Proof.
  intros T cmd maxSize size0 pt pArr h a Hc Hmax Hh Htxh Ha Hta Htxa Hrxa Hrxh
         host device.
  (* the device *)
  assert (Hrxa1 : rx a = ([cmd] ++ payload Host prot_cmd_t SUBCMD_ARRAY_STARTING)
                         ++ size_query Host cmd ++ []).
  { rewrite Hrxa. unfold get_requests. cbn [seq map concat].
    now rewrite !app_nil_r. }
  destruct (serve_starting T cmd pArr Hc _ a Ha Hta Hrxa1)
    as [a1 [Hrun1 [A1 [A2 [A3 A4]]]]].
  destruct (serve_get_size T cmd pArr Hc [] a1 A1 ltac:(now rewrite A2) A4)
    as [a2 [Hrun2 [B1 [B2 [B3 B4]]]]].
  assert (Hdev : snd device = a2).
  { subst device. cbn [serve_get_array].
    rewrite (Arrays.bind_run _ _ _ _ _ Hrun1).
    now rewrite (Arrays.bind_run _ _ _ _ _ Hrun2). }
  rewrite Hdev, B3, A3, Htxa, B4, Hrxh, Hrxa.
  (* the host *)
  subst host. unfold dispatchGetArray. mstep.
  rewrite (Arrays.putCommand_byte Host cmd Hc) by exact Hh. mstep.
  rewrite putValue_started by exact Hh. mstep.
  match goal with
  | |- context [checkReply Host cmd ?s2] =>
      rewrite (checkReply_value Host Slave cmd cmd _ s2 Hh Hc Hrxh)
  end.
  rewrite Z.eqb_refl. mstep.
  rewrite (Arrays.putCommand_byte Host cmd Hc) by exact Hh. mstep.
  rewrite putValue_started by exact Hh. mstep.
  match goal with
  | |- context [checkReply Host cmd ?s2] =>
      rewrite (checkReply_value Host Slave cmd cmd _ s2 Hh Hc eq_refl)
  end.
  rewrite Z.eqb_refl. mstep.
  assert (Hm : in_range prot_size_t (Z.of_nat (List.length pArr)))
    by (unfold prot_size_t; casts; lia).
  assert (Hmf : - 2 ^ 28 < Z.of_nat (List.length pArr))
    by (change (2 ^ 28) with 268435456; lia).
  match goal with
  | |- context [getValue Host prot_size_t ?s3] =>
      assert (Hrx3 : rx s3 = payload Slave prot_size_t (Z.of_nat (List.length pArr))
                             ++ []) by (now rewrite app_nil_r);
      rewrite (getValue_value Host Slave prot_size_t _ [] s3 Hh Hm Hmf Hrx3)
  end.
  mstep.
  replace (Z.of_nat (List.length pArr) <=? maxSize) with false
    by (symmetry; apply Z.leb_gt; lia).
  cbn [negb fst snd]. unfold taken, sent. cbn [tx rx]. rewrite Htxh.
  unfold get_requests, size_query. cbn [seq map concat].
  rewrite !app_nil_r, <- !app_assoc. auto.
Qed.

Lemma get_array_too_long_witness :
  let host :=
    dispatchGetArray Host prot_size_t 0x47 [0; 0] 2 0
      (mkSession true true
         (payload Slave prot_cmd_t 0x47 ++ payload Slave prot_cmd_t 0x47
          ++ payload Slave avr_size_t (Z.of_nat (List.length [1; 2; 3]))) [] []) in
  let device :=
    serve_get_array prot_size_t 0x47 [1; 2; 3] (Z.of_nat (List.length [1; 2; 3]))
      None 2 (mkSession true true (get_requests 0x47 0) [] []) in
  fst host = (false, [0; 0], Z.of_nat (List.length [1; 2; 3]))
  /\ tx (snd host) = get_requests 0x47 0
  /\ rx (snd host) = []
  /\ tx (snd device)
     = payload Slave prot_cmd_t 0x47 ++ payload Slave prot_cmd_t 0x47
       ++ payload Slave avr_size_t (Z.of_nat (List.length [1; 2; 3]))
  /\ rx (snd device) = [].
Proof.
  apply (get_array_too_long prot_size_t 0x47 2 0 [0; 0] [1; 2; 3]
           (mkSession true true
              (payload Slave prot_cmd_t 0x47 ++ payload Slave prot_cmd_t 0x47
               ++ payload Slave avr_size_t (Z.of_nat (List.length [1; 2; 3]))) [] [])
           (mkSession true true (get_requests 0x47 0) [] []));
    try reflexivity; try (simpl; lia).
  unfold in_range. simpl. lia.
Defined.

(** X25: the simple [processGetArray] keeps to the bounds it is given.
    Whatever arrives, its answer is the error reply, the reply alone,
    the reply with [__size], or the reply with the element at an index
    below [__size]: no place outside the array is read out. *)
Theorem processGetArray_in_bounds :
  forall (T : ctype) (cmd size : Z) (pArr : list Z) (beforeGet : option (M bool))
         (s : session),
    started_ s = true ->
    (forall fn, beforeGet = Some fn -> quiet fn) ->
    exists answer,
      tx (snd (processGetArray T cmd pArr size beforeGet s)) = tx s ++ answer
      /\ (answer = payload Slave prot_cmd_t PROT_ERROR
          \/ answer = payload Slave prot_cmd_t cmd
          \/ answer = payload Slave prot_cmd_t cmd ++ payload Slave avr_size_t size
          \/ exists index,
               0 <= index < size
               /\ answer = payload Slave prot_cmd_t cmd
                           ++ payload Slave T (nth (Z.to_nat index) pArr 0)).
Proof.
  intros T cmd size pArr beforeGet s Hs Hq.
  assert (Herr : forall s1, started_ s1 = true -> tx s1 = tx s ->
            exists answer,
              tx (snd (replyError Slave s1)) = tx s ++ answer
              /\ (answer = payload Slave prot_cmd_t PROT_ERROR
                  \/ answer = payload Slave prot_cmd_t cmd
                  \/ answer = payload Slave prot_cmd_t cmd
                              ++ payload Slave avr_size_t size
                  \/ exists index,
                       0 <= index < size
                       /\ answer = payload Slave prot_cmd_t cmd
                                   ++ payload Slave T (nth (Z.to_nat index) pArr 0))).
  { intros s1 Hs1 Htx. eexists. rewrite replyError_started by exact Hs1.
    cbn [snd]. rewrite tx_sent, Htx. split; [reflexivity | now left]. }
  assert (Hrep : forall s1, started_ s1 = true -> tx s1 = tx s ->
            exists answer,
              tx (snd (reply Slave cmd s1)) = tx s ++ answer
              /\ (answer = payload Slave prot_cmd_t PROT_ERROR
                  \/ answer = payload Slave prot_cmd_t cmd
                  \/ answer = payload Slave prot_cmd_t cmd
                              ++ payload Slave avr_size_t size
                  \/ exists index,
                       0 <= index < size
                       /\ answer = payload Slave prot_cmd_t cmd
                                   ++ payload Slave T (nth (Z.to_nat index) pArr 0))).
  { intros s1 Hs1 Htx. eexists. rewrite reply_started by exact Hs1.
    cbn [snd]. rewrite tx_sent, Htx. split; [reflexivity | right; now left]. }
  unfold processGetArray.
  rewrite (after_getValue Slave) by exact Hs.
  set (s1 := received _ _ _ s).
  assert (Hs1 : started_ s1 = true) by (subst s1; now rewrite received_started).
  assert (Htx1 : tx s1 = tx s) by apply received_tx.
  destruct (decode prot_cmd_t _) as [subCmd |]; [| now apply Herr].
  destruct (subCmd =? SUBCMD_ARRAY_STARTING).
  { destruct beforeGet as [fn |]; [| now apply Hrep].
    unfold test at 1.
    pose proof (call_task_quiet fn s1 (Hq fn eq_refl)) as Hsame.
    destruct (call_task fn s1) as [ok s2] eqn:E. cbn [snd] in Hsame. subst s2.
    rewrite (Arrays.bind_run _ _ _ _ _ E).
    destruct (negb ok); [now apply Herr | now apply Hrep]. }
  destruct (subCmd =? SUBCMD_ARRAY_SIZE).
  { eexists. mstep. rewrite reply_started by exact Hs1.
    rewrite putValue_started by exact Hs1. cbn [snd].
    rewrite !tx_sent, Htx1, <- app_assoc.
    split; [reflexivity | right; right; now left]. }
  destruct (subCmd =? SUBCMD_ARRAY_ELEMENT); [| now apply Herr].
  rewrite (after_getValue Slave) by exact Hs1.
  set (s2 := received _ _ _ s1).
  assert (Hs2 : started_ s2 = true) by (subst s2; now rewrite received_started).
  assert (Htx2 : tx s2 = tx s) by (subst s2; now rewrite received_tx).
  destruct (decode prot_size_t _) as [index |] eqn:Hdec; [| now apply Herr].
  destruct (index <? size) eqn:Hlt; [| now apply Herr].
  eexists. mstep. rewrite reply_started by exact Hs2.
  rewrite putValue_started by exact Hs2. cbn [snd].
  rewrite !tx_sent, Htx2, <- app_assoc.
  split; [reflexivity |]. right; right; right. exists index.
  split; [| reflexivity]. apply Z.ltb_lt in Hlt. split; [| exact Hlt].
  assert (Hr : in_range prot_size_t index).
  { unfold decode in Hdec. destruct (fst (delivered _ _ _ _)); [discriminate |].
    injection Hdec as <-. apply scan_value_range. }
  unfold in_range in Hr. cbn [IS_SIGNED prot_size_t bits] in Hr. lia.
Qed.

Lemma processGetArray_in_bounds_witness :
  exists answer,
    tx (snd (processGetArray prot_size_t 0x47 [1; 2] 2 None
               (mkSession true true
                  (bytes_of_string "3" ++ PROT_TERM_CHAR
                   :: bytes_of_string "2" ++ [PROT_TERM_CHAR]) [] [])))
    = [] ++ answer
    /\ (answer = payload Slave prot_cmd_t PROT_ERROR
        \/ answer = payload Slave prot_cmd_t 0x47
        \/ answer = payload Slave prot_cmd_t 0x47 ++ payload Slave avr_size_t 2
        \/ exists index,
             0 <= index < 2
             /\ answer = payload Slave prot_cmd_t 0x47
                         ++ payload Slave prot_size_t (nth (Z.to_nat index) [1; 2] 0)).
Proof.
  apply (processGetArray_in_bounds prot_size_t 0x47 2 [1; 2] None
           (mkSession true true
              (bytes_of_string "3" ++ PROT_TERM_CHAR
               :: bytes_of_string "2" ++ [PROT_TERM_CHAR]) [] [])).
  - reflexivity.
  - discriminate.
Defined.

(** X26: the size queries.  [dispatchGetArrayMaxSize] against the
    simple [processSetArray] returns the [__maxSize] of the device,
    and [dispatchGetArraySize] against the simple [processGetArray]
    returns its [__size]; request and answer are the same bytes in
    both cases. *)
Theorem array_size_queries :
  forall (T : ctype) (cmd maxSize finalSize : Z) (pArr gArr : list Z)
         (h a : session),
    in_range prot_cmd_t cmd ->
    0 <= maxSize <= 65535 -> Z.of_nat (List.length gArr) = maxSize ->
    started_ h = true -> tx h = [] ->
    started_ a = true -> target_ a = true -> tx a = [] ->
    rx a = size_query Host cmd ->
    rx h = payload Slave prot_cmd_t cmd ++ payload Slave avr_size_t maxSize ->
    fst (dispatchGetArrayMaxSize Host cmd h) = Some maxSize
    /\ tx (snd (dispatchGetArrayMaxSize Host cmd h)) = rx a
    /\ tx (snd (serve cmd (processSetArray T cmd pArr maxSize finalSize None)
                  (false, pArr, finalSize) a)) = rx h
    /\ fst (dispatchGetArraySize Host cmd h) = Some maxSize
    /\ tx (snd (dispatchGetArraySize Host cmd h)) = rx a
    /\ tx (snd (serve cmd (processGetArray T cmd gArr maxSize None) false a)) = rx h.
Proof.
  intros T cmd maxSize finalSize pArr gArr h a Hc Hmax Hg Hh Htxh Ha Hta Htxa
         Hrxa Hrxh.
  assert (Hrxa' : rx a = size_query Host cmd ++ []) by (now rewrite app_nil_r).
  destruct (serve_size T cmd maxSize Hc pArr finalSize [] a Ha Hta Hrxa')
    as [a1 [Hdev1 [_ [_ [Htx1 _]]]]].
  destruct (serve_get_size T cmd gArr Hc [] a Ha Hta Hrxa')
    as [a2 [Hdev2 [_ [_ [Htx2 _]]]]].
  rewrite Hg in Hdev2, Htx2.
  rewrite Hdev1, Hdev2. cbn [snd]. rewrite Htx1, Htx2, Htxa, Hrxh, Hrxa.
  assert (Hm : in_range prot_size_t maxSize) by (unfold prot_size_t; casts; lia).
  assert (Hmf : - 2 ^ 28 < maxSize) by (change (2 ^ 28) with 268435456; lia).
  assert (Hhost : dispatchGetArrayMaxSize Host cmd h
                  = (Some maxSize,
                     taken (print_value Slave prot_size_t maxSize) []
                       (taken (print_value Slave prot_cmd_t cmd)
                          (payload Slave avr_size_t maxSize)
                          (sent (payload Host prot_cmd_t SUBCMD_ARRAY_SIZE)
                             (EvWriteBuffer (payload Host prot_cmd_t SUBCMD_ARRAY_SIZE))
                             (sent [cmd] (EvWriteByte cmd) h))))).
  { unfold dispatchGetArrayMaxSize. mstep.
    rewrite (Arrays.putCommand_byte Host cmd Hc) by exact Hh. mstep.
    rewrite putValue_started by exact Hh. mstep.
    match goal with
    | |- context [checkReply Host cmd ?s2] =>
        rewrite (checkReply_value Host Slave cmd cmd _ s2 Hh Hc Hrxh)
    end.
    rewrite Z.eqb_refl. mstep.
    match goal with
    | |- context [getValue Host prot_size_t ?s3] =>
        assert (Hrx3 : rx s3 = payload Slave prot_size_t maxSize ++ [])
          by (now rewrite app_nil_r);
        rewrite (getValue_value Host Slave prot_size_t maxSize [] s3 Hh Hm Hmf Hrx3)
    end.
    reflexivity. }
  change (dispatchGetArraySize Host cmd h) with (dispatchGetArrayMaxSize Host cmd h).
  rewrite Hhost. cbn [fst snd]. unfold taken, sent. cbn [tx]. rewrite Htxh.
  unfold size_query. repeat split; reflexivity.
Qed.

Lemma array_size_queries_witness :
  fst (dispatchGetArrayMaxSize Host 0x4d
         (mkSession true true
            (payload Slave prot_cmd_t 0x4d ++ payload Slave avr_size_t 2) [] []))
  = Some 2
  /\ tx (snd (dispatchGetArrayMaxSize Host 0x4d
                (mkSession true true
                   (payload Slave prot_cmd_t 0x4d ++ payload Slave avr_size_t 2) [] [])))
     = size_query Host 0x4d
  /\ tx (snd (serve 0x4d (processSetArray prot_chan_t 0x4d [0; 0] 2 0 None)
                (false, [0; 0], 0)
                (mkSession true true (size_query Host 0x4d) [] [])))
     = payload Slave prot_cmd_t 0x4d ++ payload Slave avr_size_t 2
  /\ fst (dispatchGetArraySize Host 0x4d
            (mkSession true true
               (payload Slave prot_cmd_t 0x4d ++ payload Slave avr_size_t 2) [] []))
     = Some 2
  /\ tx (snd (dispatchGetArraySize Host 0x4d
                (mkSession true true
                   (payload Slave prot_cmd_t 0x4d ++ payload Slave avr_size_t 2) [] [])))
     = size_query Host 0x4d
  /\ tx (snd (serve 0x4d (processGetArray prot_chan_t 0x4d [5; 6] 2 None) false
                (mkSession true true (size_query Host 0x4d) [] [])))
     = payload Slave prot_cmd_t 0x4d ++ payload Slave avr_size_t 2.
Proof.
  apply (array_size_queries prot_chan_t 0x4d 2 0 [0; 0] [5; 6]
           (mkSession true true
              (payload Slave prot_cmd_t 0x4d ++ payload Slave avr_size_t 2) [] [])
           (mkSession true true (size_query Host 0x4d) [] []));
    try reflexivity; try (simpl; lia).
  unfold in_range. simpl. lia.
Defined.

End ArraysMore.

(** * The array exchanges as a whole *)

Module ArrayClaims.
Import Hex Wire Codec Arrays CodecMore StringsMore FrameMore ArraysMore.

(** The set of [100, 110, 120, 130] under command [0x4d]: the bytes the
    host sends. *)
Example set_sequence_bytes :
  fst (dispatchSetArray Host U16 0x4d [100; 110; 120; 130] 4
         (mkSession true true set_answers [] [])) = true
  /\ tx (snd (dispatchSetArray Host U16 0x4d [100; 110; 120; 130] 4
                (mkSession true true set_answers [] [])))
     = [0x4d] ++ bytes_of_string "1" ++ [PROT_TERM_CHAR]
       ++ [0x4d] ++ bytes_of_string "3" ++ [PROT_TERM_CHAR]
          ++ bytes_of_string "0" ++ [PROT_TERM_CHAR] ++ bytes_of_string "64" ++ [PROT_TERM_CHAR]
       ++ [0x4d] ++ bytes_of_string "3" ++ [PROT_TERM_CHAR]
          ++ bytes_of_string "1" ++ [PROT_TERM_CHAR] ++ bytes_of_string "6e" ++ [PROT_TERM_CHAR]
       ++ [0x4d] ++ bytes_of_string "3" ++ [PROT_TERM_CHAR]
          ++ bytes_of_string "2" ++ [PROT_TERM_CHAR] ++ bytes_of_string "78" ++ [PROT_TERM_CHAR]
       ++ [0x4d] ++ bytes_of_string "3" ++ [PROT_TERM_CHAR]
          ++ bytes_of_string "3" ++ [PROT_TERM_CHAR] ++ bytes_of_string "82" ++ [PROT_TERM_CHAR]
       ++ [0x4d] ++ bytes_of_string "4" ++ [PROT_TERM_CHAR]
          ++ bytes_of_string "4" ++ [PROT_TERM_CHAR].
Proof. split; vm_compute; reflexivity. Qed.

(** The same array for a slave that holds at most two elements: the
    host stops after the size exchange. *)
Example set_too_long_bytes :
  dispatchSetArray Host U16 0x4d [100; 110; 120; 130] 4
    (mkSession true true small_answers [] [])
  = (false,
     snd (dispatchGetArrayMaxSize Host 0x4d (mkSession true true small_answers [] [])))
  /\ tx (snd (dispatchSetArray Host U16 0x4d [100; 110; 120; 130] 4
                (mkSession true true small_answers [] [])))
     = [0x4d] ++ bytes_of_string "1" ++ [PROT_TERM_CHAR].
Proof. split; vm_compute; reflexivity. Qed.

(** C6: [dispatchSetArray] first performs the SUBCMD_ARRAY_SIZE
    exchange of [dispatchGetArrayMaxSize]; when that yields no maximum
    it returns false there.  When it yields a maximum below the length
    it returns false and has sent nothing but the query.  Otherwise it
    sends SUBCMD_ARRAY_ELEMENT messages for the indices 0, 1, ... in
    increasing order, each with the index and the element, the first
    of them in any case, and the SUBCMD_ARRAY_FINISHED message with
    the length only after all of them.  When every reply is the echo
    of the command it sends one element message per index from 0 to
    len-1 and the finishing message, and returns true.  When it
    returns true it has sent all of these, every reply it read was the
    echo of the command, and the maximum was not below the length. *)
Theorem dispatchSetArray_sequence :
  forall (r : role) (T : ctype) (cmd : Z) (pt : list Z) (size : Z) (s : session),
    in_range prot_cmd_t cmd -> in_range prot_size_t size ->
    size = Z.of_nat (List.length pt) ->
    let run := dispatchSetArray r T cmd pt size s in
    let all_messages :=
      size_query r cmd
      ++ concat (map (element_msg r T cmd pt) (seq 0 (List.length pt)))
      ++ finished_msg r cmd size in
    match dispatchGetArrayMaxSize r cmd s with
    | (None, s1) => run = (false, s1)
    | (Some maxSize, s1) =>
        tx s1 = tx s ++ size_query r cmd
        /\ (maxSize < size -> run = (false, s1))
        /\ (size <= maxSize ->
            exists j tail,
              (Nat.min 1 (List.length pt) <= j <= List.length pt)%nat
              /\ tx (snd run)
                 = tx s ++ size_query r cmd
                        ++ concat (map (element_msg r T cmd pt) (seq 0 j)) ++ tail
              /\ (tail = []
                  \/ (j = List.length pt /\ tail = finished_msg r cmd size)))
        /\ (size <= maxSize ->
            forall (r0 : role) (rest : list Z),
              rx s1 = concat (repeat (payload r0 prot_cmd_t cmd)
                                (S (List.length pt))) ++ rest ->
              fst run = true
              /\ tx (snd run) = tx s ++ all_messages
              /\ rx (snd run) = rest)
        /\ (fst run = true ->
            tx (snd run) = tx s ++ all_messages
            /\ exists a0 m limit answers af,
                 log (snd run)
                 = log s ++ size_exchange r cmd a0 m
                         ++ element_exchanges r T cmd pt 0 answers
                         ++ finished_exchange r cmd size af
                 /\ reply_okb cmd a0 = true
                 /\ decode prot_size_t m = Some limit /\ size <= limit
                 /\ List.length answers = List.length pt
                 /\ Forall (fun a => reply_okb cmd a = true) answers
                 /\ reply_okb cmd af = true)
    end.
Proof.
  intros r T cmd pt size s Hc Hsz Hlen run all_messages.
  pose proof (setArray_split r T cmd pt size s) as Hsplit. fold run in Hsplit.
  destruct (dispatchGetArrayMaxSize r cmd s) as [m s1] eqn:Hmax.
  destruct m as [maxSize |]; [| exact Hsplit].
  destruct (getArrayMaxSize_some r cmd Hc s maxSize s1 Hmax) as [Hs [Hs1 Htx1]].
  assert (Hn : Z.to_nat size = List.length pt) by lia.
  assert (Htrue : forall s', run = (true, s') ->
            tx s' = tx s ++ all_messages
            /\ exists a0 m limit answers af,
                 log s'
                 = log s ++ size_exchange r cmd a0 m
                         ++ element_exchanges r T cmd pt 0 answers
                         ++ finished_exchange r cmd size af
                 /\ reply_okb cmd a0 = true
                 /\ decode prot_size_t m = Some limit /\ size <= limit
                 /\ List.length answers = List.length pt
                 /\ Forall (fun a => reply_okb cmd a = true) answers
                 /\ reply_okb cmd af = true).
  { intros s' Hrun. subst run all_messages.
    apply (setArray_true r cmd Hc) in Hrun; try assumption.
    rewrite Hn in Hrun. exact Hrun. }
  split; [exact Htx1 |]. split; [| split; [| split]].
  - intros Hlt. rewrite Hsplit.
    replace (size <=? maxSize) with false by (symmetry; apply Z.leb_gt; lia).
    reflexivity.
  - intros Hle. rewrite Hsplit.
    replace (size <=? maxSize) with true by (symmetry; apply Z.leb_le; lia).
    destruct (setArray_rest_sent r T cmd Hc pt size s1 Hs1 Hsz)
      as [j [tail [Hj [Htx Htail]]]].
    rewrite Hn in Hj, Htail.
    exists j, tail. split; [exact Hj |]. split; [| exact Htail].
    rewrite Htx, Htx1, <- app_assoc. reflexivity.
  - intros Hle r0 rest Hrx. rewrite <- Hn in Hrx.
    destruct (setArray_rest_complete r r0 T cmd Hc pt size rest s1 Hs1 Hsz Hrx)
      as [s' [Hrest Hrx']].
    assert (Hrun : run = (true, s')).
    { rewrite Hsplit.
      replace (size <=? maxSize) with true by (symmetry; apply Z.leb_le; lia).
      exact Hrest. }
    destruct (Htrue s' Hrun) as [Htx _].
    rewrite Hrun. cbn [fst snd]. auto.
  - intros Hres. destruct run as [res s'] eqn:Hrun.
    cbn [fst snd] in *. subst res. now apply Htrue.
Qed.

Lemma dispatchSetArray_sequence_witness :
  let run :=
    dispatchSetArray Host U16 0x4d [100; 110; 120; 130] 4
      (mkSession true true set_answers [] []) in
  let all_messages :=
    size_query Host 0x4d
    ++ concat (map (element_msg Host U16 0x4d [100; 110; 120; 130])
                 (seq 0 (List.length [100; 110; 120; 130])))
    ++ finished_msg Host 0x4d 4 in
  match dispatchGetArrayMaxSize Host 0x4d (mkSession true true set_answers [] []) with
  | (None, s1) => run = (false, s1)
  | (Some maxSize, s1) =>
      tx s1 = [] ++ size_query Host 0x4d
      /\ (maxSize < 4 -> run = (false, s1))
      /\ (4 <= maxSize ->
          exists j tail,
            (Nat.min 1 (List.length [100; 110; 120; 130]) <= j
             <= List.length [100; 110; 120; 130])%nat
            /\ tx (snd run)
               = [] ++ size_query Host 0x4d
                    ++ concat (map (element_msg Host U16 0x4d [100; 110; 120; 130])
                                 (seq 0 j)) ++ tail
            /\ (tail = []
                \/ (j = List.length [100; 110; 120; 130]
                    /\ tail = finished_msg Host 0x4d 4)))
      /\ (4 <= maxSize ->
          forall (r0 : role) (rest : list Z),
            rx s1 = concat (repeat (payload r0 prot_cmd_t 0x4d)
                              (S (List.length [100; 110; 120; 130]))) ++ rest ->
            fst run = true
            /\ tx (snd run) = [] ++ all_messages
            /\ rx (snd run) = rest)
      /\ (fst run = true ->
          tx (snd run) = [] ++ all_messages
          /\ exists a0 m limit answers af,
               log (snd run)
               = [] ++ size_exchange Host 0x4d a0 m
                    ++ element_exchanges Host U16 0x4d [100; 110; 120; 130] 0 answers
                    ++ finished_exchange Host 0x4d 4 af
               /\ reply_okb 0x4d a0 = true
               /\ decode prot_size_t m = Some limit /\ 4 <= limit
               /\ List.length answers = List.length [100; 110; 120; 130]
               /\ Forall (fun a => reply_okb 0x4d a = true) answers
               /\ reply_okb 0x4d af = true)
  end.
Proof.
  apply (dispatchSetArray_sequence Host U16 0x4d [100; 110; 120; 130] 4
           (mkSession true true set_answers [] [])).
  - unfold in_range. simpl. lia.
  - unfold in_range. simpl. lia.
  - reflexivity.
Defined.

(** C7: in the trace of an array-set that returns true the last
    sub-command is SUBCMD_ARRAY_FINISHED; in the trace of any array-get
    a SUBCMD_ARRAY_ELEMENT request comes only after the
    SUBCMD_ARRAY_STARTING request and an answer to it that is the echo
    of the command. *)
Theorem array_exchange_order :
  forall (r : role) (T : ctype) (cmd : Z) (pt : list Z) (s : session),
    in_range prot_cmd_t cmd -> log s = [] ->
    (forall size s',
        in_range prot_size_t size ->
        dispatchSetArray r T cmd pt size s = (true, s') ->
        last (subcommands (log s')) []
        = payload r prot_cmd_t SUBCMD_ARRAY_FINISHED)
    /\ (forall maxSize size0 pre c post,
          log (snd (dispatchGetArray r T cmd pt maxSize size0 s))
          = pre ++ EvWriteByte c
                :: EvWriteBuffer (payload r prot_cmd_t SUBCMD_ARRAY_ELEMENT) :: post ->
          exists a pre',
            pre = EvWriteByte cmd
                  :: EvWriteBuffer (payload r prot_cmd_t SUBCMD_ARRAY_STARTING)
                  :: EvRead a :: pre'
            /\ reply_okb cmd a = true).
Proof.
  intros r T cmd pt s Hc Hlog. split.
  - intros size s' Hsz Hrun.
    destruct (started_ s) eqn:Hs.
    + apply setArray_true in Hrun; try assumption.
      destruct Hrun as [_ [a0 [m [maxSize [answers [af [Hl _]]]]]]].
      rewrite Hl, !app_assoc. unfold finished_exchange.
      destruct (subcommands_last
                  (((log s ++ size_exchange r cmd a0 m)
                    ++ element_exchanges r T cmd pt 0 answers))
                  cmd (payload r prot_cmd_t SUBCMD_ARRAY_FINISHED)
                  (payload r prot_size_t size) af) as [l ->].
      apply last_last.
    + rewrite setArray_stopped in Hrun by exact Hs. discriminate.
  - intros maxSize size0 pre c post Heq.
    destruct (started_ s) eqn:Hs.
    + destruct (getArray_log r cmd Hc T pt maxSize size0 s Hs)
        as [a [more [Hl Hmore]]].
      rewrite Hl, Hlog in Heq. simpl in Heq.
      destruct pre as [| p0 [| p1 [| p2 pre']]]; simpl in Heq.
      * exfalso. injection Heq as _ Hp _.
        destruct r; vm_compute in Hp; discriminate.
      * discriminate.
      * discriminate.
      * injection Heq as <- <- <- Hm.
        exists a, pre'. split; [reflexivity |].
        apply Hmore. rewrite Hm. now destruct pre'.
    + rewrite getArray_stopped in Heq by exact Hs. simpl in Heq.
      rewrite Hlog in Heq. destruct pre; discriminate.
Qed.

Lemma array_exchange_order_witness :
  last (subcommands
          (log (snd (dispatchSetArray Host U16 0x4d [100; 110; 120; 130] 4
                       (mkSession true true set_answers [] [])))))
       []
  = payload Host prot_cmd_t SUBCMD_ARRAY_FINISHED
  /\ exists a pre',
       [EvWriteByte 0x47; EvWriteBuffer (payload Host prot_cmd_t SUBCMD_ARRAY_STARTING);
        EvRead (bytes_of_string "47");
        EvWriteByte 0x47; EvWriteBuffer (payload Host prot_cmd_t SUBCMD_ARRAY_SIZE);
        EvRead (bytes_of_string "47"); EvRead (bytes_of_string "1")]
       = EvWriteByte 0x47
         :: EvWriteBuffer (payload Host prot_cmd_t SUBCMD_ARRAY_STARTING)
         :: EvRead a :: pre'
       /\ reply_okb 0x47 a = true.
Proof.
  split.
  - apply (proj1 (array_exchange_order Host U16 0x4d [100; 110; 120; 130]
                    (mkSession true true set_answers [] [])
                    ltac:(unfold in_range; simpl; lia) eq_refl)
             4).
    + unfold in_range. simpl. lia.
    + vm_compute. reflexivity.
  - apply (proj2 (array_exchange_order Host U16 0x47 [0; 0]
                    (mkSession true true get_answers [] [])
                    ltac:(unfold in_range; simpl; lia) eq_refl)
             2 0 _ 0x47
             [EvWriteBuffer (payload Host prot_size_t 0);
              EvRead (bytes_of_string "47"); EvRead (bytes_of_string "2a")]).
    vm_compute. reflexivity.
Defined.

End ArrayClaims.
